(** * ChiomaAI: the OCR batch conversion pipeline of [src/ocr.py]

    A shallow embedding of [extract_text_from_image], [process_single_pdf],
    [ocr_pdfs_to_text] and [batch_ocr_processing], and the properties the
    specification states about them.

    Conventions of the embedding.
    - A Python [str] is a Rocq [string] read as a sequence of code points
      below 256; [str.strip] and [str.lower] are modelled on that range.
    - The third-party engines (pdf2image, OpenCV, PIL, pytesseract) and the
      operating system are an environment record [env] of deterministic
      capabilities, each of which may raise.
    - Everything the code can observe or change is the [world]: the files
      that exist (path to contents) and the trace of capability calls and
      log records emitted so far.
    - Code runs in the monad [M A := world -> result A * world]; a raised
      exception keeps the effects performed before it, as in Python. The
      exceptions are those of class [Exception], the ones the handlers of
      the code catch.
    - Logging is kept as data: every [logger] call of the code appends one
      record, with its arguments, to the trace. The log file
      [ocr_processing.log] is therefore not one of the files of the
      [world]: what the handlers write to it and to the console is these
      records, in the format and with the time stamps the handlers add.
      What is modelled of the file itself is that [setup_ocr_logging]
      opens it and raises when it cannot. *)

From Stdlib Require Import ZArith Lia Ascii.
From stdpp Require Import base tactics option list strings pretty gmap fin_maps.

Local Open Scope Z_scope.
Local Open Scope nat_scope.

(** ** Python strings *)

Module PyStr.

Definition nl : string := String "010"%char "".

(** [c.isspace()] for a code point below 256: TAB, LF, VT, FF, CR,
    FS, GS, RS, US, SPACE, NEL (0x85) and NBSP (0xA0). *)
Definition isspace (c : ascii) : bool :=
  let n := nat_of_ascii c in
  ((9 <=? n) && (n <=? 13)) || ((28 <=? n) && (n <=? 32))
  || (n =? 133) || (n =? 160).

(** [s.lstrip()] *)
Fixpoint lstrip (s : string) : string :=
  match s with
  | EmptyString => EmptyString
  | String c r => if isspace c then lstrip r else s
  end.

(** [s.rstrip()] *)
Fixpoint rstrip (s : string) : string :=
  match s with
  | EmptyString => EmptyString
  | String c r =>
      match rstrip r with
      | EmptyString => if isspace c then EmptyString else String c EmptyString
      | r' => String c r'
      end
  end.

(** [s.strip()] *)
Definition strip (s : string) : string := rstrip (lstrip s).

(** Truthiness of a string: [if s:]. *)
Definition truthy (s : string) : bool :=
  match s with EmptyString => false | _ => true end.

(** [c.lower()] for a code point below 256. *)
Definition lower_char (c : ascii) : ascii :=
  let n := nat_of_ascii c in
  if ((65 <=? n) && (n <=? 90))
     || ((192 <=? n) && (n <=? 222) && negb (n =? 215))
  then ascii_of_nat (n + 32) else c.

(** [s.lower()] *)
Fixpoint lower (s : string) : string :=
  match s with
  | EmptyString => EmptyString
  | String c r => String (lower_char c) (lower r)
  end.

(** [s.startswith(p)] *)
Fixpoint startswith (s p : string) : bool :=
  match p, s with
  | EmptyString, _ => true
  | String _ _, EmptyString => false
  | String a p', String b s' => if Ascii.eqb a b then startswith s' p' else false
  end.

(** [s.endswith(p)] *)
Fixpoint endswith (s p : string) : bool :=
  match s with
  | EmptyString => String.eqb p EmptyString
  | String _ r => String.eqb s p || endswith r p
  end.

(** [s[i:]] and [s[:i]] for [0 <= i]. *)
Fixpoint slice_from (i : nat) (s : string) : string :=
  match i, s with
  | O, _ => s
  | S _, EmptyString => EmptyString
  | S j, String _ r => slice_from j r
  end.

Fixpoint slice_to (i : nat) (s : string) : string :=
  match i, s with
  | O, _ => EmptyString
  | S _, EmptyString => EmptyString
  | S j, String c r => String c (slice_to j r)
  end.

(** [s.rfind(c)] for a one-character needle: the last index, or -1. *)
Fixpoint rfind (c : ascii) (s : string) : Z :=
  match s with
  | EmptyString => (-1)%Z
  | String a r =>
      let k := rfind c r in
      if (0 <=? k)%Z then (k + 1)%Z
      else if Ascii.eqb a c then 0%Z else (-1)%Z
  end.

(** [sep.join(l)] *)
Fixpoint join (sep : string) (l : list string) : string :=
  match l with
  | [] => EmptyString
  | [x] => x
  | x :: r => x +:+ sep +:+ join sep r
  end.

(** [str(n)] for a non-negative integer. *)
Definition of_nat (n : nat) : string := pretty n.

End PyStr.

(** ** [os.path] (posixpath) *)

Module OsPath.
Import PyStr.

Definition sep : ascii := "/"%char.
Definition extsep : ascii := "."%char.

(** [os.path.join(a, b)] *)
Definition join (a b : string) : string :=
  if startswith b (String sep "") then b
  else if negb (truthy a) || endswith a (String sep "") then a +:+ b
  else a +:+ String sep "" +:+ b.

(** [os.path.basename(p)]: [i = p.rfind('/') + 1; return p[i:]]. *)
Definition basename (p : string) : string :=
  slice_from (Z.to_nat (rfind sep p + 1)) p.

(** The scan of [genericpath._splitext] over the indices
    [filenameIndex .. dotIndex - 1]: is some character not a dot? *)
Fixpoint has_non_dot (s : string) : bool :=
  match s with
  | EmptyString => false
  | String c r => negb (Ascii.eqb c extsep) || has_non_dot r
  end.

(** [os.path.splitext(p)] *)
Definition splitext (p : string) : string * string :=
  let sepIndex := rfind sep p in
  let dotIndex := rfind extsep p in
  if (sepIndex <? dotIndex)%Z then
    let filenameIndex := Z.to_nat (sepIndex + 1) in
    if has_non_dot (slice_from filenameIndex (slice_to (Z.to_nat dotIndex) p))
    then (slice_to (Z.to_nat dotIndex) p, slice_from (Z.to_nat dotIndex) p)
    else (p, EmptyString)
  else (p, EmptyString).

End OsPath.

(** ** Exceptions and results *)

(** A Python exception: its class and [str(e)]. *)
Record exn := Exn { exn_class : string; exn_msg : string }.

Inductive result (A : Type) : Type :=
| Ok (a : A)
| Raise (e : exn).
Arguments Ok {A} a.
Arguments Raise {A} e.

Definition rbind {A B} (r : result A) (k : A -> result B) : result B :=
  match r with Ok a => k a | Raise e => Raise e end.

(** ** Images and the third-party engines *)

(** A raster (PIL image or numpy array): its shape and its samples. *)
Record image := Image { shape : list nat; samples : list Z }.

(** A directory as [os.walk] sees it: the names of its non-directory
    entries and its sub-directories. *)
#[warnings="-register-all"]
Inductive dirtree : Type :=
| Dir (filenames : list string) (subdirs : list (string * dirtree)).

Inductive cv_code := COLOR_RGB2BGR | COLOR_BGR2GRAY.

(** The opaque capabilities. [open_fault] and [write_fault] are the ways
    opening a file for writing ([open(path, 'w')], and the log file opened
    for appending) and [f.write(text)] can fail: a failed write has
    persisted the first [k] characters when it raises. [listing] gives the
    tree under a path, [None] when the path is not a readable directory. *)
Record env := Env {
  convert_from_path : string -> Z -> result (list image);
  np_array : image -> result image;
  cvtColor : image -> cv_code -> result image;
  medianBlur : image -> nat -> result image;
  threshold_otsu : image -> result image;
  morph_close : image -> result image;
  fromarray : image -> result image;
  image_to_string : image -> result string;
  open_fault : string -> option exn;
  write_fault : string -> string -> option (nat * exn);
  makedirs_fault : string -> option exn;
  listing : string -> option dirtree
}.

(** ** The world: files and the trace of what happened *)

Inductive log_record : Type :=
| LogOcrError (msg : string)
| LogSkipping (output_file : string)
| LogProcessingPdf (pdf_path : string)
| LogNoImages (pdf_path : string)
| LogConverted (pages : nat)
| LogProcessingPage (page_num pages : nat)
| LogNoTextPage (page_num : nat)
| LogNoTextPdf (pdf_path : string)
| LogSaved (output_file : string)
| LogErrorPdf (pdf_path msg : string)
| LogFound (n : nat)
| LogNoneFound
| LogParallel (n : nat) (workers : Z)
| LogSequential (n : nat)
| LogSuccess (pdf_path : string)
| LogFailed (pdf_path reason : string)
| LogException (pdf_path msg : string)
| LogSummary (total successful failed : nat) (output_folder : string)
| LogErrorItem (error : string)
| LogDpi (dpi : Z).

Inductive event : Type :=
| EvMakedirs (path : string)
| EvRasterize (pdf_path : string) (dpi : Z)
| EvRecognize (img : image)
| EvOpen (path : string)
| EvWrite (path text : string)
| EvLog (r : log_record).

(** [files] maps the path of each file to its contents; the log file is
    left out of it, its contents being the [EvLog] records of [trace]. *)
Record world := World { files : gmap string string; trace : list event }.

(** ** The monad of the embedding *)

Definition M (A : Type) : Type := world -> result A * world.

Definition ret {A} (a : A) : M A := fun w => (Ok a, w).

Definition bind {A B} (m : M A) (k : A -> M B) : M B :=
  fun w => match m w with
           | (Ok a, w') => k a w'
           | (Raise e, w') => (Raise e, w')
           end.

Definition raise {A} (e : exn) : M A := fun w => (Raise e, w).

(** [try: m  except Exception as e: h e] *)
Definition try_except {A} (m : M A) (h : exn -> M A) : M A :=
  fun w => match m w with
           | (Ok a, w') => (Ok a, w')
           | (Raise e, w') => h e w'
           end.

Definition lift {A} (r : result A) : M A := fun w => (r, w).

Definition emit (e : event) : M unit :=
  fun w => (Ok tt, World (files w) (trace w ++ [e])).

Definition log (r : log_record) : M unit := emit (EvLog r).

Notation "x <- m ;; k" := (bind m (fun x => k))
  (at level 100, m at next level, right associativity).
Notation "m ;; k" := (bind m (fun _ => k))
  (at level 100, right associativity).

(** [os.path.exists(path)] *)
Definition path_exists (path : string) : M bool :=
  fun w => (Ok (bool_decide (is_Some (files w !! path))), w).

(** [open(path, 'w', encoding='utf-8')]: creates or truncates the file. *)
Definition open_w (E : env) (path : string) : M unit :=
  emit (EvOpen path) ;;
  match open_fault E path with
  | Some e => raise e
  | None => fun w => (Ok tt, World (<[path := ""]> (files w)) (trace w))
  end.

(** What a file that holds [old] holds after [text] has been written at
    its start: [text] replaces the first characters and what lies beyond
    them stays. Contents are kept as text, so positions are counted in
    characters. *)
Definition overlay (text old : string) : string :=
  text +:+ PyStr.slice_from (String.length text) old.

(** [f.write(text)] followed by the close of the [with] block. The
    descriptor was opened by [open_w] and nothing was written through it
    before, so its position is the start of the file. It is the only
    descriptor on the file unless another task opened the same path, and
    then what that task wrote beyond the end of [text] stays in the
    file. *)
Definition write (E : env) (path text : string) : M unit :=
  emit (EvWrite path text) ;;
  match write_fault E path text with
  | Some (k, e) =>
      (fun w =>
         (Ok tt,
          World (<[path := overlay (PyStr.slice_to k text)
                                   (default "" (files w !! path))]> (files w))
                (trace w))) ;;
      raise e
  | None =>
      fun w =>
        (Ok tt,
         World (<[path := overlay text (default "" (files w !! path))]>
                  (files w))
               (trace w))
  end.

(** ** [preprocess_image] (ocr.py, lines 22-46) *)

Definition preprocess_image (E : env) (img : image) : result image :=
  rbind (np_array E img) (fun open_cv_image =>
  rbind (if (length (shape open_cv_image) =? 3)
            && (nth 2 (shape open_cv_image) 0 =? 3)
         then cvtColor E open_cv_image COLOR_RGB2BGR
         else Ok open_cv_image) (fun open_cv_image =>
  rbind (cvtColor E open_cv_image COLOR_BGR2GRAY) (fun gray =>
  rbind (medianBlur E gray 3) (fun denoised =>
  rbind (threshold_otsu E denoised) (fun thresh =>
  rbind (morph_close E thresh) (fun processed =>
  Ok processed)))))).

(** ** [extract_text_from_image] (ocr.py, lines 48-66) *)

Definition extract_text_from_image (E : env) (img : image) : M string :=
  emit (EvRecognize img) ;;
  try_except
    (processed_image <- lift (preprocess_image E img) ;;
     pil_image <- lift (fromarray E processed_image) ;;
     text <- lift (image_to_string E pil_image) ;;
     ret (PyStr.strip text))
    (fun e => log (LogOcrError (exn_msg e)) ;; ret "").

(** ** [process_single_pdf] (ocr.py, lines 68-126) *)

(** The triple [(success, pdf_path, result)] the function returns. *)
Definition outcome : Type := bool * string * string.

Definition page_marker (page_num : nat) : string :=
  "--- Page " +:+ PyStr.of_nat page_num +:+ " ---".

(** [f"--- Page {page_num} ---\n{body}\n"] *)
Definition page_block (page_num : nat) (body : string) : string :=
  page_marker page_num +:+ PyStr.nl +:+ body +:+ PyStr.nl.

Definition no_text : string := "[No text extracted]".

(** The loop [for page_num, image in enumerate(images, 1)] of lines
    98-108; [total] is [len(images)] and [page_num] the running index. *)
Fixpoint pages_loop (E : env) (total page_num : nat) (images : list image)
    (all_text : list string) : M (list string) :=
  match images with
  | [] => ret all_text
  | img :: rest =>
      log (LogProcessingPage page_num total) ;;
      page_text <- extract_text_from_image E img ;;
      if PyStr.truthy page_text then
        pages_loop E total (S page_num) rest
          (all_text ++ [page_block page_num page_text])
      else
        log (LogNoTextPage page_num) ;;
        pages_loop E total (S page_num) rest
          (all_text ++ [page_block page_num no_text])
  end.

Definition output_path (pdf_path output_dir : string) : string :=
  let base_name := fst (OsPath.splitext (OsPath.basename pdf_path)) in
  OsPath.join output_dir (base_name +:+ ".txt").

Definition process_single_pdf (E : env) (pdf_path output_dir : string)
    (dpi : Z) : M outcome :=
  try_except
    (let base_name := fst (OsPath.splitext (OsPath.basename pdf_path)) in
     let output_file := OsPath.join output_dir (base_name +:+ ".txt") in
     present <- path_exists output_file ;;
     if present then
       log (LogSkipping output_file) ;;
       ret (true, pdf_path, output_file)
     else
       log (LogProcessingPdf pdf_path) ;;
       emit (EvRasterize pdf_path dpi) ;;
       images <- lift (convert_from_path E pdf_path dpi) ;;
       match images with
       | [] =>
           log (LogNoImages pdf_path) ;;
           ret (false, pdf_path, "No images extracted")
       | _ =>
           log (LogConverted (length images)) ;;
           all_text <- pages_loop E (length images) 1 images [] ;;
           let full_text := PyStr.join PyStr.nl all_text in
           if negb (PyStr.truthy (PyStr.strip full_text)) then
             log (LogNoTextPdf pdf_path) ;;
             ret (false, pdf_path, "No text extracted")
           else
             open_w E output_file ;;
             write E output_file full_text ;;
             log (LogSaved output_file) ;;
             ret (true, pdf_path, output_file)
       end)
    (fun e =>
       log (LogErrorPdf pdf_path (exn_msg e)) ;;
       ret (false, pdf_path, exn_msg e)).

(** ** [ocr_pdfs_to_text] (ocr.py, lines 128-222) *)

(** The dictionary [stats]. *)
Record stats := Stats {
  total : nat;
  successful : nat;
  failed : nat;
  errors : list string
}.

(** [os.walk(top)], top-down: one entry [(root, dirs, files)] per
    directory. Nothing is yielded for a path that cannot be listed. *)
Fixpoint walk (top : string) (t : dirtree)
    : list (string * list string * list string) :=
  match t with
  | Dir fs ds =>
      (top, map fst ds, fs) ::
      (fix walk_dirs (l : list (string * dirtree)) :=
         match l with
         | [] => []
         | (d, sub) :: r => walk (OsPath.join top d) sub ++ walk_dirs r
         end) ds
  end.

Definition os_walk (E : env) (top : string)
    : list (string * list string * list string) :=
  match listing E top with
  | None => []
  | Some t => walk top t
  end.

Definition is_pdf (file : string) : bool :=
  PyStr.endswith (PyStr.lower file) ".pdf".

(** Lines 150-154: the two nested loops appending to [pdf_files]. *)
Definition find_pdfs (entries : list (string * list string * list string))
    : list string :=
  foldl (fun pdf_files '(root, _, fs) =>
           foldl (fun pdf_files file =>
                    if is_pdf file
                    then pdf_files ++ [OsPath.join root file]
                    else pdf_files)
                 pdf_files fs)
        [] entries.

(** [os.makedirs(output_folder, exist_ok=True)] *)
Definition makedirs (E : env) (path : string) : M unit :=
  emit (EvMakedirs path) ;;
  match makedirs_fault E path with
  | Some e => raise e
  | None => ret tt
  end.

(** Lines 186-192 and 202-208: one outcome folded into the statistics. *)
Definition record_outcome (st : stats) (oc : outcome) : M stats :=
  let '(success, processed_pdf, res) := oc in
  if success : bool then
    log (LogSuccess processed_pdf) ;;
    ret (Stats (total st) (successful st + 1) (failed st) (errors st))
  else
    log (LogFailed processed_pdf res) ;;
    ret (Stats (total st) (successful st) (failed st + 1)
               (errors st ++ [processed_pdf +:+ ": " +:+ res])).

(** Lines 193-196: the [except] branch around [future.result()]. *)
Definition record_exception (st : stats) (pdf_path : string) (e : exn)
    : M stats :=
  log (LogException pdf_path (exn_msg e)) ;;
  ret (Stats (total st) (successful st) (failed st + 1)
             (errors st ++ [pdf_path +:+ ": " +:+ exn_msg e])).

(** Lines 200-208: the sequential loop. *)
Fixpoint seq_loop (E : env) (output_folder : string) (dpi : Z)
    (pdf_files : list string) (st : stats) : M stats :=
  match pdf_files with
  | [] => ret st
  | pdf_path :: rest =>
      oc <- process_single_pdf E pdf_path output_folder dpi ;;
      st' <- record_outcome st oc ;;
      seq_loop E output_folder dpi rest st'
  end.

(** *** The worker pool

    [ThreadPoolExecutor] runs [process_single_pdf] on several documents at
    once. A task touches the shared files at three points: the existence
    test, [open] and [write]. Everything between two of these is local to
    the task, so a task is a machine of three atomic steps. *)

Inductive tstate : Type :=
| TStart
| TOpen (full_text : string)
| TWrite (full_text : string).

Definition task_step (E : env) (pdf_path output_dir : string) (dpi : Z)
    (s : tstate) : M (tstate + outcome) :=
  let base_name := fst (OsPath.splitext (OsPath.basename pdf_path)) in
  let output_file := OsPath.join output_dir (base_name +:+ ".txt") in
  try_except
    match s with
    | TStart =>
        present <- path_exists output_file ;;
        if present then
          log (LogSkipping output_file) ;;
          ret (inr (true, pdf_path, output_file))
        else
          log (LogProcessingPdf pdf_path) ;;
          emit (EvRasterize pdf_path dpi) ;;
          images <- lift (convert_from_path E pdf_path dpi) ;;
          match images with
          | [] =>
              log (LogNoImages pdf_path) ;;
              ret (inr (false, pdf_path, "No images extracted"))
          | _ =>
              log (LogConverted (length images)) ;;
              all_text <- pages_loop E (length images) 1 images [] ;;
              let full_text := PyStr.join PyStr.nl all_text in
              if negb (PyStr.truthy (PyStr.strip full_text)) then
                log (LogNoTextPdf pdf_path) ;;
                ret (inr (false, pdf_path, "No text extracted"))
              else ret (inl (TOpen full_text))
          end
    | TOpen full_text =>
        open_w E output_file ;;
        ret (inl (TWrite full_text))
    | TWrite full_text =>
        write E output_file full_text ;;
        log (LogSaved output_file) ;;
        ret (inr (true, pdf_path, output_file))
    end
    (fun e =>
       log (LogErrorPdf pdf_path (exn_msg e)) ;;
       ret (inr (false, pdf_path, exn_msg e))).

(** The pool: documents submitted and not yet taken by a worker, the tasks
    in flight (at most [workers]), the futures that completed and were not
    yet yielded by [as_completed], and the statistics so far. *)
Record pool := Pool {
  queue : list string;
  running : list (string * tstate);
  finished : list (string * result outcome);
  pstats : stats
}.

Definition can_start (workers : nat) (P : pool) : bool :=
  match queue P with [] => false | _ => length (running P) <? workers end.

Definition pool_done (P : pool) : bool :=
  match queue P, running P, finished P with
  | [], [], [] => true
  | _, _, _ => false
  end.

(** A worker takes the next document from the queue. *)
Definition pool_start (P : pool) : pool :=
  match queue P with
  | [] => P
  | pdf_path :: q =>
      Pool q (running P ++ [(pdf_path, TStart)]) (finished P) (pstats P)
  end.

(** The [i]-th task in flight performs its next step; an exception that
    escapes the task is stored in its future. *)
Definition pool_advance (E : env) (output_folder : string) (dpi : Z)
    (i : nat) (P : pool) : M pool :=
  match running P !! i with
  | None => ret P
  | Some (pdf_path, s) =>
      fun w =>
        let others := take i (running P) ++ drop (S i) (running P) in
        match task_step E pdf_path output_folder dpi s w with
        | (Ok (inl s'), w') =>
            (Ok (Pool (queue P)
                      (take i (running P) ++ (pdf_path, s') :: drop (S i) (running P))
                      (finished P) (pstats P)), w')
        | (Ok (inr oc), w') =>
            (Ok (Pool (queue P) others
                      (finished P ++ [(pdf_path, Ok oc)]) (pstats P)), w')
        | (Raise e, w') =>
            (Ok (Pool (queue P) others
                      (finished P ++ [(pdf_path, Raise e)]) (pstats P)), w')
        end
  end.

(** [as_completed] yields the [j]-th completed future; lines 183-196. *)
Definition pool_collect (j : nat) (P : pool) : M pool :=
  match finished P !! j with
  | None => ret P
  | Some (pdf_path, future) =>
      st' <- match future with
             | Ok oc => record_outcome (pstats P) oc
             | Raise e => record_exception (pstats P) pdf_path e
             end ;;
      ret (Pool (queue P) (running P)
                (take j (finished P) ++ drop (S j) (finished P)) st')
  end.

(** One scheduling decision. The enabled moves are numbered: the tasks in
    flight, then the start of the next document when a worker is free, then
    the completed futures; [choice] picks one of them. *)
Definition pool_step (E : env) (output_folder : string) (dpi : Z)
    (workers : nat) (choice : nat) (P : pool) : M pool :=
  let r := length (running P) in
  let s := if can_start workers P then 1 else 0 in
  let k := choice mod (r + s + length (finished P)) in
  if k <? r then pool_advance E output_folder dpi k P
  else if k <? r + s then ret (pool_start P)
  else pool_collect (k - (r + s)) P.

Fixpoint run_pool (E : env) (output_folder : string) (dpi : Z)
    (workers : nat) (fuel : nat) (sched : list nat) (P : pool) : M pool :=
  match fuel with
  | O => ret P
  | S fuel' =>
      if pool_done P then ret P
      else
        P' <- pool_step E output_folder dpi workers (hd 0 sched) P ;;
        run_pool E output_folder dpi workers fuel' (tl sched) P'
  end.

(** [if max_workers and max_workers > 1] *)
Definition parallel_mode (max_workers : option Z) : bool :=
  match max_workers with
  | None => false
  | Some k => negb (k =? 0)%Z && (1 <? k)%Z
  end.

Fixpoint log_errors (l : list string) : M unit :=
  match l with
  | [] => ret tt
  | error :: r => log (LogErrorItem error) ;; log_errors r
  end.

(** The file of [logging.FileHandler('ocr_processing.log')]. *)
Definition log_file : string := "ocr_processing.log".

(** [setup_ocr_logging] (lines 10-20). The handlers are the arguments of
    [logging.basicConfig], so they are built on every call, whether or not
    the root logger is configured already: [logging.FileHandler] opens the
    log file for appending, which creates it when it is absent and raises
    when it cannot be opened. The call is line 144, before
    [os.makedirs] and outside any [try]. The records themselves go to the
    trace. *)
Definition setup_ocr_logging (E : env) : M unit :=
  match open_fault E log_file with
  | Some e => raise e
  | None => ret tt
  end.

(** [sched] is the sequence of scheduling decisions of the thread pool;
    it is not read in sequential mode. *)
Definition ocr_pdfs_to_text (sched : list nat) (E : env)
    (input_folder output_folder : string) (dpi : Z)
    (max_workers : option Z) : M stats :=
  setup_ocr_logging E ;;
  makedirs E output_folder ;;
  let pdf_files := find_pdfs (os_walk E input_folder) in
  log (LogFound (length pdf_files)) ;;
  match pdf_files with
  | [] =>
      log LogNoneFound ;;
      ret (Stats 0 0 0 [])
  | _ =>
      let st := Stats (length pdf_files) 0 0 [] in
      st <- (if parallel_mode max_workers then
               log (LogParallel (length pdf_files) (default 0%Z max_workers)) ;;
               P <- run_pool E output_folder dpi
                      (Z.to_nat (default 0%Z max_workers))
                      (5 * length pdf_files) sched
                      (Pool pdf_files [] [] st) ;;
               ret (pstats P)
             else
               log (LogSequential (length pdf_files)) ;;
               seq_loop E output_folder dpi pdf_files st) ;;
      log (LogSummary (total st) (successful st) (failed st) output_folder) ;;
      (if errors st is [] then ret tt else log_errors (errors st)) ;;
      ret st
  end.

(** ** [batch_ocr_processing] (ocr.py, lines 225-238) *)

(** The names bound at the top level of [ocr.py]: its imports and its
    function definitions. [logger] is a local variable of
    [process_single_pdf] and of [ocr_pdfs_to_text] only, and it is not a
    builtin. *)
Definition module_globals : list string :=
  [ "os"; "cv2"; "np"; "Image"; "pytesseract"; "convert_from_path";
    "logging"; "ThreadPoolExecutor"; "as_completed";
    "setup_ocr_logging"; "preprocess_image"; "extract_text_from_image";
    "process_single_pdf"; "ocr_pdfs_to_text"; "batch_ocr_processing" ].

(** Reading a name that the function does not assign: a global lookup. *)
Definition load_global (name : string) : M unit :=
  if bool_decide (name ∈ module_globals) then ret tt
  else raise (Exn "NameError" ("name '" +:+ name +:+ "' is not defined")).

Fixpoint batch_loop (scheds : list (list nat)) (E : env)
    (input_folder output_base_folder : string) (dpi_list : list Z)
    (results : gmap Z stats) : M (gmap Z stats) :=
  match dpi_list with
  | [] => ret results
  | dpi :: rest =>
      let output_folder :=
        OsPath.join output_base_folder ("dpi_" +:+ pretty dpi) in
      load_global "logger" ;;
      log (LogDpi dpi) ;;
      st <- ocr_pdfs_to_text (hd [] scheds) E input_folder output_folder
              dpi (Some 2%Z) ;;
      batch_loop (tl scheds) E input_folder output_base_folder rest
        (<[dpi := st]> results)
  end.

Definition batch_ocr_processing (scheds : list (list nat)) (E : env)
    (input_folder output_base_folder : string) (dpi_list : list Z)
    : M (gmap Z stats) :=
  batch_loop scheds E input_folder output_base_folder dpi_list ∅.

(** * Definitions used to state and prove the properties *)

(** ** White space at the ends of a string *)

Fixpoint all_space (s : string) : bool :=
  match s with
  | EmptyString => true
  | String c r => PyStr.isspace c && all_space r
  end.

Definition starts_space (s : string) : bool :=
  match s with
  | EmptyString => false
  | String c _ => PyStr.isspace c
  end.

Fixpoint ends_space (s : string) : bool :=
  match s with
  | EmptyString => false
  | String c EmptyString => PyStr.isspace c
  | String _ r => ends_space r
  end.

(** ** One page, functionally *)

(** The engine pipeline of lines 54-62, without the handler. *)
Definition engine_text (E : env) (img : image) : result string :=
  rbind (preprocess_image E img) (fun processed_image =>
  rbind (fromarray E processed_image) (fun pil_image =>
  rbind (image_to_string E pil_image) (fun text =>
  Ok (PyStr.strip text)))).

Definition recognized (E : env) (img : image) : string :=
  match engine_text E img with Ok s => s | Raise _ => "" end.

Definition recognize_events (E : env) (img : image) : list event :=
  EvRecognize img ::
  match engine_text E img with
  | Ok _ => []
  | Raise e => [EvLog (LogOcrError (exn_msg e))]
  end.

Definition page_body (page_text : string) : string :=
  if PyStr.truthy page_text then page_text else no_text.

Fixpoint pages_blocks (E : env) (page_num : nat) (images : list image)
    : list string :=
  match images with
  | [] => []
  | img :: rest =>
      page_block page_num (page_body (recognized E img))
      :: pages_blocks E (S page_num) rest
  end.

Fixpoint pages_events (E : env) (total page_num : nat) (images : list image)
    : list event :=
  match images with
  | [] => []
  | img :: rest =>
      EvLog (LogProcessingPage page_num total) :: recognize_events E img
      ++ (if PyStr.truthy (recognized E img) then []
          else [EvLog (LogNoTextPage page_num)])
      ++ pages_events E total (S page_num) rest
  end.

(** ** One document, functionally *)

Definition set_file (path : string) (u : option string)
    (F : gmap string string) : gmap string string :=
  match u with
  | None => F
  | Some c => <[path := c]> F
  end.

Definition present_in (F : gmap string string) (path : string) : bool :=
  bool_decide (is_Some (F !! path)).

Definition failure_events (pdf_path : string) (e : exn) : list event :=
  [EvLog (LogErrorPdf pdf_path (exn_msg e))].

(** Lines 84-115 for a document whose output is absent: either the text
    that is ready to be written, or the outcome returned early; with the
    events emitted. *)
Definition prepare (E : env) (dpi : Z) (pdf_path : string)
    : (string + outcome) * list event :=
  let start := [EvLog (LogProcessingPdf pdf_path); EvRasterize pdf_path dpi] in
  match convert_from_path E pdf_path dpi with
  | Raise e =>
      (inr (false, pdf_path, exn_msg e), start ++ failure_events pdf_path e)
  | Ok [] =>
      (inr (false, pdf_path, "No images extracted"),
       start ++ [EvLog (LogNoImages pdf_path)])
  | Ok images =>
      let ev := start ++ EvLog (LogConverted (length images))
                      :: pages_events E (length images) 1 images in
      let full_text := PyStr.join PyStr.nl (pages_blocks E 1 images) in
      if negb (PyStr.truthy (PyStr.strip full_text))
      then (inr (false, pdf_path, "No text extracted"),
            ev ++ [EvLog (LogNoTextPdf pdf_path)])
      else (inl full_text, ev)
  end.

(** Lines 118-122: [open], [write], and the handler of line 124. *)
Definition persist (E : env) (output_dir pdf_path full_text : string)
    : outcome * option string * list event :=
  let output_file := output_path pdf_path output_dir in
  match open_fault E output_file with
  | Some e =>
      ((false, pdf_path, exn_msg e), None,
       EvOpen output_file :: failure_events pdf_path e)
  | None =>
      match write_fault E output_file full_text with
      | Some (k, e) =>
          ((false, pdf_path, exn_msg e), Some (PyStr.slice_to k full_text),
           EvOpen output_file :: EvWrite output_file full_text
           :: failure_events pdf_path e)
      | None =>
          ((true, pdf_path, output_file), Some full_text,
           [EvOpen output_file; EvWrite output_file full_text;
            EvLog (LogSaved output_file)])
      end
  end.

(** The whole call, given whether the output file is present: the outcome,
    the new contents of the output file when it is written, and the
    events. *)
Definition conversion (E : env) (output_dir : string) (dpi : Z)
    (pdf_path : string) (present : bool)
    : outcome * option string * list event :=
  let output_file := output_path pdf_path output_dir in
  if present then
    ((true, pdf_path, output_file), None, [EvLog (LogSkipping output_file)])
  else
    match prepare E dpi pdf_path with
    | (inr oc, ev) => (oc, None, ev)
    | (inl full_text, ev) =>
        let '(oc, u, ev') := persist E output_dir pdf_path full_text in
        (oc, u, ev ++ ev')
    end.

(** ** Example environments *)

(** A page image carrying a tag that the example engines read. *)
Definition page (tag : Z) : image := Image [2; 2; 3] [tag].

(** Tag 1 reads as [" hello "], tag 2 makes the engine raise, any other
    page is blank. *)
Definition demo_ocr (img : image) : result string :=
  match samples img with
  | [1%Z] => Ok " hello "
  | [2%Z] => Raise (Exn "TesseractError" "engine failed")
  | _ => Ok ""
  end.

Definition demo_rasterize (pdf_path : string) (dpi : Z) : result (list image) :=
  if String.eqb pdf_path "in/a.pdf" then Ok [page 1; page 0; page 2]
  else if String.eqb pdf_path "in/blank.pdf" then Ok [page 0; page 2]
  else if String.eqb pdf_path "in/zero.pdf" then Ok []
  else if String.eqb pdf_path "in/bad.pdf"
       then Raise (Exn "PDFPageCountError" "Unable to get page count.")
  else if String.eqb pdf_path "in/b/x.pdf"
       then Raise (Exn "PDFPageCountError" "Unable to get page count.")
  else Ok [page 1].

Definition demo_tree : dirtree :=
  Dir ["a.pdf"; "notes.txt"; "bad.pdf"]
      [("sub", Dir ["Scan.PDF"; "zero.pdf"] []); ("empty", Dir [] [])].

(** Two documents with the same base name in different directories. *)
Definition clash_tree : dirtree :=
  Dir [] [("a", Dir ["x.pdf"] []); ("b", Dir ["x.pdf"] [])].

Definition demo_env (wf : string -> string -> option (nat * exn))
    (tree : dirtree) : env :=
  Env demo_rasterize
      (fun i => Ok i) (fun i _ => Ok i) (fun i _ => Ok i)
      (fun i => Ok i) (fun i => Ok i) (fun i => Ok i)
      demo_ocr
      (fun _ => None) wf (fun _ => None)
      (fun top => if String.eqb top "in" then Some tree else None).

Definition E_demo : env := demo_env (fun _ _ => None) demo_tree.

(** The disk fills up after six characters of any write. *)
Definition E_disk_full : env :=
  demo_env (fun _ _ => Some (6, Exn "OSError" "[Errno 28] No space left on device"))
           demo_tree.

Definition E_clash : env := demo_env (fun _ _ => None) clash_tree.

(** The log file cannot be opened: the working directory is read-only. *)
Definition E_log_locked : env :=
  Env demo_rasterize
      (fun i => Ok i) (fun i _ => Ok i) (fun i _ => Ok i)
      (fun i => Ok i) (fun i => Ok i) (fun i => Ok i)
      demo_ocr
      (fun path => if String.eqb path log_file
                   then Some (Exn "PermissionError"
                                  "[Errno 13] Permission denied")
                   else None)
      (fun _ _ => None) (fun _ => None)
      (fun top => if String.eqb top "in" then Some demo_tree else None).

Definition w_empty : world := World ∅ [].

(** ** The events one conversion can emit *)

(** What an event of the conversion of [pdf_path] tells: a rasterization
    is of that document, an [open] or [write] is on its output file and
    happens only when the file was absent and the text was prepared; the
    batch-level records never occur. *)
Definition conversion_event (E : env) (output_dir : string) (dpi : Z)
    (pdf_path : string) (present : bool) (e : event) : Prop :=
  match e with
  | EvMakedirs _ => False
  | EvRasterize p d => p = pdf_path /\ d = dpi /\ present = false
  | EvRecognize _ => present = false
  | EvOpen o =>
      o = output_path pdf_path output_dir /\ present = false
      /\ exists img rest, convert_from_path E pdf_path dpi = Ok (img :: rest)
  | EvWrite o text =>
      o = output_path pdf_path output_dir /\ present = false
      /\ open_fault E o = None
      /\ fst (prepare E dpi pdf_path) = inl text
  | EvLog (LogSkipping o) =>
      o = output_path pdf_path output_dir /\ present = true
  | EvLog (LogFound _) | EvLog LogNoneFound | EvLog (LogParallel _ _)
  | EvLog (LogSequential _) | EvLog (LogSuccess _) | EvLog (LogFailed _ _)
  | EvLog (LogException _ _) | EvLog (LogSummary _ _ _ _)
  | EvLog (LogErrorItem _) | EvLog (LogDpi _) => False
  | EvLog _ => present = false
  end.

(** ** The batch, functionally *)

Definition add_outcome (st : stats) (oc : outcome) : stats :=
  let '(success, processed_pdf, res) := oc in
  if success : bool then
    Stats (total st) (successful st + 1) (failed st) (errors st)
  else
    Stats (total st) (successful st) (failed st + 1)
          (errors st ++ [processed_pdf +:+ ": " +:+ res]).

Definition outcome_event (oc : outcome) : event :=
  let '(success, processed_pdf, res) := oc in
  if success : bool then EvLog (LogSuccess processed_pdf)
  else EvLog (LogFailed processed_pdf res).

(** The sequential loop over the documents, on the files alone. *)
Fixpoint seq_run (E : env) (output_dir : string) (dpi : Z)
    (pdf_files : list string) (st : stats) (F : gmap string string)
    : stats * gmap string string * list event :=
  match pdf_files with
  | [] => (st, F, [])
  | pdf_path :: rest =>
      let o := output_path pdf_path output_dir in
      let '(oc, u, ev) :=
        conversion E output_dir dpi pdf_path (present_in F o) in
      let '(st', F', ev') :=
        seq_run E output_dir dpi rest (add_outcome st oc) (set_file o u F) in
      (st', F', ev ++ outcome_event oc :: ev')
  end.

(** A regular file [file] lies in directory [dir] of the tree rooted at
    [top]. *)
Inductive file_in_tree : string -> dirtree -> string -> string -> Prop :=
| file_here top fs ds file :
    file ∈ fs -> file_in_tree top (Dir fs ds) top file
| file_below top fs ds d sub dir file :
    (d, sub) ∈ ds ->
    file_in_tree (OsPath.join top d) sub dir file ->
    file_in_tree top (Dir fs ds) dir file.

(** The paths that lines 150-154 collect from one [os.walk] entry. *)
Definition entry_pdfs (entry : string * list string * list string)
    : list string :=
  let '(root, _, fs) := entry in
  map (OsPath.join root) (List.filter is_pdf fs).

(** ** The moves of the worker pool *)

(** The steps a task still has to take, plus one for the collection of
    its future. *)
Definition task_weight (s : tstate) : nat :=
  match s with
  | TStart => 4
  | TOpen _ => 3
  | TWrite _ => 2
  end.

Fixpoint running_weight (l : list (string * tstate)) : nat :=
  match l with
  | [] => 0
  | (_, s) :: r => task_weight s + running_weight r
  end.

Definition pool_measure (P : pool) : nat :=
  5 * length (queue P) + running_weight (running P) + length (finished P).

Definition exception_stats (st : stats) (pdf_path : string) (e : exn) : stats :=
  Stats (total st) (successful st) (failed st + 1)
        (errors st ++ [pdf_path +:+ ": " +:+ exn_msg e]).

(** The moves [pool_step] can make, one constructor per kind. *)
Inductive pool_trans (E : env) (output_dir : string) (dpi : Z)
    (workers : nat) : pool * world -> pool * world -> Prop :=
| pt_start p q run fin st w :
    length run < workers ->
    pool_trans E output_dir dpi workers
      (Pool (p :: q) run fin st, w)
      (Pool q (run ++ [(p, TStart)]) fin st, w)
| pt_step q l1 p s l2 fin st w s' w' :
    task_step E p output_dir dpi s w = (Ok (inl s'), w') ->
    pool_trans E output_dir dpi workers
      (Pool q (l1 ++ (p, s) :: l2) fin st, w)
      (Pool q (l1 ++ (p, s') :: l2) fin st, w')
| pt_finish q l1 p s l2 fin st w oc w' :
    task_step E p output_dir dpi s w = (Ok (inr oc), w') ->
    pool_trans E output_dir dpi workers
      (Pool q (l1 ++ (p, s) :: l2) fin st, w)
      (Pool q (l1 ++ l2) (fin ++ [(p, Ok oc)]) st, w')
| pt_collect q run f1 p oc f2 st w :
    pool_trans E output_dir dpi workers
      (Pool q run (f1 ++ (p, Ok oc) :: f2) st, w)
      (Pool q run (f1 ++ f2) (add_outcome st oc),
       World (files w) (trace w ++ [outcome_event oc]))
| pt_collect_exn q run f1 p e f2 st w :
    pool_trans E output_dir dpi workers
      (Pool q run (f1 ++ (p, Raise e) :: f2) st, w)
      (Pool q run (f1 ++ f2) (exception_stats st p e),
       World (files w)
             (trace w ++ [EvLog (LogException p (exn_msg e))])).

(** ** The batch operation, in two stages *)

(** Lines 170-208: the dispatch over the documents. *)
Definition batch_body (sched : list nat) (E : env) (output_folder : string)
    (dpi : Z) (max_workers : option Z) (pdf_files : list string)
    (st : stats) : M stats :=
  if parallel_mode max_workers then
    P <- run_pool E output_folder dpi (Z.to_nat (default 0%Z max_workers))
           (5 * length pdf_files) sched (Pool pdf_files [] [] st) ;;
    ret (pstats P)
  else seq_loop E output_folder dpi pdf_files st.

Definition mode_event (max_workers : option Z) (n : nat) : event :=
  if parallel_mode max_workers
  then EvLog (LogParallel n (default 0%Z max_workers))
  else EvLog (LogSequential n).

Definition summary_events (st : stats) (output_folder : string) : list event :=
  EvLog (LogSummary (total st) (successful st) (failed st) output_folder)
  :: map (fun error => EvLog (LogErrorItem error)) (errors st).

(** The counts of the statistics add up. *)
Definition stats_complete (n : nat) (st : stats) : Prop :=
  total st = n
  /\ successful st + failed st = total st
  /\ length (errors st) = failed st.

Definition pool_counts (P : pool) : Prop :=
  successful (pstats P) + failed (pstats P)
  + length (queue P) + length (running P) + length (finished P)
  = total (pstats P)
  /\ length (errors (pstats P)) = failed (pstats P).

(** ** The documents of a pool, each with the phase it is in *)

Inductive phase : Type :=
| Queued
| Running (s : tstate)
| Finished (oc : outcome)
| Collected.

Definition future_phase (x : string * result outcome) : string * phase :=
  (fst x,
   match snd x with
   | Ok oc => Finished oc
   | Raise e => Finished (false, fst x, exn_msg e)
   end).

(** [coll] lists the documents whose future was collected, in the order
    of collection; the pool itself only keeps their statistics. *)
Definition tasks (P : pool) (coll : list string) : list (string * phase) :=
  ((fun p => (p, Queued)) <$> queue P)
  ++ ((fun x => (fst x, Running (snd x))) <$> running P)
  ++ (future_phase <$> finished P)
  ++ ((fun p => (p, Collected)) <$> coll).

(** An invariant of the pool in three parts: a property [Phi] of every
    document in its phase, the futures hold outcomes, and a property [Psi]
    of the statistics, the collected documents and the world. *)
Definition pool_inv (docs : list string)
    (Phi : string -> phase -> world -> Prop)
    (Psi : stats -> list string -> world -> Prop)
    (x : pool * world) : Prop :=
  exists coll,
    docs ≡ₚ (tasks (fst x) coll).*1
    /\ Forall (fun t => Phi (fst t) (snd t) (snd x)) (tasks (fst x) coll)
    /\ Forall (fun f => exists oc, snd f = Ok oc) (finished (fst x))
    /\ Psi (pstats (fst x)) coll (snd x).

(** ** A document converted on its own *)

(** The outcome of a document, and what it leaves in its output file, when
    it is converted starting from the files [F0]. *)
Definition solo_outcome (E : env) (output_dir : string) (dpi : Z)
    (F0 : gmap string string) (pdf_path : string) : outcome :=
  fst (fst (conversion E output_dir dpi pdf_path
              (present_in F0 (output_path pdf_path output_dir)))).

Definition solo_file (E : env) (output_dir : string) (dpi : Z)
    (F0 : gmap string string) (pdf_path : string) : option string :=
  let o := output_path pdf_path output_dir in
  set_file o
    (snd (fst (conversion E output_dir dpi pdf_path (present_in F0 o)))) F0
  !! o.

(** Where a document of the pool stands when no two documents share an
    output file: its output file is as [F0] had it until the task opens
    it, and as the conversion on its own leaves it once the task is
    over. *)
Definition equiv_phase (E : env) (output_dir : string) (dpi : Z)
    (F0 : gmap string string) (docs : list string)
    (p : string) (ph : phase) (w : world) : Prop :=
  let o := output_path p output_dir in
  p ∈ docs
  /\ match ph with
     | Queued | Running TStart => files w !! o = F0 !! o
     | Running (TOpen t) =>
         F0 !! o = None /\ files w !! o = None
         /\ fst (prepare E dpi p) = inl t
     | Running (TWrite t) =>
         F0 !! o = None /\ files w !! o = Some ""
         /\ fst (prepare E dpi p) = inl t /\ open_fault E o = None
     | Finished oc =>
         oc = solo_outcome E output_dir dpi F0 p
         /\ files w !! o = solo_file E output_dir dpi F0 p
     | Collected => files w !! o = solo_file E output_dir dpi F0 p
     end.

Definition equiv_global (E : env) (output_dir : string) (dpi : Z)
    (F0 : gmap string string) (docs : list string) (st0 : stats)
    (st : stats) (coll : list string) (w : world) : Prop :=
  st = foldl add_outcome st0 (solo_outcome E output_dir dpi F0 <$> coll)
  /\ forall x, x ∉ (fun p => output_path p output_dir) <$> docs ->
               files w !! x = F0 !! x.

(** Statistics that agree up to the order of the error list. *)
Definition stats_equiv (s1 s2 : stats) : Prop :=
  total s1 = total s2
  /\ successful s1 = successful s2
  /\ failed s1 = failed s2
  /\ errors s1 ≡ₚ errors s2.

(** ** Resuming: what a first run leaves and what a second run finds *)

(** The conversion of the document, when its output is absent, fails
    without writing. *)
Definition clean (E : env) (output_dir : string) (dpi : Z) (p : string)
    : Prop :=
  snd (fst (conversion E output_dir dpi p false)) = None.

(** A document that another run will leave alone: its output exists, or
    its conversion fails without writing. *)
Definition settled (E : env) (output_dir : string) (dpi : Z)
    (F : gmap string string) (p : string) : Prop :=
  is_Some (F !! output_path p output_dir) \/ clean E output_dir dpi p.

(** What a task step can emit. *)
Definition task_event (E : env) (output_dir : string) (dpi : Z)
    (p : string) (s : tstate) (w : world) (e : event) : Prop :=
  match e with
  | EvMakedirs _ => False
  | EvRasterize q d =>
      q = p /\ s = TStart
      /\ present_in (files w) (output_path p output_dir) = false
  | EvLog (LogSkipping o) =>
      o = output_path p output_dir /\ s = TStart
      /\ present_in (files w) (output_path p output_dir) = true
  | EvLog (LogFound _) | EvLog LogNoneFound | EvLog (LogParallel _ _)
  | EvLog (LogSequential _) | EvLog (LogSuccess _) | EvLog (LogFailed _ _)
  | EvLog (LogException _ _) | EvLog (LogSummary _ _ _ _)
  | EvLog (LogErrorItem _) | EvLog (LogDpi _) => False
  | _ => True
  end.

Definition first_phase (E : env) (output_dir : string) (dpi : Z)
    (docs : list string) (p : string) (ph : phase) (w : world) : Prop :=
  let o := output_path p output_dir in
  p ∈ docs
  /\ match ph with
     | Queued | Running TStart => True
     | Running (TOpen t) => fst (prepare E dpi p) = inl t
     | Running (TWrite t) => is_Some (files w !! o)
     | Finished oc =>
         settled E output_dir dpi (files w) p
         /\ (fst (fst oc) = true ->
             snd (fst oc) = p /\ is_Some (files w !! o))
     | Collected => settled E output_dir dpi (files w) p
     end.

Definition first_global (output_dir : string) (docs : list string)
    (tr0 : list event) (st : stats) (coll : list string) (w : world)
    : Prop :=
  exists delta,
    trace w = tr0 ++ delta
    /\ forall p, EvLog (LogSuccess p) ∈ delta ->
         p ∈ docs /\ is_Some (files w !! output_path p output_dir).

Definition second_phase (E : env) (output_dir : string) (dpi : Z)
    (docs : list string) (F1 : gmap string string) (tr0 : list event)
    (p : string) (ph : phase) (w : world) : Prop :=
  let o := output_path p output_dir in
  p ∈ docs
  /\ match ph with
     | Queued | Running TStart => True
     | Running (TOpen t) => F1 !! o = None /\ fst (prepare E dpi p) = inl t
     | Running (TWrite _) => False
     | Finished _ | Collected =>
         is_Some (F1 !! o) ->
         exists delta,
           trace w = tr0 ++ delta /\ EvLog (LogSkipping o) ∈ delta
     end.

Definition second_global (output_dir : string) (F1 : gmap string string)
    (tr0 : list event) (st : stats) (coll : list string) (w : world)
    : Prop :=
  files w = F1
  /\ exists delta,
       trace w = tr0 ++ delta
       /\ forall q d, EvRasterize q d ∈ delta ->
            F1 !! output_path q output_dir = None.


(** ** Reading the trace *)

(** The page images handed to the recognizer, in the order of the calls. *)
Fixpoint recognized_images (tr : list event) : list image :=
  match tr with
  | [] => []
  | EvRecognize img :: r => img :: recognized_images r
  | _ :: r => recognized_images r
  end.

(** An environment whose grey-scale conversion accepts arrays of three
    dimensions only, as OpenCV does for [COLOR_BGR2GRAY]. *)
Definition E_opencv : env :=
  Env demo_rasterize
      (fun i => Ok i)
      (fun i code =>
         match code with
         | COLOR_RGB2BGR => Ok i
         | COLOR_BGR2GRAY =>
             if length (shape i) =? 3 then Ok i
             else Raise (Exn "cv2.error"
                             "Invalid number of channels in input image")
         end)
      (fun i _ => Ok i) (fun i => Ok i) (fun i => Ok i) (fun i => Ok i)
      demo_ocr
      (fun _ => None) (fun _ _ => None) (fun _ => None)
      (fun top => if String.eqb top "in" then Some demo_tree else None).

(** ** Characters of a string *)

(** [c in s] for a character [c]. *)
Fixpoint contains (c : ascii) (s : string) : bool :=
  match s with
  | EmptyString => false
  | String a r => Ascii.eqb a c || contains c r
  end.

(** ** Reading the log of a batch *)

(** The per-document result records (lines 188, 192, 196, 204 and 208). *)
Definition is_report (e : event) : bool :=
  match e with
  | EvLog (LogSuccess _) | EvLog (LogFailed _ _) | EvLog (LogException _ _) =>
      true
  | _ => false
  end.

(** The documents of the result records, in the order of the records. *)
Fixpoint reported (tr : list event) : list string :=
  match tr with
  | [] => []
  | EvLog (LogSuccess p) :: r => p :: reported r
  | EvLog (LogFailed p _) :: r => p :: reported r
  | EvLog (LogException p _) :: r => p :: reported r
  | _ :: r => reported r
  end.

(** The statistics recomputed from the success and failure records. *)
Fixpoint log_stats (tr : list event) (st : stats) : stats :=
  match tr with
  | [] => st
  | EvLog (LogSuccess _) :: r =>
      log_stats r (Stats (total st) (successful st + 1) (failed st) (errors st))
  | EvLog (LogFailed p res) :: r =>
      log_stats r (Stats (total st) (successful st) (failed st + 1)
                         (errors st ++ [p +:+ ": " +:+ res]))
  | _ :: r => log_stats r st
  end.

(** What holds of the dispatch over [docs] started from the files [F0]
    and the statistics [st0], once the documents [coll] have been
    reported, the files are [F] and the events [delta] have been
    emitted. *)
Definition dispatch_post (output_dir : string) (dpi : Z)
    (docs : list string) (st0 : stats) (F0 : gmap string string)
    (coll : list string) (st : stats) (F : gmap string string)
    (delta : list event) : Prop :=
  (forall x c, F0 !! x = Some c -> F !! x = Some c)
  /\ (forall x, x ∉ (fun p => output_path p output_dir) <$> docs ->
                F !! x = F0 !! x)
  /\ reported delta = coll
  /\ st = log_stats delta st0
  /\ (forall q d, EvRasterize q d ∈ delta ->
        q ∈ docs /\ d = dpi /\ F0 !! output_path q output_dir = None)
  /\ (forall p m, EvLog (LogException p m) ∉ delta).

(** A task writes only where no file was when the dispatch started, and
    a future holds the outcome of its own document. *)
Definition guard_phase (output_dir : string) (docs : list string)
    (F0 : gmap string string) (p : string) (ph : phase) (w : world) : Prop :=
  p ∈ docs
  /\ match ph with
     | Running (TOpen _) | Running (TWrite _) =>
         F0 !! output_path p output_dir = None
     | Finished oc => snd (fst oc) = p
     | _ => True
     end.

Definition guard_global (output_dir : string) (dpi : Z)
    (docs : list string) (st0 : stats) (F0 : gmap string string)
    (tr0 : list event) (st : stats) (coll : list string) (w : world)
    : Prop :=
  exists delta,
    trace w = tr0 ++ delta
    /\ dispatch_post output_dir dpi docs st0 F0 coll st (files w) delta.

(** ** The script of [ocr.py] (lines 241-254)

    The block under [if __name__ == "__main__"]; the value is the line it
    prints. *)
Definition main (sched : list nat) (E : env) : M string :=
  let input_dir := "data/ADULT AND CONTINUING EDUCATION" in
  let output_dir := "ocr_data_output" in
  stats <- ocr_pdfs_to_text sched E input_dir output_dir 300 (Some 1%Z) ;;
  ret ("Processing complete! Success: " +:+ PyStr.of_nat (successful stats)
       +:+ "/" +:+ PyStr.of_nat (total stats)).

(** A tree for the input folder of the script. *)
Definition E_script : env :=
  Env demo_rasterize
      (fun i => Ok i) (fun i _ => Ok i) (fun i _ => Ok i)
      (fun i => Ok i) (fun i => Ok i) (fun i => Ok i)
      demo_ocr
      (fun _ => None) (fun _ _ => None) (fun _ => None)
      (fun top => if String.eqb top "data/ADULT AND CONTINUING EDUCATION"
                  then Some demo_tree else None).

(** A world in which an output file of the examples exists already. *)
Definition w_kept : world := World {[ "out/a.txt" := "kept" ]} [].

(** Two documents with the same name, and different pages, in two
    directories. *)
Definition twin_tree : dirtree :=
  Dir ["blank.pdf"] [("sub", Dir ["blank.pdf"] [])].

Definition E_twin : env := demo_env (fun _ _ => None) twin_tree.

(** * Properties *)

(** ** The path and string helpers on examples *)

Example basename_ex : OsPath.basename "data/a/Report.PDF" = "Report.PDF".
Proof. reflexivity. Qed.

Example splitext_ex : OsPath.splitext "Report.v2.PDF" = ("Report.v2", ".PDF").
Proof. reflexivity. Qed.

Example splitext_hidden : OsPath.splitext ".pdf" = (".pdf", "").
Proof. reflexivity. Qed.

Example join_ex : OsPath.join "out" "x.txt" = "out/x.txt".
Proof. reflexivity. Qed.

Example strip_ex : PyStr.strip (" a b " +:+ PyStr.nl) = "a b".
Proof. reflexivity. Qed.

Example of_nat_ex : PyStr.of_nat 12 = "12".
Proof. reflexivity. Qed.

(** ** Strings *)

Lemma append_cons c a b : String c a +:+ b = String c (a +:+ b).
Proof. reflexivity. Qed.

Lemma append_nil b : "" +:+ b = b.
Proof. reflexivity. Qed.

Lemma length_append a b :
  String.length (a +:+ b) = String.length a + String.length b.
Proof. induction a as [|c a IH]; simpl; [easy | now rewrite IH]. Qed.

Lemma append_empty_r a : a +:+ "" = a.
Proof. induction a as [|c a IH]; [easy | now rewrite append_cons, IH]. Qed.

(** Writing at the start of an empty file. *)
Lemma overlay_empty text : overlay text "" = text.
Proof.
  unfold overlay. destruct (String.length text); apply append_empty_r.
Qed.


Section Strip.
Import PyStr.

Lemma rstrip_cons c r :
  isspace c = false -> rstrip (String c r) = String c (rstrip r).
Proof. intros H. simpl. rewrite H. now destruct (rstrip r). Qed.

Lemma strip_cons c r :
  isspace c = false -> strip (String c r) = String c (rstrip r).
Proof. intros H. unfold strip. simpl. rewrite H. now apply rstrip_cons. Qed.

Lemma lstrip_split s :
  exists l, s = l +:+ lstrip s /\ all_space l = true.
Proof.
  induction s as [|c r [l [Hl Hs]]]; simpl.
  - now exists "".
  - destruct (isspace c) eqn:Hc.
    + exists (String c l). simpl. rewrite Hc, Hs, append_cons.
      split; [now rewrite <- Hl | easy].
    + now exists "".
Qed.

Lemma rstrip_split s :
  exists r, s = rstrip s +:+ r /\ all_space r = true.
Proof.
  induction s as [|c s [r [Hr Hs]]]; simpl.
  - now exists "".
  - destruct (rstrip s) as [|d t] eqn:Hrs.
    + rewrite append_nil in Hr. subst r. destruct (isspace c) eqn:Hc.
      * exists (String c s). simpl. now rewrite Hc, Hs.
      * exists s. now rewrite append_cons.
    + exists r. split; [|easy]. now rewrite append_cons, <- Hr.
Qed.

Lemma lstrip_starts s : starts_space (lstrip s) = false.
Proof.
  induction s as [|c r IH]; simpl; [easy|].
  destruct (isspace c) eqn:Hc; [easy | simpl; exact Hc].
Qed.

Lemma rstrip_ends s : ends_space (rstrip s) = false.
Proof.
  induction s as [|c r IH]; simpl; [easy|].
  destruct (rstrip r) as [|d r'] eqn:Hr.
  - destruct (isspace c) eqn:Hc; simpl; [easy | exact Hc].
  - exact IH.
Qed.

Lemma rstrip_starts s :
  starts_space s = false -> starts_space (rstrip s) = false.
Proof.
  destruct s as [|c r]; simpl; [easy|]. intros Hc. rewrite Hc.
  now destruct (rstrip r).
Qed.

(** [strip] removes white space only, at both ends, and leaves none
    there. *)
Lemma strip_trimmed s :
  (exists l r, s = l +:+ strip s +:+ r
               /\ all_space l = true /\ all_space r = true)
  /\ starts_space (strip s) = false
  /\ ends_space (strip s) = false.
Proof.
  split; [|split].
  - destruct (lstrip_split s) as [l [Hl Hls]].
    destruct (rstrip_split (lstrip s)) as [r [Hr Hrs]].
    exists l, r. unfold strip. now rewrite <- Hr.
  - apply rstrip_starts, lstrip_starts.
  - apply rstrip_ends.
Qed.

Lemma truthy_strip_cons c r :
  isspace c = false -> truthy (strip (String c r)) = true.
Proof. intros H. now rewrite strip_cons. Qed.

Lemma join_cons_cons sep c x l :
  exists r, join sep (String c x :: l) = String c r.
Proof. destruct l; simpl; rewrite ?append_cons; eauto. Qed.

End Strip.

(** ** One page and the page loop *)

Lemma app_assoc_cons {A} (l1 l2 : list A) (x : A) :
  (l1 ++ [x]) ++ l2 = l1 ++ x :: l2.
Proof. now rewrite <- app_assoc. Qed.

Ltac run_step :=
  unfold bind, try_except, lift, emit, log, ret, raise, path_exists;
  repeat (progress (simpl; rewrite ?app_nil_r, <- ?app_assoc)).

Lemma extract_text_from_image_run E img w :
  extract_text_from_image E img w
  = (Ok (recognized E img),
     World (files w) (trace w ++ recognize_events E img)).
Proof.
  unfold extract_text_from_image, recognized, recognize_events, engine_text.
  unfold bind, try_except, lift, emit, log, ret, rbind; simpl.
  destruct (preprocess_image E img) as [p|e]; simpl.
  - destruct (fromarray E p) as [q|e]; simpl.
    + destruct (image_to_string E q) as [t|e]; simpl;
        now rewrite <- ?app_assoc.
    + now rewrite <- app_assoc.
  - now rewrite <- app_assoc.
Qed.

Lemma pages_loop_run E total images : forall page_num all_text w,
  pages_loop E total page_num images all_text w
  = (Ok (all_text ++ pages_blocks E page_num images),
     World (files w) (trace w ++ pages_events E total page_num images)).
Proof.
  induction images as [|img rest IH]; intros k acc w; simpl.
  - unfold ret. rewrite !app_nil_r. now destruct w.
  - unfold bind at 1, log, emit; simpl.
    unfold bind at 1. rewrite extract_text_from_image_run; simpl.
    unfold page_body. destruct (PyStr.truthy (recognized E img)).
    + rewrite IH; simpl. f_equal; [|f_equal].
      * now rewrite <- app_assoc.
      * now rewrite <- !app_assoc.
    + unfold bind at 1, log, emit; simpl. rewrite IH; simpl.
      f_equal; [|f_equal].
      * now rewrite <- app_assoc.
      * now rewrite <- !app_assoc.
Qed.

(** ** One document: [process_single_pdf] and the steps of a task *)

Section OneDocument.
Variable E : env.
Variable output_dir : string.
Variable dpi : Z.

#[local] Arguments pages_loop : simpl never.
#[local] Arguments pages_blocks : simpl never.
#[local] Arguments pages_events : simpl never.
#[local] Arguments PyStr.join : simpl never.
#[local] Arguments length : simpl never.

Lemma process_single_pdf_run pdf_path w :
  process_single_pdf E pdf_path output_dir dpi w
  = let '(oc, u, ev) :=
      conversion E output_dir dpi pdf_path
        (present_in (files w) (output_path pdf_path output_dir)) in
    (Ok oc,
     World (set_file (output_path pdf_path output_dir) u (files w))
           (trace w ++ ev)).
Proof.
  unfold process_single_pdf, conversion, present_in, output_path.
  set (o := OsPath.join output_dir _).
  unfold try_except, bind at 1, path_exists.
  destruct (bool_decide (is_Some (files w !! o))) eqn:Hp.
  { now run_step. }
  unfold prepare.
  unfold bind at 1, log, emit; simpl.
  unfold bind at 1, emit; simpl.
  unfold bind at 1, lift; simpl.
  destruct (convert_from_path E pdf_path dpi) as [[|img rest]|e]; simpl.
  - now run_step.
  - unfold bind at 1, log, emit; simpl.
    unfold bind at 1. rewrite pages_loop_run; simpl.
    set (txt := PyStr.join _ _).
    destruct (PyStr.truthy (PyStr.strip txt)); simpl.
    + unfold persist, output_path. fold o.
      unfold open_w, write, failure_events.
      destruct (open_fault E o) as [e|]; [now run_step|].
      destruct (write_fault E o txt) as [[k e]|]; run_step;
        rewrite lookup_insert_eq; cbn [default];
        now rewrite overlay_empty, insert_insert_eq.
    + now run_step.
  - now run_step.
Qed.

Lemma task_step_start pdf_path w :
  task_step E pdf_path output_dir dpi TStart w
  = if present_in (files w) (output_path pdf_path output_dir) then
      (Ok (inr (true, pdf_path, output_path pdf_path output_dir)),
       World (files w)
             (trace w ++ [EvLog (LogSkipping (output_path pdf_path output_dir))]))
    else
      match prepare E dpi pdf_path with
      | (inr oc, ev) => (Ok (inr oc), World (files w) (trace w ++ ev))
      | (inl full_text, ev) =>
          (Ok (inl (TOpen full_text)), World (files w) (trace w ++ ev))
      end.
Proof.
  unfold task_step, present_in, output_path.
  set (o := OsPath.join output_dir _).
  unfold try_except, bind at 1, path_exists.
  destruct (bool_decide (is_Some (files w !! o))) eqn:Hp.
  { now run_step. }
  unfold prepare.
  unfold bind at 1, log, emit; simpl.
  unfold bind at 1, emit; simpl.
  unfold bind at 1, lift; simpl.
  destruct (convert_from_path E pdf_path dpi) as [[|img rest]|e]; simpl.
  - now run_step.
  - unfold bind at 1, log, emit; simpl.
    unfold bind at 1. rewrite pages_loop_run; simpl.
    set (txt := PyStr.join _ _).
    destruct (PyStr.truthy (PyStr.strip txt)); simpl; now run_step.
  - now run_step.
Qed.

Lemma task_step_open pdf_path full_text w :
  task_step E pdf_path output_dir dpi (TOpen full_text) w
  = let o := output_path pdf_path output_dir in
    match open_fault E o with
    | Some e =>
        (Ok (inr (false, pdf_path, exn_msg e)),
         World (files w)
               (trace w ++ EvOpen o :: failure_events pdf_path e))
    | None =>
        (Ok (inl (TWrite full_text)),
         World (<[o := ""]> (files w)) (trace w ++ [EvOpen o]))
    end.
Proof.
  unfold task_step, output_path, open_w, failure_events.
  set (o := OsPath.join output_dir _). simpl.
  destruct (open_fault E o) as [e|]; now run_step.
Qed.

Lemma task_step_write pdf_path full_text w :
  task_step E pdf_path output_dir dpi (TWrite full_text) w
  = let o := output_path pdf_path output_dir in
    match write_fault E o full_text with
    | Some (k, e) =>
        (Ok (inr (false, pdf_path, exn_msg e)),
         World (<[o := overlay (PyStr.slice_to k full_text)
                               (default "" (files w !! o))]> (files w))
               (trace w ++ EvWrite o full_text :: failure_events pdf_path e))
    | None =>
        (Ok (inr (true, pdf_path, o)),
         World (<[o := overlay full_text (default "" (files w !! o))]>
                  (files w))
               (trace w ++ [EvWrite o full_text; EvLog (LogSaved o)]))
    end.
Proof.
  unfold task_step, output_path, write, failure_events.
  set (o := OsPath.join output_dir _). simpl.
  destruct (write_fault E o full_text) as [[k e]|]; now run_step.
Qed.

End OneDocument.

(** ** The assembled artifact *)

Lemma page_block_head k body :
  exists r, page_block k body = String "-"%char r.
Proof. unfold page_block, page_marker. eexists. reflexivity. Qed.

(** The guard of line 113 never fires: an artifact of at least one page
    starts with a page marker, so it is not blank. *)
Lemma full_text_truthy E k img rest :
  PyStr.truthy
    (PyStr.strip (PyStr.join PyStr.nl (pages_blocks E k (img :: rest))))
  = true.
Proof.
  simpl pages_blocks.
  destruct (page_block_head k (page_body (recognized E img))) as [r ->].
  destruct (join_cons_cons PyStr.nl "-"%char r
              (pages_blocks E (S k) rest)) as [r' ->].
  now apply truthy_strip_cons.
Qed.

Lemma prepare_cases E dpi pdf_path :
  match convert_from_path E pdf_path dpi with
  | Raise e =>
      fst (prepare E dpi pdf_path) = inr (false, pdf_path, exn_msg e)
  | Ok [] =>
      fst (prepare E dpi pdf_path)
      = inr (false, pdf_path, "No images extracted")
  | Ok images =>
      fst (prepare E dpi pdf_path)
      = inl (PyStr.join PyStr.nl (pages_blocks E 1 images))
  end.
Proof.
  unfold prepare.
  destruct (convert_from_path E pdf_path dpi) as [[|img rest]|e]; try easy.
  now rewrite full_text_truthy.
Qed.




Lemma present_in_None F o : F !! o = None -> present_in F o = false.
Proof.
  intros H. unfold present_in. apply bool_decide_eq_false.
  rewrite H. now intros [x Hx].
Qed.

Lemma present_in_Some F o : is_Some (F !! o) -> present_in F o = true.
Proof. intros H. unfold present_in. now apply bool_decide_eq_true. Qed.

Lemma present_in_false F o : present_in F o = false -> F !! o = None.
Proof.
  unfold present_in. intros H. apply bool_decide_eq_false in H.
  destruct (F !! o) eqn:Ho; [|easy]. destruct H. eauto.
Qed.

Lemma present_in_true F o : present_in F o = true -> is_Some (F !! o).
Proof. unfold present_in. intros H. now apply bool_decide_eq_true in H. Qed.

(** [process_single_pdf] never raises. *)
Lemma process_single_pdf_total E pdf_path output_dir dpi w :
  exists oc w', process_single_pdf E pdf_path output_dir dpi w = (Ok oc, w').
Proof.
  rewrite process_single_pdf_run.
  destruct (conversion _ _ _ _ _) as [[oc u] ev]. eauto.
Qed.

(** * The claims about one page and one document *)

(** C7. The page recognizer never raises: when preprocessing, the
    conversion back to an image or the recognition engine fails it returns
    the empty string, and it changes no file; when all three succeed it
    returns the engine's text with the white space at both ends removed,
    and nothing else removed. *)
Theorem page_recognizer_is_total_and_trims E img w :
  exists s w',
    extract_text_from_image E img w = (Ok s, w')
    /\ files w' = files w
    /\ (forall e, preprocess_image E img = Raise e -> s = "")
    /\ (forall p e, preprocess_image E img = Ok p ->
                    fromarray E p = Raise e -> s = "")
    /\ (forall p q e, preprocess_image E img = Ok p ->
                      fromarray E p = Ok q ->
                      image_to_string E q = Raise e -> s = "")
    /\ (forall p q text, preprocess_image E img = Ok p ->
          fromarray E p = Ok q ->
          image_to_string E q = Ok text ->
          s = PyStr.strip text
          /\ starts_space s = false /\ ends_space s = false
          /\ exists l r, text = l +:+ s +:+ r
                         /\ all_space l = true /\ all_space r = true).
Proof.
  exists (recognized E img), (World (files w) (trace w ++ recognize_events E img)).
  split; [apply extract_text_from_image_run|]. split; [easy|].
  unfold recognized, engine_text, rbind.
  split; [|split; [|split]].
  - intros e ->. easy.
  - intros p e -> ->. easy.
  - intros p q e -> -> ->. easy.
  - intros p q text -> -> ->.
    destruct (strip_trimmed text) as (Hsplit & Hstart & Hend). easy.
Qed.

Lemma page_recognizer_is_total_and_trims_witness :
  fst (extract_text_from_image E_demo (page 2) w_empty) = Ok ""
  /\ fst (extract_text_from_image E_demo (page 1) w_empty) = Ok "hello".
Proof.
  split.
  - destruct (page_recognizer_is_total_and_trims E_demo (page 2) w_empty)
      as (s & w' & Hrun & _ & _ & _ & Hengine & _).
    rewrite Hrun. simpl. f_equal.
    apply (Hengine (page 2) (page 2)
             (Exn "TesseractError" "engine failed")); reflexivity.
  - destruct (page_recognizer_is_total_and_trims E_demo (page 1) w_empty)
      as (s & w' & Hrun & _ & _ & _ & _ & Hok).
    rewrite Hrun. simpl. f_equal.
    destruct (Hok (page 1) (page 1) " hello ") as [-> _]; reflexivity.
Defined.




(** C1. A document of at least one page whose pages all recognize to the
    empty string is not reported as a failure: every page contributes its
    marker and [[No text extracted]], the joined text is not blank, and
    the file is written and reported as a success. *)
Theorem blank_document_is_written E output_dir dpi pdf_path w images :
  files w !! output_path pdf_path output_dir = None ->
  convert_from_path E pdf_path dpi = Ok images ->
  images <> [] ->
  (forall img w0, img ∈ images ->
     fst (extract_text_from_image E img w0) = Ok "") ->
  open_fault E (output_path pdf_path output_dir) = None ->
  (forall text, write_fault E (output_path pdf_path output_dir) text = None) ->
  exists w',
    process_single_pdf E pdf_path output_dir dpi w
    = (Ok (true, pdf_path, output_path pdf_path output_dir), w')
    /\ files w' !! output_path pdf_path output_dir
       = Some (PyStr.join PyStr.nl
                 (map (fun k => page_block k "[No text extracted]")
                      (seq 1 (length images)))).
Proof.
  intros Habs Hconv Hne Hblank Hopen Hwrite.
  assert (Hgen : forall l k,
             (forall im, im ∈ l -> recognized E im = "") ->
             pages_blocks E k l
             = map (fun k => page_block k "[No text extracted]")
                   (seq k (length l))).
  { induction l as [|a l IH]; intros k Hl; [easy|]. simpl.
    rewrite (Hl a) by apply list_elem_of_here. f_equal.
    apply IH. intros im Him. apply Hl. now apply list_elem_of_further. }
  rewrite process_single_pdf_run, (present_in_None _ _ Habs).
  unfold conversion.
  pose proof (prepare_cases E dpi pdf_path) as Hc. rewrite Hconv in Hc.
  destruct images as [|img rest]; [easy|].
  rewrite (Hgen (img :: rest) 1) in Hc.
  - destruct (prepare E dpi pdf_path) as [p ev]. cbn [fst] in Hc. subst p.
    unfold persist. rewrite Hopen, Hwrite.
    eexists. split; [reflexivity|]. cbn [files set_file].
    now rewrite lookup_insert_eq.
  - intros im Him. specialize (Hblank im w Him).
    rewrite extract_text_from_image_run in Hblank. now injection Hblank.
Qed.

Lemma blank_document_is_written_witness :
  exists w',
    process_single_pdf E_demo "in/blank.pdf" "out" 300 w_empty
    = (Ok (true, "in/blank.pdf", "out/blank.txt"), w')
    /\ files w' !! "out/blank.txt"
       = Some (page_block 1 "[No text extracted]" +:+ PyStr.nl
               +:+ page_block 2 "[No text extracted]").
Proof.
  apply (blank_document_is_written E_demo "out" 300 "in/blank.pdf" w_empty
           [page 0; page 2]).
  - reflexivity.
  - reflexivity.
  - discriminate.
  - intros img w0 Him.
    apply list_elem_of_In in Him. simpl in Him.
    destruct Him as [<-|[<-|[]]]; reflexivity.
  - reflexivity.
  - reflexivity.
Defined.

(** ** The events of one conversion *)

Lemma pages_events_kind E total images : forall k e,
  e ∈ pages_events E total k images ->
  match e with
  | EvRecognize _ | EvLog (LogProcessingPage _ _) | EvLog (LogNoTextPage _)
  | EvLog (LogOcrError _) => True
  | _ => False
  end.
Proof.
  induction images as [|img rest IH]; intros k e; simpl.
  - intros H. now apply elem_of_nil in H.
  - unfold recognize_events. cbn [app].
    rewrite !elem_of_cons, !elem_of_app.
    intros [->|[->|[H|[H|H]]]]; try easy.
    + destruct (engine_text E img); [now apply elem_of_nil in H|].
      apply list_elem_of_singleton in H. now subst e.
    + destruct (PyStr.truthy _); [now apply elem_of_nil in H|].
      apply list_elem_of_singleton in H. now subst e.
    + now apply (IH (S k)).
Qed.

Lemma conversion_events E output_dir dpi pdf_path present e :
  e ∈ snd (conversion E output_dir dpi pdf_path present) ->
  conversion_event E output_dir dpi pdf_path present e.
Proof.
  unfold conversion. destruct present.
  { simpl. intros H. apply list_elem_of_singleton in H. now subst e. }
  pose proof (prepare_cases E dpi pdf_path) as Hc.
  assert (Hprep : forall e, e ∈ snd (prepare E dpi pdf_path) ->
            match e with
            | EvOpen _ | EvWrite _ _ => False
            | _ => conversion_event E output_dir dpi pdf_path false e
            end).
  { clear e. intros e. unfold prepare, failure_events.
    destruct (convert_from_path E pdf_path dpi) as [[|img rest]|e0].
    - simpl. rewrite !elem_of_cons. intros [->|[->|[->|H]]]; try easy.
    - rewrite full_text_truthy. cbv zeta. cbn [negb snd app].
      rewrite !elem_of_cons. intros [->|[->|[->|H]]]; try easy.
      apply pages_events_kind in H.
      destruct e as [| | | | |[]]; easy.
    - simpl. rewrite !elem_of_cons. intros [->|[->|[->|H]]]; try easy. }
  destruct (prepare E dpi pdf_path) as [[txt|oc] ev] eqn:Hp;
    cbn [fst snd] in *.
  - assert (Himgs : exists img rest,
              convert_from_path E pdf_path dpi = Ok (img :: rest)).
    { destruct (convert_from_path E pdf_path dpi) as [[|img rest]|e0];
        try discriminate. eauto. }
    unfold persist, failure_events.
    destruct (open_fault E _) as [e0|] eqn:Hopen.
    + simpl. rewrite elem_of_app, !elem_of_cons.
      intros [H|[->|[->|H]]]; try easy.
      specialize (Hprep e H). now destruct e.
    + destruct (write_fault E _ _) as [[k e0]|]; simpl;
        rewrite elem_of_app, !elem_of_cons;
        (intros [H|[->|[->|[->|H]]]]; try easy;
         try (specialize (Hprep e H); now destruct e);
         simpl; now rewrite Hp).
  - simpl. intros H. specialize (Hprep e H). now destruct e.
Qed.

(** ** How one conversion changes the files *)

Lemma conversion_present E output_dir dpi pdf_path :
  conversion E output_dir dpi pdf_path true
  = ((true, pdf_path, output_path pdf_path output_dir), None,
     [EvLog (LogSkipping (output_path pdf_path output_dir))]).
Proof. reflexivity. Qed.

(** A conversion never raises and touches at most its own output file,
    which it never removes. *)
Lemma process_single_pdf_frame E output_dir dpi pdf_path w :
  exists oc w',
    process_single_pdf E pdf_path output_dir dpi w = (Ok oc, w')
    /\ (forall x, x <> output_path pdf_path output_dir ->
                  files w' !! x = files w !! x)
    /\ (forall x, is_Some (files w !! x) -> is_Some (files w' !! x)).
Proof.
  rewrite process_single_pdf_run.
  destruct (conversion _ _ _ _ _) as [[oc u] ev].
  eexists _, _. split; [reflexivity|]. simpl.
  destruct u as [c|]; simpl; [|easy]. split.
  - intros x Hx. now apply lookup_insert_ne.
  - intros x Hx. rewrite lookup_insert. now case_decide.
Qed.

(** * The batch *)

(** ** Discovery *)

Lemma find_pdfs_entries entries :
  find_pdfs entries = concat (map entry_pdfs entries).
Proof.
  unfold find_pdfs.
  assert (Hin : forall root fs acc,
            foldl (fun pdf_files file =>
                     if is_pdf file
                     then pdf_files ++ [OsPath.join root file]
                     else pdf_files) acc fs
            = acc ++ map (OsPath.join root) (List.filter is_pdf fs)).
  { intros root fs. induction fs as [|f fs IH]; intros acc; simpl.
    - now rewrite app_nil_r.
    - rewrite IH. destruct (is_pdf f) eqn:Hf; [|easy].
      simpl. now rewrite <- app_assoc. }
  assert (Hout : forall l acc,
            foldl (fun pdf_files '(root, _, fs) =>
                     foldl (fun pdf_files file =>
                              if is_pdf file
                              then pdf_files ++ [OsPath.join root file]
                              else pdf_files) pdf_files fs) acc l
            = acc ++ concat (map entry_pdfs l)).
  { induction l as [|[[root ds] fs] l IH]; intros acc; simpl.
    - now rewrite app_nil_r.
    - rewrite IH, Hin. now rewrite <- app_assoc. }
  apply (Hout entries []).
Qed.

(** Induction on a directory tree, with the hypothesis for every
    sub-directory. *)
Lemma dirtree_rect' (P : dirtree -> Prop) :
  (forall fs ds, Forall (fun x => P (snd x)) ds -> P (Dir fs ds)) ->
  forall t, P t.
Proof.
  intros H. fix IH 1. intros [fs ds]. apply H.
  induction ds as [|[d sub] ds IHds]; constructor; [apply IH | exact IHds].
Qed.

Lemma walk_entries t : forall top root ds fs,
  (root, ds, fs) ∈ walk top t ->
  forall file, file ∈ fs -> file_in_tree top t root file.
Proof.
  induction t as [fs0 ds0 IH] using dirtree_rect'.
  intros top root ds fs. simpl. rewrite elem_of_cons. intros [Heq|Hin] file Hf.
  - injection Heq as -> _ ->. now constructor.
  - revert Hin. induction ds0 as [|[d sub] ds0 IHds]; simpl.
    + intros Hin. now apply elem_of_nil in Hin.
    + rewrite elem_of_app. inversion IH as [|? ? Hsub Hrest]; subst.
      intros [Hin|Hin].
      * apply file_below with (d := d) (sub := sub);
          [apply list_elem_of_here|]. now apply (Hsub _ _ _ _ Hin).
      * specialize (IHds Hrest Hin). inversion IHds; subst.
        -- now constructor.
        -- eapply file_below; [apply list_elem_of_further|]; eassumption.
Qed.

Lemma walk_complete top t dir file :
  file_in_tree top t dir file ->
  exists ds fs, (dir, ds, fs) ∈ walk top t /\ file ∈ fs.
Proof.
  induction 1 as [top fs ds file Hf
                 |top fs ds d sub dir file Hd Hin (ds' & fs' & Hw & Hf)].
  - exists (map fst ds), fs. split; [apply list_elem_of_here | exact Hf].
  - exists ds', fs'. split; [|exact Hf]. simpl. apply list_elem_of_further.
    clear Hin. induction ds as [|[d0 sub0] ds IHds].
    + now apply elem_of_nil in Hd.
    + apply elem_of_cons in Hd as [Heq|Hd]; apply elem_of_app.
      * injection Heq as <- <-. now left.
      * right. now apply IHds.
Qed.

(** Discovery returns the joined paths of the files of the tree whose
    lower-cased name ends in [.pdf], and nothing else. *)
Lemma find_pdfs_walk top t x :
  x ∈ find_pdfs (walk top t)
  <-> exists dir file,
        file_in_tree top t dir file
        /\ is_pdf file = true /\ x = OsPath.join dir file.
Proof.
  rewrite find_pdfs_entries, list_elem_of_In, in_concat. split.
  - intros (l & Hl & Hx).
    apply in_map_iff in Hl as ([[root ds] fs] & <- & Hentry).
    simpl in Hx. apply in_map_iff in Hx as (file & <- & Hfile).
    apply filter_In in Hfile as [Hfile Hpdf].
    exists root, file. split; [|easy].
    apply list_elem_of_In in Hentry, Hfile.
    now apply (walk_entries _ _ _ _ _ Hentry).
  - intros (dir & file & Hin & Hpdf & ->).
    destruct (walk_complete _ _ _ _ Hin) as (ds & fs & Hw & Hf).
    apply list_elem_of_In in Hw, Hf.
    exists (entry_pdfs (dir, ds, fs)). split.
    + apply in_map_iff. now exists (dir, ds, fs).
    + simpl. apply in_map_iff. exists file. split; [easy|].
      now apply filter_In.
Qed.

(** ** Folding outcomes into the statistics *)

Lemma record_outcome_run st oc w :
  record_outcome st oc w
  = (Ok (add_outcome st oc), World (files w) (trace w ++ [outcome_event oc])).
Proof. destruct oc as [[[] p] r]; reflexivity. Qed.

Lemma record_exception_run st pdf_path e w :
  record_exception st pdf_path e w
  = (Ok (Stats (total st) (successful st) (failed st + 1)
               (errors st ++ [pdf_path +:+ ": " +:+ exn_msg e])),
     World (files w) (trace w ++ [EvLog (LogException pdf_path (exn_msg e))])).
Proof. reflexivity. Qed.

Lemma add_outcome_counts st oc :
  total (add_outcome st oc) = total st
  /\ successful (add_outcome st oc) + failed (add_outcome st oc)
     = successful st + failed st + 1
  /\ (length (errors st) = failed st ->
      length (errors (add_outcome st oc)) = failed (add_outcome st oc)).
Proof.
  destruct oc as [[[] p] r]; simpl; repeat split; try lia.
  intros H. rewrite length_app. simpl. lia.
Qed.

(** ** The sequential loop *)

Lemma seq_loop_run E output_dir dpi pdf_files : forall st w,
  seq_loop E output_dir dpi pdf_files st w
  = let '(st', F', ev) := seq_run E output_dir dpi pdf_files st (files w) in
    (Ok st', World F' (trace w ++ ev)).
Proof.
  induction pdf_files as [|p rest IH]; intros st w; simpl.
  - unfold ret. rewrite app_nil_r. now destruct w.
  - unfold bind at 1. rewrite process_single_pdf_run.
    destruct (conversion _ _ _ _ _) as [[oc u] ev].
    unfold bind at 1. rewrite record_outcome_run, IH. simpl.
    destruct (seq_run _ _ _ _ _ _) as [[st' F'] ev'].
    now rewrite <- !app_assoc.
Qed.

Lemma seq_run_counts E output_dir dpi pdf_files : forall st F,
  let '(st', _, _) := seq_run E output_dir dpi pdf_files st F in
  total st' = total st
  /\ successful st' + failed st'
     = successful st + failed st + length pdf_files
  /\ (length (errors st) = failed st -> length (errors st') = failed st').
Proof.
  induction pdf_files as [|p rest IH]; intros st F; simpl.
  - repeat split; lia.
  - destruct (conversion _ _ _ _ _) as [[oc u] ev].
    specialize (IH (add_outcome st oc)
                   (set_file (output_path p output_dir) u F)).
    destruct (seq_run _ _ _ _ _ _) as [[st' F'] ev'].
    destruct (add_outcome_counts st oc) as (Ht & Hs & He).
    destruct IH as (Ht' & Hs' & He'). repeat split; try lia; auto.
Qed.

(** ** The worker pool: every scheduling decision is one of five moves *)

Section Pool.
Variable E : env.
Variable output_dir : string.
Variable dpi : Z.
Variable workers : nat.
Hypothesis workers_pos : 0 < workers.

(** How a task step changes the task and the files. *)
Lemma task_step_cases pdf_path s w :
  let o := output_path pdf_path output_dir in
  exists r w' ev,
    task_step E pdf_path output_dir dpi s w = (Ok r, w')
    /\ trace w' = trace w ++ ev
    /\ match s with
       | TStart =>
           files w' = files w
           /\ if present_in (files w) o then
                r = inr (true, pdf_path, o) /\ ev = [EvLog (LogSkipping o)]
              else
                ev = snd (prepare E dpi pdf_path)
                /\ match fst (prepare E dpi pdf_path) with
                   | inl t => r = inl (TOpen t)
                   | inr oc => r = inr oc
                   end
       | TOpen t =>
           match open_fault E o with
           | Some e =>
               r = inr (false, pdf_path, exn_msg e) /\ files w' = files w
               /\ ev = EvOpen o :: failure_events pdf_path e
           | None =>
               r = inl (TWrite t) /\ files w' = <[o := ""]> (files w)
               /\ ev = [EvOpen o]
           end
       | TWrite t =>
           match write_fault E o t with
           | Some (k, e) =>
               r = inr (false, pdf_path, exn_msg e)
               /\ files w'
                  = <[o := overlay (PyStr.slice_to k t)
                                   (default "" (files w !! o))]> (files w)
               /\ ev = EvWrite o t :: failure_events pdf_path e
           | None =>
               r = inr (true, pdf_path, o)
               /\ files w'
                  = <[o := overlay t (default "" (files w !! o))]> (files w)
               /\ ev = [EvWrite o t; EvLog (LogSaved o)]
           end
       end.
Proof.
  intros o. destruct s as [|t|t].
  - rewrite task_step_start. fold o.
    destruct (present_in (files w) o).
    + eexists _, _, _. repeat split.
    + destruct (prepare E dpi pdf_path) as [[t|oc] ev];
        eexists _, _, _; repeat split.
  - rewrite task_step_open. fold o. cbv zeta.
    destruct (open_fault E o) as [e|]; eexists _, _, _; repeat split.
  - rewrite task_step_write. fold o. cbv zeta.
    destruct (write_fault E o t) as [[k e]|]; eexists _, _, _; repeat split.
Qed.

Lemma task_step_weight pdf_path s w s' w' :
  task_step E pdf_path output_dir dpi s w = (Ok (inl s'), w') ->
  task_weight s' < task_weight s.
Proof.
  intros H. destruct (task_step_cases pdf_path s w) as (r & w1 & ev & Hr & _ & Hs).
  rewrite H in Hr. injection Hr as <- <-.
  destruct s as [|t|t].
  - destruct Hs as [_ Hs]. destruct (present_in _ _).
    + now destruct Hs.
    + destruct Hs as [_ Hs].
      destruct (fst (prepare E dpi pdf_path));
        [injection Hs as -> | discriminate]. simpl. lia.
  - destruct (open_fault E _); destruct Hs as [Hs _];
      [discriminate | injection Hs as ->]. simpl. lia.
  - destruct (write_fault E _ _) as [[k e]|]; now destruct Hs.
Qed.

Lemma task_weight_pos s : 2 <= task_weight s.
Proof. destruct s; simpl; lia. Qed.

Lemma running_weight_app l1 l2 :
  running_weight (l1 ++ l2) = running_weight l1 + running_weight l2.
Proof.
  induction l1 as [|[p s] l1 IH]; simpl; [easy | rewrite IH; lia].
Qed.

Lemma pool_trans_measure x y :
  pool_trans E output_dir dpi workers x y ->
  pool_measure (fst y) < pool_measure (fst x).
Proof.
  destruct 1; unfold pool_measure; simpl;
    rewrite ?running_weight_app, ?length_app; simpl.
  - lia.
  - apply task_step_weight in H. lia.
  - pose proof (task_weight_pos s). lia.
  - lia.
  - lia.
Qed.

Lemma pool_measure_done P : pool_measure P = 0 -> pool_done P = true.
Proof.
  destruct P as [q run fin st]. unfold pool_measure, pool_done. simpl.
  destruct q; simpl; [|lia].
  destruct run as [|[p s] run]; simpl;
    [|pose proof (task_weight_pos s); lia].
  destruct fin; simpl; [easy | lia].
Qed.

(** A pool that is not done always has a move, and whatever the choice,
    [pool_step] makes one of the five moves. *)
Lemma pool_step_trans choice P w :
  pool_done P = false ->
  exists P' w',
    pool_step E output_dir dpi workers choice P w = (Ok P', w')
    /\ pool_trans E output_dir dpi workers (P, w) (P', w').
Proof.
  destruct P as [q run fin st]. intros Hdone.
  unfold pool_step, can_start. simpl.
  set (s := if match q with [] => false | _ => length run <? workers end
            then 1 else 0).
  set (n := length run + s + length fin).
  assert (Hn : 0 < n).
  { unfold n, s. destruct run; simpl; [|lia]. destruct fin; simpl; [|lia].
    destruct q; [discriminate|].
    apply Nat.ltb_lt in workers_pos. rewrite workers_pos. lia. }
  assert (Hk : choice mod n < n) by (apply Nat.mod_upper_bound; lia).
  set (k := choice mod n) in *. clearbody k.
  destruct (k <? length run) eqn:Hrun.
  - apply Nat.ltb_lt in Hrun.
    destruct (lookup_lt_is_Some_2 run _ Hrun) as [[p ts] Hp].
    unfold pool_advance. simpl. rewrite Hp.
    destruct (task_step_cases p ts w) as (r & w' & ev & Hr & _ & _).
    rewrite Hr. cbv zeta.
    pose proof (take_drop_middle run _ _ Hp) as Hsplit.
    set (l1 := take k run) in *.
    set (l2 := drop (S k) run) in *.
    clearbody l1 l2. clear Hp Hrun Hk Hn. subst n run.
    destruct r as [ts'|oc]; eexists _, _; (split; [reflexivity|]).
    + now apply pt_step.
    + now apply pt_finish.
  - apply Nat.ltb_ge in Hrun.
    destruct (k <? length run + s) eqn:Hstart.
    + apply Nat.ltb_lt in Hstart. subst n. unfold s in *. clear s.
      destruct q as [|p q]; [simpl in *; lia|].
      destruct (length run <? workers) eqn:Hw; [|simpl in *; lia].
      apply Nat.ltb_lt in Hw.
      eexists _, _. split; [reflexivity|]. now apply pt_start.
    + apply Nat.ltb_ge in Hstart.
      assert (Hj : k - (length run + s) < length fin)
        by (unfold n in Hk; lia).
      destruct (lookup_lt_is_Some_2 fin _ Hj) as [[p fut] Hp].
      unfold pool_collect. simpl. rewrite Hp.
      pose proof (take_drop_middle fin _ _ Hp) as Hsplit.
      set (f1 := take _ fin) in *. set (f2 := drop _ fin) in *.
      clearbody f1 f2. clear Hp Hj Hk Hn Hstart. subst n s fin.
      destruct fut as [oc|e]; unfold bind.
      * rewrite record_outcome_run. eexists _, _.
        split; [reflexivity|]. apply pt_collect.
      * rewrite record_exception_run. eexists _, _.
        split; [reflexivity|]. apply pt_collect_exn.
Qed.

(** Whatever the scheduling decisions, the pool runs to completion within
    its measure, and every property kept by the five moves holds at the
    end. *)
Lemma run_pool_invariant (I : pool * world -> Prop) :
  (forall x y, I x -> pool_trans E output_dir dpi workers x y -> I y) ->
  forall fuel sched P w,
    pool_measure P <= fuel -> I (P, w) ->
    exists P' w',
      run_pool E output_dir dpi workers fuel sched P w = (Ok P', w')
      /\ pool_done P' = true /\ I (P', w').
Proof.
  intros Hkeep. induction fuel as [|fuel IH]; intros sched P w Hm HI.
  - exists P, w. simpl. split; [easy|]. split; [|easy].
    apply pool_measure_done. lia.
  - simpl. destruct (pool_done P) eqn:Hdone.
    + exists P, w. easy.
    + destruct (pool_step_trans (hd 0 sched) P w Hdone)
        as (P1 & w1 & Hstep & Htrans).
      unfold bind. rewrite Hstep.
      apply IH.
      * apply pool_trans_measure in Htrans. simpl in Htrans. lia.
      * now apply (Hkeep _ _ HI).
Qed.

End Pool.

(** ** The batch operation *)

Lemma log_errors_run l : forall w,
  log_errors l w
  = (Ok tt, World (files w)
                  (trace w ++ map (fun error => EvLog (LogErrorItem error)) l)).
Proof.
  induction l as [|a l IH]; intros w; simpl.
  - unfold ret. rewrite app_nil_r. now destruct w.
  - unfold bind, log, emit. simpl. rewrite IH. simpl.
    now rewrite <- app_assoc.
Qed.

Lemma ocr_pdfs_to_text_run sched E input_folder output_folder dpi
    max_workers w :
  open_fault E log_file = None ->
  makedirs_fault E output_folder = None ->
  let docs := find_pdfs (os_walk E input_folder) in
  let found := [EvMakedirs output_folder; EvLog (LogFound (length docs))] in
  ocr_pdfs_to_text sched E input_folder output_folder dpi max_workers w
  = match docs with
    | [] =>
        (Ok (Stats 0 0 0 []),
         World (files w) (trace w ++ found ++ [EvLog LogNoneFound]))
    | _ =>
        match batch_body sched E output_folder dpi max_workers docs
                (Stats (length docs) 0 0 [])
                (World (files w)
                   (trace w ++ found
                    ++ [mode_event max_workers (length docs)])) with
        | (Ok st, w1) =>
            (Ok st,
             World (files w1) (trace w1 ++ summary_events st output_folder))
        | (Raise e, w1) => (Raise e, w1)
        end
    end.
Proof.
  intros Hlog Hmk docs found.
  unfold ocr_pdfs_to_text, setup_ocr_logging, makedirs. fold docs.
  rewrite Hlog, Hmk. unfold bind at 1, ret at 1.
  unfold bind at 1. unfold bind at 1, emit. simpl.
  unfold ret at 1. unfold bind at 1, log, emit. simpl.
  rewrite <- app_assoc. simpl.
  destruct docs as [|p rest] eqn:Hdocs.
  - unfold bind, ret. simpl. now rewrite <- app_assoc.
  - rewrite <- Hdocs. clear Hdocs.
    unfold batch_body, mode_event, summary_events.
    destruct (parallel_mode max_workers).
    + unfold bind, ret, log, emit. simpl. rewrite <- app_assoc. simpl.
      destruct (run_pool _ _ _ _ _ _ _ _) as [[P|e] w1]; [|easy].
      simpl. destruct (errors (pstats P)) as [|a l]; [easy|].
      simpl. unfold bind, log, emit. simpl. rewrite log_errors_run. simpl.
      now rewrite <- !app_assoc.
    + unfold bind, ret, log, emit. simpl. rewrite <- app_assoc. simpl.
      destruct (seq_loop _ _ _ _ _ _) as [[st|e] w1]; [|easy].
      simpl. destruct (errors st) as [|a l]; [easy|].
      simpl. unfold bind, log, emit. simpl. rewrite log_errors_run. simpl.
      now rewrite <- !app_assoc.
Qed.

Lemma parallel_mode_workers max_workers :
  parallel_mode max_workers = true ->
  0 < Z.to_nat (default 0%Z max_workers).
Proof.
  destruct max_workers as [k|]; simpl; [|discriminate].
  intros H. apply andb_true_iff in H as [_ H].
  apply Z.ltb_lt in H. lia.
Qed.

Lemma pool_counts_kept E output_dir dpi workers x y :
  pool_counts (fst x) ->
  pool_trans E output_dir dpi workers x y ->
  pool_counts (fst y).
Proof.
  intros [Hc He].
  destruct 1; unfold pool_counts, exception_stats in *; simpl in *;
    rewrite ?length_app in *; simpl in *.
  - split; [lia | easy].
  - split; [lia | easy].
  - split; [lia | easy].
  - destruct (add_outcome_counts st oc) as (Ht & Hs & Hl).
    split; [lia | auto].
  - split; lia.
Qed.

(** In either mode the dispatch returns statistics, and they add up. *)
Lemma batch_body_complete sched E output_folder dpi max_workers docs w :
  exists st w',
    batch_body sched E output_folder dpi max_workers docs
      (Stats (length docs) 0 0 []) w = (Ok st, w')
    /\ stats_complete (length docs) st.
Proof.
  unfold batch_body. destruct (parallel_mode max_workers) eqn:Hmode.
  - destruct (run_pool_invariant E output_folder dpi
                (Z.to_nat (default 0%Z max_workers))
                (parallel_mode_workers _ Hmode)
                (fun x => pool_counts (fst x)
                          /\ total (pstats (fst x)) = length docs)
                ) with (fuel := 5 * length docs) (sched := sched)
                       (P := Pool docs [] [] (Stats (length docs) 0 0 []))
                       (w := w)
      as (P' & w' & Hrun & Hdone & [Hc He] & Ht).
    + intros x y [Hx Ht] Htr. split.
      * eapply pool_counts_kept; eassumption.
      * rewrite <- Ht. clear -Htr. destruct Htr; try easy.
        destruct oc as [[[] p'] r]; easy.
    + unfold pool_measure. simpl. lia.
    + unfold pool_counts. simpl. split; [split; [lia|easy] | easy].
    + unfold bind. rewrite Hrun. exists (pstats P'), w'.
      split; [easy|]. unfold stats_complete.
      destruct P' as [q run fin st]. simpl in *.
      unfold pool_done in Hdone. simpl in Hdone.
      destruct q; [|discriminate]. destruct run; [|discriminate].
      destruct fin; [|discriminate]. simpl in *. repeat split; lia.
  - rewrite seq_loop_run.
    pose proof (seq_run_counts E output_folder dpi docs
                  (Stats (length docs) 0 0 []) (files w)) as H.
    destruct (seq_run _ _ _ _ _ _) as [[st F'] ev].
    exists st, (World F' (trace w ++ ev)). split; [easy|].
    simpl in H. destruct H as (Ht & Hs & He).
    unfold stats_complete. repeat split; try lia; now apply He.
Qed.

(** ** Names ending in [.pdf], whatever the case *)

Lemma lower_char_dot c : PyStr.lower_char c = "."%char <-> c = "."%char.
Proof.
  split; [|now intros ->].
  destruct c as [[] [] [] [] [] [] [] []]; vm_compute; congruence.
Qed.

Lemma lower_char_p c :
  PyStr.lower_char c = "p"%char <-> c = "p"%char \/ c = "P"%char.
Proof.
  split; [|now intros [->| ->]].
  destruct c as [[] [] [] [] [] [] [] []]; vm_compute; intros H;
    first [discriminate H | now left | now right].
Qed.

Lemma lower_char_d c :
  PyStr.lower_char c = "d"%char <-> c = "d"%char \/ c = "D"%char.
Proof.
  split; [|now intros [->| ->]].
  destruct c as [[] [] [] [] [] [] [] []]; vm_compute; intros H;
    first [discriminate H | now left | now right].
Qed.

Lemma lower_char_f c :
  PyStr.lower_char c = "f"%char <-> c = "f"%char \/ c = "F"%char.
Proof.
  split; [|now intros [->| ->]].
  destruct c as [[] [] [] [] [] [] [] []]; vm_compute; intros H;
    first [discriminate H | now left | now right].
Qed.

Lemma is_pdf_suffix file :
  is_pdf file = true
  <-> exists stem c1 c2 c3,
        file = stem +:+ String "." (String c1 (String c2 (String c3 "")))
        /\ (c1 = "p" \/ c1 = "P")%char
        /\ (c2 = "d" \/ c2 = "D")%char
        /\ (c3 = "f" \/ c3 = "F")%char.
Proof.
  unfold is_pdf. induction file as [|c r IH].
  - split; [discriminate|].
    intros (stem & c1 & c2 & c3 & H & _). now destruct stem.
  - cbn [PyStr.lower PyStr.endswith]. rewrite orb_true_iff, IH. split.
    + intros [H|(stem & c1 & c2 & c3 & -> & H)].
      * apply String.eqb_eq in H.
        destruct r as [|c1 [|c2 [|c3 [|c4 r]]]]; try discriminate.
        cbn in H. injection H as H0 H1 H2 H3.
        apply lower_char_dot in H0 as ->.
        apply lower_char_p in H1. apply lower_char_d in H2.
        apply lower_char_f in H3. now exists "", c1, c2, c3.
      * exists (String c stem), c1, c2, c3. now rewrite append_cons.
    + intros (stem & c1 & c2 & c3 & H & H1 & H2 & H3).
      destruct stem as [|c0 stem].
      * left. rewrite append_nil in H. injection H as -> ->.
        apply lower_char_p in H1. apply lower_char_d in H2.
        apply lower_char_f in H3. cbn. rewrite H1, H2, H3. reflexivity.
      * right. rewrite append_cons in H. injection H as -> ->.
        now exists stem, c1, c2, c3.
Qed.

(** * The claims about the batch *)

(** C3, as stated, fails: the batch operation raises past its boundary
    when the log file cannot be opened. The logging setup of line 144 comes
    first and is outside any [try]: nothing is discovered, no directory is
    created and no statistics are returned, although the output directory
    could have been created and there are documents to convert. *)
Lemma unopenable_log_file_aborts_the_batch :
  makedirs_fault E_log_locked "out" = None
  /\ length (find_pdfs (os_walk E_log_locked "in")) = 4
  /\ ocr_pdfs_to_text [] E_log_locked "in" "out" 300 None w_empty
     = (Raise (Exn "PermissionError" "[Errno 13] Permission denied"),
        w_empty)
  /\ ocr_pdfs_to_text [1; 0] E_log_locked "in" "out" 300 (Some 2%Z) w_empty
     = (Raise (Exn "PermissionError" "[Errno 13] Permission denied"),
        w_empty).
Proof. repeat split. Qed.

(** C3, amended. Unless the log file cannot be opened or the output
    directory cannot be created, the batch operation returns statistics in
    both modes and under every schedule of the worker pool, whatever the
    documents do: [total] is the number of documents discovered,
    [successful + failed = total], and the error list has [failed]
    entries. *)
Theorem batch_statistics_are_complete
    sched E input_folder output_folder dpi max_workers w :
  open_fault E log_file = None ->
  makedirs_fault E output_folder = None ->
  exists st w',
    ocr_pdfs_to_text sched E input_folder output_folder dpi max_workers w
    = (Ok st, w')
    /\ total st = length (find_pdfs (os_walk E input_folder))
    /\ successful st + failed st = total st
    /\ length (errors st) = failed st.
Proof.
  intros Hlog Hmk. rewrite ocr_pdfs_to_text_run by assumption. cbv zeta.
  destruct (find_pdfs (os_walk E input_folder)) as [|p rest] eqn:Hdocs.
  - eexists _, _. split; [reflexivity|]. easy.
  - rewrite <- Hdocs.
    destruct (batch_body_complete sched E output_folder dpi max_workers
                (find_pdfs (os_walk E input_folder))
                (World (files w)
                   (trace w
                    ++ [EvMakedirs output_folder;
                        EvLog (LogFound
                                 (length (find_pdfs (os_walk E input_folder))))]
                    ++ [mode_event max_workers
                          (length (find_pdfs (os_walk E input_folder)))])))
      as (st & w1 & Hrun & Ht & Hs & He).
    rewrite Hrun. eexists _, _. split; [reflexivity|]. easy.
Qed.

Lemma batch_statistics_are_complete_witness :
  exists st w',
    ocr_pdfs_to_text [3; 1; 4; 1; 5; 9; 2; 6] E_demo "in" "out" 300
      (Some 4%Z) w_empty = (Ok st, w')
    /\ total st = 4
    /\ successful st + failed st = total st
    /\ length (errors st) = failed st.
Proof.
  apply (batch_statistics_are_complete [3; 1; 4; 1; 5; 9; 2; 6] E_demo
           "in" "out" 300 (Some 4%Z) w_empty); reflexivity.
Defined.

(** C9. Discovery returns exactly the joined paths of the files of the
    tree under the root whose name ends in [.pdf] in any mix of cases; for
    a root that does not exist or is empty it returns the empty list, and
    the batch operation, once it has opened the log file and created the
    output directory, then returns the zeroed statistics at once: it has
    only logged, and no file changed. *)
Theorem discovery_finds_the_pdf_files E input_folder :
  (forall x,
     x ∈ find_pdfs (os_walk E input_folder)
     <-> exists t dir file stem c1 c2 c3,
           listing E input_folder = Some t
           /\ file_in_tree input_folder t dir file
           /\ file = stem +:+ String "." (String c1 (String c2 (String c3 "")))
           /\ (c1 = "p" \/ c1 = "P")%char
           /\ (c2 = "d" \/ c2 = "D")%char
           /\ (c3 = "f" \/ c3 = "F")%char
           /\ x = OsPath.join dir file)
  /\ (listing E input_folder = None
      \/ listing E input_folder = Some (Dir [] []) ->
      find_pdfs (os_walk E input_folder) = [])
  /\ (forall sched output_folder dpi max_workers w,
        find_pdfs (os_walk E input_folder) = [] ->
        open_fault E log_file = None ->
        makedirs_fault E output_folder = None ->
        ocr_pdfs_to_text sched E input_folder output_folder dpi max_workers w
        = (Ok (Stats 0 0 0 []),
           World (files w)
                 (trace w ++ [EvMakedirs output_folder; EvLog (LogFound 0);
                              EvLog LogNoneFound]))).
Proof.
  split; [|split].
  - intros x. unfold os_walk.
    destruct (listing E input_folder) as [t|].
    + rewrite find_pdfs_walk. split.
      * intros (dir & file & Hin & Hpdf & ->).
        apply is_pdf_suffix in Hpdf
          as (stem & c1 & c2 & c3 & Hf & H1 & H2 & H3).
        exists t, dir, file, stem, c1, c2, c3. easy.
      * intros (t' & dir & file & stem & c1 & c2 & c3
                & [= <-] & Hin & Hf & H1 & H2 & H3 & ->).
        exists dir, file. split; [easy|]. split; [|easy].
        apply is_pdf_suffix. now exists stem, c1, c2, c3.
    + split.
      * intros H. now apply elem_of_nil in H.
      * now intros (t' & dir & file & stem & c1 & c2 & c3 & [=] & _).
  - unfold os_walk. now intros [-> | ->].
  - intros sched output_folder dpi max_workers w Hnone Hlog Hmk.
    rewrite ocr_pdfs_to_text_run by assumption. cbv zeta. now rewrite Hnone.
Qed.

Lemma discovery_finds_the_pdf_files_witness :
  "in/sub/Scan.PDF" ∈ find_pdfs (os_walk E_demo "in")
  /\ find_pdfs (os_walk E_demo "nowhere") = []
  /\ fst (ocr_pdfs_to_text [] E_demo "nowhere" "out" 300 None w_empty)
     = Ok (Stats 0 0 0 []).
Proof.
  destruct (discovery_finds_the_pdf_files E_demo "in") as (Hin & _ & _).
  destruct (discovery_finds_the_pdf_files E_demo "nowhere")
    as (_ & Hnone & Hzero).
  split; [|split].
  - apply Hin.
    exists demo_tree, "in/sub", "Scan.PDF", "Scan", "P"%char, "D"%char,
      "F"%char.
    repeat split; try (now left); try (now right).
    apply file_below with (d := "sub") (sub := Dir ["Scan.PDF"; "zero.pdf"] []).
    + apply list_elem_of_here.
    + apply (file_here "in/sub"). apply list_elem_of_here.
  - apply Hnone. now left.
  - rewrite (Hzero [] "out" 300%Z None w_empty);
      [reflexivity| |reflexivity|reflexivity].
    apply Hnone. now left.
Defined.

(** C10. With a non-empty [dpi_list], [batch_ocr_processing] raises
    [NameError: name 'logger' is not defined] in its first iteration: the
    name is not bound at the top level of the module. Nothing has happened
    by then: no file changed and no event was emitted, so no document was
    processed. *)
Theorem batch_ocr_processing_raises_name_error
    scheds E input_folder output_base_folder dpi_list w :
  dpi_list <> [] ->
  batch_ocr_processing scheds E input_folder output_base_folder dpi_list w
  = (Raise (Exn "NameError" "name 'logger' is not defined"), w).
Proof.
  destruct dpi_list as [|dpi rest]; [easy|]. intros _.
  reflexivity.
Qed.

Lemma batch_ocr_processing_raises_name_error_witness :
  batch_ocr_processing [] E_demo "in" "out" [200; 300; 400]%Z w_empty
  = (Raise (Exn "NameError" "name 'logger' is not defined"), w_empty).
Proof.
  apply (batch_ocr_processing_raises_name_error [] E_demo "in" "out"
           [200; 300; 400]%Z w_empty).
  discriminate.
Defined.

(** * The claims about failures of one document *)

(** C2, as stated, fails: the file is opened and written in place. When
    the disk fills up during the write, the outcome is a failure and the
    first characters of the artifact are left in the output file. *)
Lemma failed_write_leaves_a_partial_file :
  exists w',
    process_single_pdf E_disk_full "in/a.pdf" "out" 300 w_empty
    = (Ok (false, "in/a.pdf", "[Errno 28] No space left on device"), w')
    /\ files w_empty !! "out/a.txt" = None
    /\ files w' !! "out/a.txt" = Some "--- Pa".
Proof.
  eexists. split; [vm_compute; reflexivity|].
  split; vm_compute; reflexivity.
Qed.

(** C2, amended. The artifact is written in place, by [open] followed by
    one [write]. The file is opened only when it was absent and the
    document rasterized to at least one page; no other file is touched; a
    failure leaves every file as it was unless it is the write itself that
    failed, in which case the output file holds the characters written
    before the error; a success that is not a skip leaves the complete
    text passed to [write] in the output file. *)
Theorem artifact_is_written_in_place E output_dir dpi pdf_path w :
  let o := output_path pdf_path output_dir in
  exists oc w' ev,
    process_single_pdf E pdf_path output_dir dpi w = (Ok oc, w')
    /\ trace w' = trace w ++ ev
    /\ (forall x, x <> o -> files w' !! x = files w !! x)
    /\ (EvOpen o ∈ ev ->
        files w !! o = None
        /\ exists img rest,
             convert_from_path E pdf_path dpi = Ok (img :: rest))
    /\ (fst (fst oc) = false ->
        files w' = files w
        \/ exists text k e,
             EvWrite o text ∈ ev
             /\ write_fault E o text = Some (k, e)
             /\ oc = (false, pdf_path, exn_msg e)
             /\ files w' = <[o := PyStr.slice_to k text]> (files w))
    /\ (fst (fst oc) = true -> files w !! o = None ->
        exists text,
          EvWrite o text ∈ ev
          /\ write_fault E o text = None
          /\ files w' = <[o := text]> (files w)).
Proof.
  intros o. rewrite process_single_pdf_run. fold o.
  pose proof (conversion_events E output_dir dpi pdf_path
                (present_in (files w) o)) as Hev.
  unfold conversion in *. fold o in Hev |- *.
  destruct (present_in (files w) o) eqn:Hpres.
  { eexists _, _, _. split; [reflexivity|]. split; [reflexivity|].
    cbn [set_file files fst]. split; [easy|]. split; [|split].
    - intros H. apply list_elem_of_singleton in H. discriminate.
    - now left.
    - intros _ Habs. apply present_in_true in Hpres.
      rewrite Habs in Hpres. now destruct Hpres. }
  apply present_in_false in Hpres.
  destruct (prepare E dpi pdf_path) as [[txt|oc] ev] eqn:Hprep.
  - unfold persist in *. fold o in Hev |- *.
    destruct (open_fault E o) as [e|] eqn:Hopen.
    + eexists _, _, _. split; [reflexivity|]. split; [reflexivity|].
      cbn [set_file files fst]. split; [easy|]. split; [|split].
      * intros H. now destruct (Hev _ H) as (_ & _ & Himg).
      * now left.
      * discriminate.
    + destruct (write_fault E o txt) as [[k e]|] eqn:Hwrite.
      * eexists _, _, _. split; [reflexivity|]. split; [reflexivity|].
        cbn [set_file files fst]. split; [|split; [|split]].
        -- intros x Hx. now apply lookup_insert_ne.
        -- intros H. now destruct (Hev _ H) as (_ & _ & Himg).
        -- intros _. right. exists txt, k, e. repeat split; try easy.
           apply elem_of_app. right. apply list_elem_of_further,
             list_elem_of_here.
        -- discriminate.
      * eexists _, _, _. split; [reflexivity|]. split; [reflexivity|].
        cbn [set_file files fst]. split; [|split; [|split]].
        -- intros x Hx. now apply lookup_insert_ne.
        -- intros H. now destruct (Hev _ H) as (_ & _ & Himg).
        -- discriminate.
        -- intros _ _. exists txt. repeat split; try easy.
           apply elem_of_app. right. apply list_elem_of_further,
             list_elem_of_here.
  - eexists _, _, _. split; [reflexivity|]. split; [reflexivity|].
    cbn [set_file files fst]. split; [easy|]. split; [|split].
    + intros H. now destruct (Hev _ H) as (_ & _ & Himg).
    + now left.
    + intros Hoc _. pose proof (prepare_cases E dpi pdf_path) as Hc.
      rewrite Hprep in Hc. cbn [fst] in Hc.
      destruct (convert_from_path E pdf_path dpi) as [[|img rest]|e];
        try discriminate; injection Hc as ->; discriminate.
Qed.

Lemma artifact_is_written_in_place_witness :
  exists oc w',
    process_single_pdf E_demo "in/a.pdf" "out" 300 w_empty = (Ok oc, w')
    /\ exists text,
         write_fault E_demo "out/a.txt" text = None
         /\ files w' = <[ "out/a.txt" := text ]> (files w_empty).
Proof.
  destruct (artifact_is_written_in_place E_demo "out" 300 "in/a.pdf" w_empty)
    as (oc & w' & ev & Hrun & _ & _ & _ & _ & Hsucc).
  exists oc, w'. split; [exact Hrun|].
  assert (Hoc : fst (fst oc) = true).
  { vm_compute in Hrun. now injection Hrun as <- _. }
  destruct (Hsucc Hoc eq_refl) as (text & _ & Hwf & Hfiles).
  now exists text.
Defined.

(** C6, as stated, fails on the wording of the reason: for a document of
    zero pages the reason starts with a capital letter. *)
Lemma zero_pages_reason_is_capitalised :
  exists reason,
    fst (process_single_pdf E_demo "in/zero.pdf" "out" 300 w_empty)
    = Ok (false, "in/zero.pdf", reason)
    /\ reason = "No images extracted"
    /\ reason <> "no images extracted".
Proof. exists "No images extracted". repeat split. discriminate. Qed.

(** C6, amended. For a document whose output is absent and whose
    rasterization yields no page or raises, the outcome is a failure with
    reason ["No images extracted"] (zero pages) or the message of the error
    (raising), and no file changes. The failure does not stop the batch:
    the sequential loop goes on with the remaining documents, on the same
    files and with the failure recorded; in the worker pool the failed task
    becomes a completed future and the queue and the other tasks are left
    as they were. *)
Theorem rasterization_failure_is_isolated E output_dir dpi pdf_path w :
  files w !! output_path pdf_path output_dir = None ->
  forall reason,
    (convert_from_path E pdf_path dpi = Ok []
     /\ reason = "No images extracted")
    \/ (exists e, convert_from_path E pdf_path dpi = Raise e
                  /\ reason = exn_msg e) ->
    exists w1,
      files w1 = files w
      /\ process_single_pdf E pdf_path output_dir dpi w
         = (Ok (false, pdf_path, reason), w1)
      /\ (forall rest st,
            exists w2,
              files w2 = files w
              /\ seq_loop E output_dir dpi (pdf_path :: rest) st w
                 = seq_loop E output_dir dpi rest
                     (Stats (total st) (successful st) (failed st + 1)
                        (errors st ++ [pdf_path +:+ ": " +:+ reason])) w2)
      /\ (forall i P,
            running P !! i = Some (pdf_path, TStart) ->
            exists w2,
              files w2 = files w
              /\ pool_advance E output_dir dpi i P w
                 = (Ok (Pool (queue P)
                          (take i (running P) ++ drop (S i) (running P))
                          (finished P
                           ++ [(pdf_path, Ok (false, pdf_path, reason))])
                          (pstats P)), w2)).
Proof.
  intros Habs reason Hfail.
  assert (Hprep : exists ev,
            prepare E dpi pdf_path = (inr (false, pdf_path, reason), ev)).
  { unfold prepare. destruct Hfail as [[-> ->]|(e & -> & ->)]; eauto. }
  destruct Hprep as [ev Hprep].
  assert (Hrun : process_single_pdf E pdf_path output_dir dpi w
                 = (Ok (false, pdf_path, reason),
                    World (files w) (trace w ++ ev))).
  { rewrite process_single_pdf_run, (present_in_None _ _ Habs).
    unfold conversion. now rewrite Hprep. }
  eexists. split; [|split; [exact Hrun|split]]; [reflexivity| |].
  - intros rest st. eexists. split; [|simpl; unfold bind at 1].
    2:{ rewrite Hrun. unfold bind at 1. rewrite record_outcome_run.
        reflexivity. }
    reflexivity.
  - intros i P Hi. unfold pool_advance. rewrite Hi.
    rewrite task_step_start, (present_in_None _ _ Habs), Hprep.
    eexists. split; [|reflexivity]. reflexivity.
Qed.

Lemma rasterization_failure_is_isolated_witness :
  exists w1,
    files w1 = files w_empty
    /\ process_single_pdf E_demo "in/bad.pdf" "out" 300 w_empty
       = (Ok (false, "in/bad.pdf", "Unable to get page count."), w1).
Proof.
  destruct (rasterization_failure_is_isolated E_demo "out" 300 "in/bad.pdf"
              w_empty eq_refl "Unable to get page count.")
    as (w1 & Hfiles & Hrun & _).
  - right. eexists. split; reflexivity.
  - now exists w1.
Defined.

(** ** Invariants of the worker pool, document by document *)

Section PoolInvariant.
Variable E : env.
Variable output_dir : string.
Variable dpi : Z.
Variable workers : nat.
Variable docs : list string.
Variable ind : string -> string -> Prop.
Variable Phi : string -> phase -> world -> Prop.
Variable Psi : stats -> list string -> world -> Prop.

(** [ind p q]: a step of the task of [p] cannot disturb document [q]. *)
Hypothesis Hind :
  forall p l, docs ≡ₚ p :: l -> forall q, q ∈ l -> ind p q.
Hypothesis Hstable :
  forall p s w r w' q ph,
    task_step E p output_dir dpi s w = (Ok r, w') ->
    ind p q -> Phi q ph w -> Phi q ph w'.
Hypothesis Hlog :
  forall q ph w ev,
    Phi q ph w -> Phi q ph (World (files w) (trace w ++ [ev])).
Hypothesis Hstart : forall p w, Phi p Queued w -> Phi p (Running TStart) w.
Hypothesis Hstep :
  forall st coll p s w s' w',
    Psi st coll w -> Phi p (Running s) w ->
    task_step E p output_dir dpi s w = (Ok (inl s'), w') ->
    Phi p (Running s') w'.
Hypothesis Hfinish :
  forall st coll p s w oc w',
    Psi st coll w -> Phi p (Running s) w ->
    task_step E p output_dir dpi s w = (Ok (inr oc), w') ->
    Phi p (Finished oc) w'.
Hypothesis Hcollect :
  forall p oc w,
    Phi p (Finished oc) w ->
    Phi p Collected (World (files w) (trace w ++ [outcome_event oc])).
Hypothesis Hpsi_step :
  forall st coll p s w r w',
    Psi st coll w -> Phi p (Running s) w ->
    task_step E p output_dir dpi s w = (Ok r, w') ->
    Psi st coll w'.
Hypothesis Hpsi_collect :
  forall st coll p oc w,
    Psi st coll w -> Phi p (Finished oc) w ->
    Psi (add_outcome st oc) (coll ++ [p])
        (World (files w) (trace w ++ [outcome_event oc])).

Lemma tasks_replace (T T' R : list (string * phase)) p ph ph' w w' :
  T ≡ₚ (p, ph) :: R ->
  T' ≡ₚ (p, ph') :: R ->
  docs ≡ₚ T.*1 ->
  Forall (fun t => Phi (fst t) (snd t) w) T ->
  (forall q phq, ind p q -> Phi q phq w -> Phi q phq w') ->
  (Phi p ph w -> Phi p ph' w') ->
  docs ≡ₚ T'.*1 /\ Forall (fun t => Phi (fst t) (snd t) w') T'.
Proof.
  intros HT HT' Hdocs Hall Hothers Hself.
  rewrite HT in Hdocs, Hall. rewrite HT'.
  split; [exact Hdocs|].
  apply Forall_cons in Hall as [Hp HR]. apply Forall_cons. split.
  - now apply Hself.
  - apply Forall_forall. intros [q phq] Hq.
    rewrite Forall_forall in HR. specialize (HR _ Hq).
    apply Hothers; [|exact HR].
    apply (Hind p (R.*1) Hdocs).
    apply list_elem_of_fmap. now exists (q, phq).
Qed.

Lemma pool_inv_kept x y :
  pool_inv docs Phi Psi x ->
  pool_trans E output_dir dpi workers x y ->
  pool_inv docs Phi Psi y.
Proof.
  intros (coll & Hdocs & Hall & Hfut & Hpsi) Htrans.
  destruct Htrans as [p q run fin st w Hw
                     |q l1 p s l2 fin st w s' w' Hs
                     |q l1 p s l2 fin st w oc w' Hs
                     |q run f1 p oc f2 st w
                     |q run f1 p e f2 st w];
    unfold pool_inv, tasks in *; cbn [fst snd queue running finished pstats] in *.
  - (* a worker takes the next document *)
    exists coll.
    destruct (tasks_replace
                (((fun p => (p, Queued)) <$> p :: q)
                 ++ ((fun x => (fst x, Running (snd x))) <$> run)
                 ++ (future_phase <$> fin)
                 ++ ((fun p => (p, Collected)) <$> coll))
                (((fun p => (p, Queued)) <$> q)
                 ++ ((fun x => (fst x, Running (snd x))) <$> run ++ [(p, TStart)])
                 ++ (future_phase <$> fin)
                 ++ ((fun p => (p, Collected)) <$> coll))
                (((fun p => (p, Queued)) <$> q)
                 ++ ((fun x => (fst x, Running (snd x))) <$> run)
                 ++ (future_phase <$> fin)
                 ++ ((fun p => (p, Collected)) <$> coll))
                p Queued (Running TStart) w w) as [H1 H2]; auto.
    rewrite fmap_app. cbn [fmap list_fmap fst snd].
    rewrite <- !app_assoc. cbn [app].
    now rewrite <- !Permutation_middle, ?app_nil_r.
  - (* a task takes a step and goes on *)
    exists coll.
    destruct (tasks_replace
                (((fun p => (p, Queued)) <$> q)
                 ++ ((fun x => (fst x, Running (snd x))) <$> l1 ++ (p, s) :: l2)
                 ++ (future_phase <$> fin)
                 ++ ((fun p => (p, Collected)) <$> coll))
                (((fun p => (p, Queued)) <$> q)
                 ++ ((fun x => (fst x, Running (snd x))) <$> l1 ++ (p, s') :: l2)
                 ++ (future_phase <$> fin)
                 ++ ((fun p => (p, Collected)) <$> coll))
                (((fun p => (p, Queued)) <$> q)
                 ++ ((fun x => (fst x, Running (snd x))) <$> l1 ++ l2)
                 ++ (future_phase <$> fin)
                 ++ ((fun p => (p, Collected)) <$> coll))
                p (Running s) (Running s') w w') as [H1 H2]; eauto.
    + rewrite !fmap_app, fmap_cons. cbn [fst snd].
      rewrite <- !app_assoc. cbn [app].
      now rewrite <- !Permutation_middle, ?app_nil_r.
    + rewrite !fmap_app, fmap_cons. cbn [fst snd].
      rewrite <- !app_assoc. cbn [app].
      now rewrite <- !Permutation_middle, ?app_nil_r.
    + split; [easy|]. split; [easy|]. split; [easy|].
      assert (Hp : Phi p (Running s) w).
      { rewrite Forall_forall in Hall. apply (Hall (p, Running s)).
        rewrite !elem_of_app. right. left. apply list_elem_of_fmap.
        exists (p, s). split; [easy|].
        rewrite elem_of_app, elem_of_cons. auto. }
      eauto.
  - (* a task completes *)
    exists coll.
    destruct (tasks_replace
                (((fun p => (p, Queued)) <$> q)
                 ++ ((fun x => (fst x, Running (snd x))) <$> l1 ++ (p, s) :: l2)
                 ++ (future_phase <$> fin)
                 ++ ((fun p => (p, Collected)) <$> coll))
                (((fun p => (p, Queued)) <$> q)
                 ++ ((fun x => (fst x, Running (snd x))) <$> l1 ++ l2)
                 ++ (future_phase <$> fin ++ [(p, Ok oc)])
                 ++ ((fun p => (p, Collected)) <$> coll))
                (((fun p => (p, Queued)) <$> q)
                 ++ ((fun x => (fst x, Running (snd x))) <$> l1 ++ l2)
                 ++ (future_phase <$> fin)
                 ++ ((fun p => (p, Collected)) <$> coll))
                p (Running s) (Finished oc) w w') as [H1 H2]; eauto.
    + rewrite !fmap_app, fmap_cons. cbn [fst snd].
      rewrite <- !app_assoc. cbn [app].
      now rewrite <- !Permutation_middle, ?app_nil_r.
    + rewrite !fmap_app. cbn [fmap list_fmap future_phase fst snd].
      rewrite <- !app_assoc. cbn [app].
      now rewrite <- !Permutation_middle, ?app_nil_r.
    + split; [easy|]. split; [easy|]. split.
      * rewrite Forall_app, Forall_singleton. split; [easy|]. now exists oc.
      * assert (Hp : Phi p (Running s) w).
        { rewrite Forall_forall in Hall. apply (Hall (p, Running s)).
          rewrite !elem_of_app. right. left. apply list_elem_of_fmap.
          exists (p, s). split; [easy|].
          rewrite elem_of_app, elem_of_cons. auto. }
        eauto.
  - (* a future is collected *)
    exists (coll ++ [p]).
    assert (Hp : Phi p (Finished oc) w).
    { rewrite Forall_forall in Hall. apply (Hall (p, Finished oc)).
      rewrite !elem_of_app. right. right. left. apply list_elem_of_fmap.
      exists (p, Ok oc). split; [easy|].
      rewrite elem_of_app, elem_of_cons. auto. }
    destruct (tasks_replace
                (((fun p => (p, Queued)) <$> q)
                 ++ ((fun x => (fst x, Running (snd x))) <$> run)
                 ++ (future_phase <$> f1 ++ (p, Ok oc) :: f2)
                 ++ ((fun p => (p, Collected)) <$> coll))
                (((fun p => (p, Queued)) <$> q)
                 ++ ((fun x => (fst x, Running (snd x))) <$> run)
                 ++ (future_phase <$> f1 ++ f2)
                 ++ ((fun p => (p, Collected)) <$> coll ++ [p]))
                (((fun p => (p, Queued)) <$> q)
                 ++ ((fun x => (fst x, Running (snd x))) <$> run)
                 ++ (future_phase <$> f1 ++ f2)
                 ++ ((fun p => (p, Collected)) <$> coll))
                p (Finished oc) Collected w
                (World (files w) (trace w ++ [outcome_event oc])))
      as [H1 H2]; eauto.
    + rewrite !fmap_app, fmap_cons. cbn [future_phase fst snd].
      rewrite <- !app_assoc. cbn [app].
      now rewrite <- !Permutation_middle, ?app_nil_r.
    + rewrite !fmap_app. cbn [fmap list_fmap fst snd].
      rewrite <- !app_assoc. cbn [app].
      now rewrite <- !Permutation_middle, ?app_nil_r.
    + split; [easy|]. split; [easy|]. split; [|eauto].
      apply Forall_app in Hfut as [Hf1 Hf2].
      apply Forall_cons in Hf2 as [_ Hf2]. now rewrite Forall_app.
  - (* no future holds an exception *)
    apply Forall_app in Hfut as [_ Hf]. apply Forall_cons in Hf as [[oc Hoc] _].
    discriminate.
Qed.

(** The pool run from the documents all queued: at the end every document
    has been collected. *)
Lemma run_pool_phases sched st0 w :
  0 < workers ->
  Forall (fun p => Phi p Queued w) docs ->
  Psi st0 [] w ->
  exists P' w' coll,
    run_pool E output_dir dpi workers (5 * length docs) sched
      (Pool docs [] [] st0) w = (Ok P', w')
    /\ docs ≡ₚ coll
    /\ Forall (fun p => Phi p Collected w') coll
    /\ Psi (pstats P') coll w'.
Proof.
  intros Hw Hq Hpsi.
  destruct (run_pool_invariant E output_dir dpi workers Hw
              (pool_inv docs Phi Psi) pool_inv_kept
              (5 * length docs) sched (Pool docs [] [] st0) w)
    as (P' & w' & Hrun & Hdone & coll & Hdocs & Hall & _ & Hpsi').
  - unfold pool_measure. simpl. lia.
  - exists []. unfold tasks. simpl. rewrite !app_nil_r.
    rewrite <- list_fmap_compose. split; [|split; [|split]]; try easy.
    + now rewrite list_fmap_id.
    + apply Forall_fmap. exact Hq.
  - exists P', w', coll. split; [exact Hrun|].
    destruct P' as [q run fin st]. unfold pool_done in Hdone.
    simpl in Hdone. destruct q; [|discriminate].
    destruct run; [|discriminate]. destruct fin; [|discriminate].
    unfold tasks in *. simpl in *.
    rewrite <- list_fmap_compose in Hdocs. rewrite list_fmap_id in Hdocs.
    split; [exact Hdocs|]. split; [|exact Hpsi'].
    now apply Forall_fmap in Hall.
Qed.

End PoolInvariant.

(** ** Statistics do not depend on the order of collection *)

Lemma stats_equiv_refl s : stats_equiv s s.
Proof. unfold stats_equiv. easy. Qed.

Lemma stats_equiv_trans s1 s2 s3 :
  stats_equiv s1 s2 -> stats_equiv s2 s3 -> stats_equiv s1 s3.
Proof.
  intros (H1 & H2 & H3 & H4) (G1 & G2 & G3 & G4).
  unfold stats_equiv. repeat split; try congruence. now rewrite H4.
Qed.

Lemma add_outcome_equiv s1 s2 oc :
  stats_equiv s1 s2 -> stats_equiv (add_outcome s1 oc) (add_outcome s2 oc).
Proof.
  intros (H1 & H2 & H3 & H4). destruct oc as [[[] p] r];
    unfold stats_equiv; simpl; repeat split; try congruence.
  now rewrite H4.
Qed.

Lemma add_outcome_swap s1 s2 a b :
  stats_equiv s1 s2 ->
  stats_equiv (add_outcome (add_outcome s1 a) b)
              (add_outcome (add_outcome s2 b) a).
Proof.
  intros (H1 & H2 & H3 & H4).
  destruct a as [[[] pa] ra]; destruct b as [[[] pb] rb];
    unfold stats_equiv; simpl; repeat split; try lia; try (now rewrite H4).
  rewrite H4, <- !app_assoc. apply Permutation_app_head. simpl.
  apply perm_swap.
Qed.

Lemma foldl_add_outcome_equiv l : forall s1 s2,
  stats_equiv s1 s2 ->
  stats_equiv (foldl add_outcome s1 l) (foldl add_outcome s2 l).
Proof.
  induction l as [|a l IH]; intros s1 s2 H; simpl; [easy|].
  apply IH. now apply add_outcome_equiv.
Qed.

Lemma foldl_add_outcome_perm l1 l2 :
  l1 ≡ₚ l2 ->
  forall s1 s2,
    stats_equiv s1 s2 ->
    stats_equiv (foldl add_outcome s1 l1) (foldl add_outcome s2 l2).
Proof.
  induction 1 as [|a l1 l2 Hp IH|a b l|l1 l2 l3 H12 IH12 H23 IH23];
    intros s1 s2 H; simpl.
  - easy.
  - apply IH. now apply add_outcome_equiv.
  - apply foldl_add_outcome_equiv. now apply add_outcome_swap.
  - eapply stats_equiv_trans.
    + apply IH12. apply stats_equiv_refl.
    + now apply IH23.
Qed.

(** ** A task step touches one file and removes none *)

Lemma task_step_frame E output_dir dpi p s w r w' :
  task_step E p output_dir dpi s w = (Ok r, w') ->
  (forall x, x <> output_path p output_dir -> files w' !! x = files w !! x)
  /\ (forall x, is_Some (files w !! x) -> is_Some (files w' !! x)).
Proof.
  intros H.
  destruct (task_step_cases E output_dir dpi p s w)
    as (r1 & w1 & ev & Hr & _ & Hs).
  rewrite H in Hr. injection Hr as <- <-.
  assert (Hins : forall c,
            files w' = <[output_path p output_dir := c]> (files w) ->
            (forall x, x <> output_path p output_dir ->
                       files w' !! x = files w !! x)
            /\ (forall x, is_Some (files w !! x) -> is_Some (files w' !! x))).
  { intros c ->. split.
    - intros x Hx. now apply lookup_insert_ne.
    - intros x Hx. rewrite lookup_insert. now case_decide. }
  destruct s as [|t|t].
  - destruct Hs as [-> _]. easy.
  - destruct (open_fault E _).
    + destruct Hs as (_ & -> & _). easy.
    + destruct Hs as (_ & Hf & _). eauto.
  - destruct (write_fault E _ _) as [[k e]|]; destruct Hs as (_ & Hf & _); eauto.
Qed.

Lemma present_in_lookup F1 F2 o :
  F1 !! o = F2 !! o -> present_in F1 o = present_in F2 o.
Proof. unfold present_in. now intros ->. Qed.

(** ** The pool when no two documents share an output file *)

Section Equivalence.
Variable E : env.
Variable output_dir : string.
Variable dpi : Z.
Variable F0 : gmap string string.
Variable docs : list string.
Variable st0 : stats.
Hypothesis Hnodup : NoDup ((fun p => output_path p output_dir) <$> docs).

Lemma equiv_ind p l q :
  docs ≡ₚ p :: l -> q ∈ l -> output_path p output_dir <> output_path q output_dir.
Proof.
  intros Hperm Hq Heq. rewrite Hperm in Hnodup.
  rewrite fmap_cons in Hnodup. apply NoDup_cons in Hnodup as [Hnot _].
  apply Hnot. rewrite Heq.
  apply list_elem_of_fmap. now exists q.
Qed.

Lemma equiv_stable p s w r w' q ph :
  task_step E p output_dir dpi s w = (Ok r, w') ->
  output_path p output_dir <> output_path q output_dir ->
  equiv_phase E output_dir dpi F0 docs q ph w ->
  equiv_phase E output_dir dpi F0 docs q ph w'.
Proof.
  intros Hs Hne. apply task_step_frame in Hs as [Hframe _].
  unfold equiv_phase. cbv zeta.
  now rewrite (Hframe (output_path q output_dir))
    by (intros Heq; now apply Hne).
Qed.

Lemma solo_of_prepare p t :
  F0 !! output_path p output_dir = None ->
  fst (prepare E dpi p) = inl t ->
  solo_outcome E output_dir dpi F0 p
  = fst (fst (persist E output_dir p t))
  /\ solo_file E output_dir dpi F0 p
     = snd (fst (persist E output_dir p t)).
Proof.
  intros Habs Hprep. unfold solo_outcome, solo_file, conversion.
  rewrite (present_in_None _ _ Habs).
  destruct (prepare E dpi p) as [pr ev]. cbn [fst] in Hprep. subst pr.
  destruct (persist E output_dir p t) as [[oc u] ev'] eqn:Hpers.
  cbn [fst snd]. split; [easy|].
  destruct u as [c|]; simpl; [now rewrite lookup_insert_eq|].
  unfold persist in Hpers.
  destruct (open_fault E (output_path p output_dir)); [easy|].
  destruct (write_fault E (output_path p output_dir) t) as [[k e]|]; discriminate.
Qed.

Lemma equiv_task_step p s w r w' :
  equiv_phase E output_dir dpi F0 docs p (Running s) w ->
  task_step E p output_dir dpi s w = (Ok r, w') ->
  match r with
  | inl s' => equiv_phase E output_dir dpi F0 docs p (Running s') w'
  | inr oc => equiv_phase E output_dir dpi F0 docs p (Finished oc) w'
  end.
Proof.
  intros [Hdoc Hph] Hs.
  destruct (task_step_cases E output_dir dpi p s w)
    as (r1 & w1 & ev & Hr & _ & Hcase).
  rewrite Hs in Hr. injection Hr as <- <-.
  unfold equiv_phase in *. cbv zeta in *.
  destruct s as [|t|t].
  - destruct Hcase as [Hf Hcase]. rewrite Hf.
    rewrite (present_in_lookup _ _ _ Hph) in Hcase.
    destruct (present_in F0 (output_path p output_dir)) eqn:Hpres.
    + destruct Hcase as [-> _]. split; [easy|].
      unfold solo_outcome, solo_file. rewrite Hpres.
      rewrite conversion_present. simpl. easy.
    + apply present_in_false in Hpres. destruct Hcase as [_ Hcase].
      destruct (fst (prepare E dpi p)) as [t|oc] eqn:Hprep; subst r.
      * split; [easy|]. rewrite Hph. easy.
      * split; [easy|].
        unfold solo_outcome, solo_file, conversion.
        rewrite (present_in_None _ _ Hpres).
        destruct (prepare E dpi p) as [pr ev']. cbn [fst] in Hprep.
        subst pr. cbn [fst snd set_file]. now rewrite Hph.
  - destruct Hph as (Habs & Hv & Hprep).
    destruct (solo_of_prepare p t Habs Hprep) as [Hoc Hfile].
    unfold persist in Hoc, Hfile.
    destruct (open_fault E (output_path p output_dir)) as [e|] eqn:Hopen.
    + destruct Hcase as (-> & -> & _). split; [easy|].
      cbn [fst snd] in Hoc, Hfile. rewrite Hoc, Hfile, Hv. easy.
    + destruct Hcase as (-> & -> & _). split; [easy|].
      rewrite lookup_insert_eq. easy.
  - destruct Hph as (Habs & Hv & Hprep & Hopen).
    destruct (solo_of_prepare p t Habs Hprep) as [Hoc Hfile].
    unfold persist in Hoc, Hfile.
    rewrite Hopen in Hoc, Hfile.
    destruct (write_fault E (output_path p output_dir) t) as [[k e]|];
      rewrite Hv in Hcase; cbn [default] in Hcase;
      rewrite overlay_empty in Hcase;
      destruct Hcase as (-> & -> & _); split; try easy;
      cbn [fst snd] in Hoc, Hfile; rewrite Hoc, Hfile, lookup_insert_eq;
      easy.
Qed.

Lemma run_pool_solo workers sched w :
  0 < workers ->
  files w = F0 ->
  exists P' w',
    run_pool E output_dir dpi workers (5 * length docs) sched
      (Pool docs [] [] st0) w = (Ok P', w')
    /\ stats_equiv (pstats P')
         (foldl add_outcome st0 (solo_outcome E output_dir dpi F0 <$> docs))
    /\ (forall p, p ∈ docs ->
          files w' !! output_path p output_dir = solo_file E output_dir dpi F0 p)
    /\ (forall x, x ∉ (fun p => output_path p output_dir) <$> docs -> files w' !! x = F0 !! x).
Proof.
  intros Hw HF.
  destruct (run_pool_phases E output_dir dpi workers docs
              (fun p q => output_path p output_dir <> output_path q output_dir)
              (equiv_phase E output_dir dpi F0 docs)
              (equiv_global E output_dir dpi F0 docs st0))
    with (sched := sched) (st0 := st0) (w := w)
    as (P' & w' & coll & Hrun & Hperm & Hall & Hst & Hframe); try easy.
  - intros p l Hp q Hq. now apply (equiv_ind p l q).
  - apply equiv_stable.
  - intros st coll p s w1 s' w1' _ Hp Hs.
    apply (equiv_task_step p s w1 (inl s') w1' Hp Hs).
  - intros st coll p s w1 oc w1' _ Hp Hs.
    apply (equiv_task_step p s w1 (inr oc) w1' Hp Hs).
  - intros p oc w1 (Hdoc & _ & Hf). split; easy.
  - intros st coll p s w1 r w1' [Hst Hfr] [Hdoc _] Hs. split; [easy|].
    intros x Hx. apply task_step_frame in Hs as [Hs _].
    rewrite Hs; [now apply Hfr|].
    intros ->. apply Hx. apply list_elem_of_fmap. now exists p.
  - intros st coll p oc w1 [Hst Hfr] (Hdoc & -> & _). split; [|easy].
    rewrite fmap_app, foldl_app. simpl. now rewrite Hst.
  - apply Forall_forall. intros p Hp. split; [easy|]. now rewrite HF.
  - split; [easy|]. intros x _. now rewrite HF.
  - exists P', w'. split; [exact Hrun|]. split; [|split].
    + rewrite Hst. apply foldl_add_outcome_perm; [|apply stats_equiv_refl].
      now rewrite Hperm.
    + intros p Hp. rewrite Hperm in Hp. rewrite Forall_forall in Hall.
      now apply (Hall p Hp).
    + exact Hframe.
Qed.

End Equivalence.

(** ** The sequential loop when no two documents share an output file *)

Lemma seq_run_solo E output_dir dpi F0 docs : forall st F,
  NoDup ((fun p => output_path p output_dir) <$> docs) ->
  (forall p, p ∈ docs ->
     F !! output_path p output_dir = F0 !! output_path p output_dir) ->
  let '(st', F', _) := seq_run E output_dir dpi docs st F in
  st' = foldl add_outcome st (solo_outcome E output_dir dpi F0 <$> docs)
  /\ (forall p, p ∈ docs ->
        F' !! output_path p output_dir = solo_file E output_dir dpi F0 p)
  /\ (forall x, x ∉ (fun p => output_path p output_dir) <$> docs ->
        F' !! x = F !! x).
Proof.
  induction docs as [|p docs IH]; intros st F Hnd Hagree.
  - simpl. split; [easy|]. split; [|easy].
    intros p Hp. now apply elem_of_nil in Hp.
  - cbn [seq_run]. cbv zeta.
    rewrite fmap_cons in Hnd. apply NoDup_cons in Hnd as [Hnot Hnd].
    assert (Hp : F !! output_path p output_dir
                 = F0 !! output_path p output_dir)
      by apply Hagree, list_elem_of_here.
    rewrite (present_in_lookup _ _ _ Hp).
    assert (Hfile : set_file (output_path p output_dir)
                      (snd (fst (conversion E output_dir dpi p
                                   (present_in F0 (output_path p output_dir)))))
                      F !! output_path p output_dir
                    = solo_file E output_dir dpi F0 p).
    { unfold solo_file. cbv zeta.
      destruct (snd (fst (conversion _ _ _ _ _))) as [c|]; simpl;
        [now rewrite !lookup_insert_eq | exact Hp]. }
    destruct (conversion E output_dir dpi p
                (present_in F0 (output_path p output_dir)))
      as [[oc u] ev] eqn:Hconv.
    assert (Hoc : solo_outcome E output_dir dpi F0 p = oc)
      by (unfold solo_outcome; now rewrite Hconv).
    cbn [fst snd] in Hfile.
    assert (Hother : forall x, x <> output_path p output_dir ->
              set_file (output_path p output_dir) u F !! x = F !! x).
    { intros x Hx. destruct u; simpl; [now apply lookup_insert_ne | easy]. }
    specialize (IH (add_outcome st oc)
                   (set_file (output_path p output_dir) u F) Hnd).
    destruct (seq_run E output_dir dpi docs _ _) as [[st' F'] ev'].
    destruct IH as (Hst & Hdocs & Hrest).
    { intros q Hq. rewrite Hother; [apply Hagree; now right|].
      intros Heq. apply Hnot. rewrite <- Heq.
      apply list_elem_of_fmap. now exists q. }
    split; [|split].
    + rewrite fmap_cons. simpl. now rewrite Hoc.
    + intros q Hq. apply elem_of_cons in Hq as [->|Hq]; [|now apply Hdocs].
      rewrite Hrest; [exact Hfile | exact Hnot].
    + intros x Hx. rewrite fmap_cons in Hx.
      apply not_elem_of_cons in Hx as [Hx1 Hx2].
      rewrite Hrest by exact Hx2. now apply Hother.
Qed.

(** Sequential and pooled dispatch agree when no two documents share an
    output file. *)
Lemma batch_body_equivalent sched1 sched2 E output_dir dpi mw1 mw2 docs st0
    w1 w2 :
  NoDup ((fun p => output_path p output_dir) <$> docs) ->
  parallel_mode mw1 = false ->
  parallel_mode mw2 = true ->
  files w1 = files w2 ->
  exists s1 v1 s2 v2,
    batch_body sched1 E output_dir dpi mw1 docs st0 w1 = (Ok s1, v1)
    /\ batch_body sched2 E output_dir dpi mw2 docs st0 w2 = (Ok s2, v2)
    /\ stats_equiv s2 s1
    /\ files v2 = files v1.
Proof.
  intros Hnd Hm1 Hm2 HF. unfold batch_body. rewrite Hm1, Hm2.
  rewrite seq_loop_run.
  pose proof (seq_run_solo E output_dir dpi (files w1) docs st0 (files w1)
                Hnd (fun p _ => eq_refl)) as Hseq.
  destruct (seq_run E output_dir dpi docs st0 (files w1))
    as [[s1 F1] ev1].
  destruct Hseq as (Hs1 & Hdocs1 & Hrest1).
  destruct (run_pool_solo E output_dir dpi (files w1) docs st0 Hnd
              (Z.to_nat (default 0%Z mw2)) sched2 w2
              (parallel_mode_workers _ Hm2) (eq_sym HF))
    as (P' & v2 & Hrun & Hs2 & Hdocs2 & Hrest2).
  unfold bind. rewrite Hrun.
  eexists _, _, _, _. split; [reflexivity|]. split; [reflexivity|].
  split; [now rewrite Hs1|]. simpl.
  apply map_eq. intros x.
  destruct (decide (x ∈ (fun p => output_path p output_dir) <$> docs))
    as [Hx|Hx].
  - apply list_elem_of_fmap in Hx as (p & -> & Hp).
    now rewrite Hdocs1, Hdocs2.
  - now rewrite Hrest1, Hrest2.
Qed.

(** * The claim about concurrency *)

(** C8, as stated, fails: two documents with the same base name in
    different directories share one output file. Sequentially the second
    is skipped because the first has written the file; in the pool the
    second can test for the file before the first writes it, and then its
    own rasterization error is reported. The statistics differ. *)
Lemma same_name_documents_break_equivalence :
  find_pdfs (os_walk E_clash "in") = ["in/a/x.pdf"; "in/b/x.pdf"]
  /\ output_path "in/a/x.pdf" "out" = output_path "in/b/x.pdf" "out"
  /\ fst (ocr_pdfs_to_text [] E_clash "in" "out" 300 None w_empty)
     = Ok (Stats 2 2 0 [])
  /\ fst (ocr_pdfs_to_text [0; 1; 1; 0; 0; 0; 0; 0] E_clash "in" "out" 300
            (Some 4%Z) w_empty)
     = Ok (Stats 2 1 1 ["in/b/x.pdf: Unable to get page count."]).
Proof. repeat split; vm_compute; reflexivity. Qed.

(** C8, amended. The sequential mode is selected exactly when
    [max_workers] is unset or at most 1, and then neither its value nor the
    schedule matters. When no two discovered documents share an output
    file, a run with a worker pool, under every schedule, and the
    sequential run return the same counts, the same errors up to their
    order, and leave the same files. That is for runs that open the log
    file and create the output directory; when either fails, the two runs
    raise alike. *)
Theorem concurrency_equivalence_for_distinct_outputs :
  (forall max_workers,
     parallel_mode max_workers = false
     <-> max_workers = None
         \/ exists k, max_workers = Some k /\ (k <= 1)%Z)
  /\ (forall sched E input_folder output_folder dpi max_workers w,
        parallel_mode max_workers = false ->
        ocr_pdfs_to_text sched E input_folder output_folder dpi max_workers w
        = ocr_pdfs_to_text [] E input_folder output_folder dpi None w)
  /\ (forall sched E input_folder output_folder dpi max_workers w,
        parallel_mode max_workers = true ->
        open_fault E log_file = None ->
        makedirs_fault E output_folder = None ->
        NoDup ((fun p => output_path p output_folder)
               <$> find_pdfs (os_walk E input_folder)) ->
        exists s1 v1 s2 v2,
          ocr_pdfs_to_text [] E input_folder output_folder dpi None w
          = (Ok s1, v1)
          /\ ocr_pdfs_to_text sched E input_folder output_folder dpi
               max_workers w = (Ok s2, v2)
          /\ total s2 = total s1
          /\ successful s2 = successful s1
          /\ failed s2 = failed s1
          /\ errors s2 ≡ₚ errors s1
          /\ files v2 = files v1)
  /\ (forall sched E input_folder output_folder dpi max_workers w,
        open_fault E log_file <> None
        \/ makedirs_fault E output_folder <> None ->
        ocr_pdfs_to_text sched E input_folder output_folder dpi max_workers w
        = ocr_pdfs_to_text [] E input_folder output_folder dpi None w).
Proof.
  split; [|split; [|split]]; cycle 3.
  { intros sched E input_folder output_folder dpi max_workers w H.
    unfold ocr_pdfs_to_text, setup_ocr_logging, makedirs.
    destruct (open_fault E log_file); [reflexivity|].
    destruct (makedirs_fault E output_folder); [reflexivity|].
    now destruct H. }
  - intros [k|]; simpl.
    + rewrite andb_false_iff, negb_false_iff, Z.eqb_eq, Z.ltb_ge. split.
      * intros H. right. exists k. split; [easy|]. lia.
      * intros [H|(k' & [= <-] & H)]; [discriminate|].
        right. lia.
    + split; [now left | easy].
  - intros sched E input_folder output_folder dpi max_workers w Hmode.
    unfold ocr_pdfs_to_text. now rewrite Hmode.
  - intros sched E input_folder output_folder dpi max_workers w Hmode Hlog
           Hmk Hnd.
    rewrite !ocr_pdfs_to_text_run by assumption. cbv zeta.
    destruct (find_pdfs (os_walk E input_folder)) as [|p rest] eqn:Hdocs.
    { eexists _, _, _, _. split; [reflexivity|]. split; [reflexivity|].
      easy. }
    rewrite <- Hdocs in *. clear Hdocs.
    match goal with
    | |- context [batch_body [] E output_folder dpi None ?d ?st ?wa] =>
        match goal with
        | |- context [batch_body sched E output_folder dpi max_workers d st ?wb] =>
            destruct (batch_body_equivalent [] sched E output_folder dpi
                        None max_workers d st wa wb Hnd eq_refl Hmode eq_refl)
              as (s1 & v1 & s2 & v2 & H1 & H2 & (Ht & Hs & Hf & He) & HF)
        end
    end.
    rewrite H1, H2.
    eexists _, _, _, _. split; [reflexivity|]. split; [reflexivity|].
    easy.
Qed.

Lemma concurrency_equivalence_for_distinct_outputs_witness :
  exists s1 v1 s2 v2,
    ocr_pdfs_to_text [] E_demo "in" "out" 300 None w_empty = (Ok s1, v1)
    /\ ocr_pdfs_to_text [2; 7; 1; 8; 2; 8] E_demo "in" "out" 300
         (Some 4%Z) w_empty = (Ok s2, v2)
    /\ total s2 = total s1
    /\ successful s2 = successful s1
    /\ failed s2 = failed s1
    /\ errors s2 ≡ₚ errors s1
    /\ files v2 = files v1.
Proof.
  destruct concurrency_equivalence_for_distinct_outputs as (_ & _ & H & _).
  apply (H [2; 7; 1; 8; 2; 8] E_demo "in" "out" 300%Z (Some 4%Z) w_empty).
  - reflexivity.
  - reflexivity.
  - reflexivity.
  - apply NoDup_ListNoDup. vm_compute.
    repeat (constructor; [simpl; intuition discriminate|]). constructor.
Defined.

(** ** What a conversion and a task step can emit and return *)

Lemma prepare_events E output_dir dpi p e :
  e ∈ snd (prepare E dpi p) ->
  conversion_event E output_dir dpi p false e.
Proof.
  intros H. apply conversion_events. unfold conversion.
  destruct (prepare E dpi p) as [[t|oc] ev]; cbn [snd] in *; [|exact H].
  destruct (persist E output_dir p t) as [[oc u] ev'].
  cbn [snd]. apply elem_of_app. now left.
Qed.

Lemma task_step_events E output_dir dpi p s w r w' :
  task_step E p output_dir dpi s w = (Ok r, w') ->
  exists ev,
    trace w' = trace w ++ ev
    /\ forall e, e ∈ ev -> task_event E output_dir dpi p s w e.
Proof.
  intros H.
  destruct (task_step_cases E output_dir dpi p s w)
    as (r1 & w1 & ev & Hr & Htr & Hs).
  rewrite H in Hr. injection Hr as <- <-.
  exists ev. split; [exact Htr|]. intros e He.
  destruct s as [|t|t].
  - destruct Hs as [_ Hs].
    destruct (present_in (files w) (output_path p output_dir)) eqn:Hpres.
    + destruct Hs as [_ ->]. apply list_elem_of_singleton in He. subst e.
      simpl. now rewrite Hpres.
    + destruct Hs as [-> _].
      apply (prepare_events E output_dir) in He.
      destruct e as [| | | | |[]]; simpl in *; easy.
  - unfold failure_events in Hs.
    destruct (open_fault E _); destruct Hs as (_ & _ & ->);
      repeat (apply elem_of_cons in He as [->|He]; [easy|]);
      now apply elem_of_nil in He.
  - unfold failure_events in Hs.
    destruct (write_fault E _ _) as [[k e0]|]; destruct Hs as (_ & _ & ->);
      repeat (apply elem_of_cons in He as [->|He]; [easy|]);
      now apply elem_of_nil in He.
Qed.

(** A conversion reports the document it was given; when it reports
    success the output file was present or has been written. *)
Lemma conversion_outcome E output_dir dpi p present :
  let '(oc, u, _) := conversion E output_dir dpi p present in
  snd (fst oc) = p
  /\ (fst (fst oc) = true -> present = true \/ is_Some u)
  /\ (present = true -> u = None).
Proof.
  unfold conversion. destruct present; [simpl; auto|].
  pose proof (prepare_cases E dpi p) as Hc.
  destruct (prepare E dpi p) as [[t|oc] ev]; cbn [fst] in Hc.
  - unfold persist. destruct (open_fault E _); [simpl; split; easy|].
    destruct (write_fault E _ _) as [[k e]|]; simpl; split; try easy.
    split; [|easy]. intros _. right. eauto.
  - destruct (convert_from_path E p dpi) as [[|img rest]|e];
      try discriminate; injection Hc as ->; simpl; split; easy.
Qed.

(** ** Resuming: the first run settles every document *)

Lemma settled_mono E output_dir dpi F F' p :
  (forall x, is_Some (F !! x) -> is_Some (F' !! x)) ->
  settled E output_dir dpi F p -> settled E output_dir dpi F' p.
Proof. intros Hm [H|H]; [left; auto | now right]. Qed.

Lemma clean_of_prepare_inr E output_dir dpi p oc :
  fst (prepare E dpi p) = inr oc ->
  clean E output_dir dpi p /\ fst (fst oc) = false.
Proof.
  intros H. unfold clean, conversion.
  pose proof (prepare_cases E dpi p) as Hc. rewrite H in Hc.
  destruct (prepare E dpi p) as [pr ev]. cbn [fst] in H. subst pr.
  split; [easy|].
  destruct (convert_from_path E p dpi) as [[|img rest]|e];
    try discriminate; now injection Hc as ->.
Qed.

Lemma clean_of_prepare_inl E output_dir dpi p t :
  fst (prepare E dpi p) = inl t ->
  clean E output_dir dpi p
  <-> is_Some (open_fault E (output_path p output_dir)).
Proof.
  intros H. unfold clean, conversion.
  destruct (prepare E dpi p) as [pr ev]. cbn [fst] in H. subst pr.
  unfold persist. destruct (open_fault E _) as [e|].
  - simpl. split; eauto.
  - destruct (write_fault E _ _) as [[k e]|]; simpl;
      (split; [discriminate | now intros [x Hx]]).
Qed.

Section Resume.
Variable E : env.
Variable output_dir : string.
Variable dpi : Z.
Variable docs : list string.

Lemma first_phase_mono q ph w w' :
  (forall x, is_Some (files w !! x) -> is_Some (files w' !! x)) ->
  first_phase E output_dir dpi docs q ph w ->
  first_phase E output_dir dpi docs q ph w'.
Proof.
  intros Hm [Hdoc Hph]. split; [exact Hdoc|].
  destruct ph as [|[|t|t]|oc|]; try easy.
  - now apply Hm.
  - destruct Hph as [Hs Hoc]. split.
    + now apply (settled_mono _ _ _ _ _ _ Hm).
    + intros Ht. destruct (Hoc Ht). split; [easy|]. now apply Hm.
  - now apply (settled_mono _ _ _ _ _ _ Hm).
Qed.

Lemma first_task_step p s w r w' :
  first_phase E output_dir dpi docs p (Running s) w ->
  task_step E p output_dir dpi s w = (Ok r, w') ->
  match r with
  | inl s' => first_phase E output_dir dpi docs p (Running s') w'
  | inr oc => first_phase E output_dir dpi docs p (Finished oc) w'
  end.
Proof.
  intros [Hdoc Hph] Hs.
  destruct (task_step_cases E output_dir dpi p s w)
    as (r1 & w1 & ev & Hr & _ & Hcase).
  rewrite Hs in Hr. injection Hr as <- <-.
  unfold first_phase. cbv zeta in *.
  destruct s as [|t|t].
  - destruct Hcase as [Hf Hcase]. rewrite Hf.
    destruct (present_in (files w) (output_path p output_dir)) eqn:Hpres.
    + destruct Hcase as [-> _]. apply present_in_true in Hpres.
      split; [easy|]. split; [now left | easy].
    + destruct Hcase as [_ Hcase].
      destruct (fst (prepare E dpi p)) as [t|oc] eqn:Hprep; subst r.
      * easy.
      * destruct (clean_of_prepare_inr E output_dir dpi p oc Hprep)
          as [Hclean Hfail].
        split; [easy|]. split; [now right|]. now rewrite Hfail.
  - destruct (open_fault E (output_path p output_dir)) as [e|] eqn:Hopen.
    + destruct Hcase as (-> & -> & _). split; [easy|]. split; [|easy].
      right. apply (clean_of_prepare_inl E output_dir dpi p t Hph).
      rewrite Hopen. eauto.
    + destruct Hcase as (-> & -> & _). split; [easy|].
      rewrite lookup_insert_eq. eauto.
  - assert (Hsome : forall c,
              is_Some (<[output_path p output_dir := c]> (files w)
                       !! output_path p output_dir))
      by (intros c; rewrite lookup_insert_eq; eauto).
    destruct (write_fault E _ _) as [[k e]|];
      destruct Hcase as (-> & -> & _); split; try easy;
      (split; [now left | easy]).
Qed.

Lemma run_pool_first workers sched st0 w :
  0 < workers ->
  exists P' w',
    run_pool E output_dir dpi workers (5 * length docs) sched
      (Pool docs [] [] st0) w = (Ok P', w')
    /\ (forall p, p ∈ docs -> settled E output_dir dpi (files w') p)
    /\ exists delta,
         trace w' = trace w ++ delta
         /\ forall p, EvLog (LogSuccess p) ∈ delta ->
              p ∈ docs /\ is_Some (files w' !! output_path p output_dir).
Proof.
  intros Hw.
  destruct (run_pool_phases E output_dir dpi workers docs
              (fun _ _ => True)
              (first_phase E output_dir dpi docs)
              (first_global output_dir docs (trace w)))
    with (sched := sched) (st0 := st0) (w := w)
    as (P' & w' & coll & Hrun & Hperm & Hall & Hglobal); try easy.
  - intros p s w1 r w1' q ph Hs _.
    apply first_phase_mono. now apply (task_step_frame _ _ _ _ _ _ _ _ Hs).
  - intros st coll p s w1 s' w1' _ Hp Hs.
    apply (first_task_step p s w1 (inl s') w1' Hp Hs).
  - intros st coll p s w1 oc w1' _ Hp Hs.
    apply (first_task_step p s w1 (inr oc) w1' Hp Hs).
  - intros p oc w1 (Hdoc & Hs & _). split; easy.
  - intros st coll p s w1 r w1' (delta & Htr & Hdelta) _ Hs.
    destruct (task_step_events _ _ _ _ _ _ _ _ Hs) as (ev & Hev & Hkind).
    apply task_step_frame in Hs as [_ Hmono].
    exists (delta ++ ev). split; [now rewrite Hev, Htr, app_assoc|].
    intros q Hq. apply elem_of_app in Hq as [Hq|Hq].
    + destruct (Hdelta q Hq). split; [easy|]. now apply Hmono.
    + now apply Hkind in Hq.
  - intros st coll p oc w1 (delta & Htr & Hdelta) (Hdoc & _ & Hoc).
    exists (delta ++ [outcome_event oc]). simpl.
    split; [now rewrite Htr, app_assoc|].
    intros q Hq. apply elem_of_app in Hq as [Hq|Hq]; [now apply Hdelta|].
    apply list_elem_of_singleton in Hq.
    destruct oc as [[[] p'] r]; simpl in Hq; [|discriminate].
    injection Hq as ->. destruct (Hoc eq_refl) as [Hp Hsome].
    simpl in Hp. now subst p'.
  - apply Forall_forall. intros p Hp. split; easy.
  - exists []. now rewrite app_nil_r.
  - exists P', w'. split; [exact Hrun|]. split.
    + intros p Hp. rewrite Hperm in Hp. rewrite Forall_forall in Hall.
      now apply (Hall p Hp).
    + exact Hglobal.
Qed.

Lemma seq_run_first pdf_files : forall st F,
  (forall p, p ∈ pdf_files -> p ∈ docs) ->
  let '(_, F', ev) := seq_run E output_dir dpi pdf_files st F in
  (forall x, is_Some (F !! x) -> is_Some (F' !! x))
  /\ (forall p, p ∈ pdf_files -> settled E output_dir dpi F' p)
  /\ (forall p, EvLog (LogSuccess p) ∈ ev ->
        p ∈ docs /\ is_Some (F' !! output_path p output_dir)).
Proof.
  induction pdf_files as [|p rest IH]; intros st F Hsub.
  - simpl. split; [easy|]. split; intros p Hp; now apply elem_of_nil in Hp.
  - cbn [seq_run]. cbv zeta.
    pose proof (conversion_outcome E output_dir dpi p
                  (present_in F (output_path p output_dir))) as Hout.
    pose proof (conversion_events E output_dir dpi p
                  (present_in F (output_path p output_dir))) as Hev.
    assert (Hclean : present_in F (output_path p output_dir) = false ->
              snd (fst (conversion E output_dir dpi p
                          (present_in F (output_path p output_dir)))) = None ->
              clean E output_dir dpi p).
    { intros ->. easy. }
    destruct (conversion E output_dir dpi p
                (present_in F (output_path p output_dir)))
      as [[oc u] ev]. cbn [fst snd] in *.
    destruct Hout as (Hpath & Hsucc & Hskip).
    specialize (IH (add_outcome st oc)
                   (set_file (output_path p output_dir) u F)).
    destruct (seq_run E output_dir dpi rest _ _) as [[st' F'] ev'].
    destruct IH as (Hmono & Hsettled & Hlog).
    { intros q Hq. apply Hsub. now right. }
    assert (Hstep : forall x, is_Some (F !! x) ->
              is_Some (set_file (output_path p output_dir) u F !! x)).
    { intros x Hx. destruct u; simpl; [|easy].
      rewrite lookup_insert. now case_decide. }
    assert (Hown : present_in F (output_path p output_dir) = true
                   \/ is_Some u ->
              is_Some (set_file (output_path p output_dir) u F
                       !! output_path p output_dir)).
    { intros [Hp|[c ->]].
      - apply Hstep. now apply present_in_true.
      - simpl. rewrite lookup_insert_eq. eauto. }
    split; [|split].
    + intros x Hx. now apply Hmono, Hstep.
    + intros q Hq. apply elem_of_cons in Hq as [->|Hq]; [|now apply Hsettled].
      apply (settled_mono _ _ _ _ _ _ Hmono).
      destruct (present_in F (output_path p output_dir)) eqn:Hpres.
      * left. apply Hown. now left.
      * destruct u as [c|]; [left; apply Hown; right; eauto|].
        right. now apply Hclean.
    + intros q Hq. apply elem_of_app in Hq as [Hq|Hq].
      * now apply Hev in Hq.
      * apply elem_of_cons in Hq as [Hq|Hq]; [|now apply Hlog].
        destruct oc as [[[] p'] r]; simpl in Hq; [|discriminate].
        injection Hq as ->. simpl in Hpath. subst p'. split.
        -- apply Hsub. now left.
        -- apply Hmono, Hown. now apply Hsucc.
Qed.

End Resume.

(** ** Resuming: the second run changes nothing *)

Section SecondRun.
Variable E : env.
Variable output_dir : string.
Variable dpi : Z.
Variable docs : list string.
Variable F1 : gmap string string.
Hypothesis Hsettled : forall p, p ∈ docs -> settled E output_dir dpi F1 p.

Lemma settled_open p t :
  p ∈ docs ->
  F1 !! output_path p output_dir = None ->
  fst (prepare E dpi p) = inl t ->
  is_Some (open_fault E (output_path p output_dir)).
Proof.
  intros Hdoc Habs Hprep. destruct (Hsettled p Hdoc) as [Hs|Hc].
  - rewrite Habs in Hs. now destruct Hs.
  - now apply (clean_of_prepare_inl E output_dir dpi p t Hprep).
Qed.

Lemma second_files p s w r w' tr0 :
  files w = F1 ->
  second_phase E output_dir dpi docs F1 tr0 p (Running s) w ->
  task_step E p output_dir dpi s w = (Ok r, w') ->
  files w' = F1.
Proof.
  intros HF [Hdoc Hph] Hs.
  destruct (task_step_cases E output_dir dpi p s w)
    as (r1 & w1 & ev & Hr & _ & Hcase).
  rewrite Hs in Hr. injection Hr as <- <-.
  destruct s as [|t|t]; [| |easy].
  - destruct Hcase as [-> _]. exact HF.
  - destruct Hph as [Habs Hprep].
    destruct (settled_open p t Hdoc Habs Hprep) as [e He].
    rewrite He in Hcase. destruct Hcase as (_ & -> & _). exact HF.
Qed.

Lemma second_task_step tr0 delta p s w r w' :
  files w = F1 ->
  trace w = tr0 ++ delta ->
  second_phase E output_dir dpi docs F1 tr0 p (Running s) w ->
  task_step E p output_dir dpi s w = (Ok r, w') ->
  match r with
  | inl s' => second_phase E output_dir dpi docs F1 tr0 p (Running s') w'
  | inr oc => second_phase E output_dir dpi docs F1 tr0 p (Finished oc) w'
  end.
Proof.
  intros HF Htr [Hdoc Hph] Hs.
  destruct (task_step_cases E output_dir dpi p s w)
    as (r1 & w1 & ev & Hr & Hev & Hcase).
  rewrite Hs in Hr. injection Hr as <- <-.
  unfold second_phase. cbv zeta in *.
  destruct s as [|t|t]; [| |easy].
  - destruct Hcase as [_ Hcase]. rewrite HF in Hcase.
    destruct (present_in F1 (output_path p output_dir)) eqn:Hpres.
    + destruct Hcase as [-> ->]. split; [easy|]. intros _.
      exists (delta ++ [EvLog (LogSkipping (output_path p output_dir))]).
      split; [now rewrite Hev, Htr, app_assoc|].
      apply elem_of_app. right. apply list_elem_of_here.
    + apply present_in_false in Hpres. destruct Hcase as [_ Hcase].
      destruct (fst (prepare E dpi p)) as [t|oc] eqn:Hprep; subst r.
      * easy.
      * split; [easy|]. rewrite Hpres. now intros [x Hx].
  - destruct Hph as [Habs Hprep].
    destruct (settled_open p t Hdoc Habs Hprep) as [e He].
    rewrite He in Hcase. destruct Hcase as (-> & _ & _).
    split; [easy|]. rewrite Habs. now intros [x Hx].
Qed.

Lemma second_phase_extend tr0 q ph w w' ev :
  trace w' = trace w ++ ev ->
  second_phase E output_dir dpi docs F1 tr0 q ph w ->
  second_phase E output_dir dpi docs F1 tr0 q ph w'.
Proof.
  intros Hev [Hdoc Hph]. split; [exact Hdoc|].
  destruct ph as [|[|t|t]|oc|]; try easy;
    (intros Hs; destruct (Hph Hs) as (delta & Htr & Hin);
     exists (delta ++ ev); split; [now rewrite Hev, Htr, app_assoc|];
     apply elem_of_app; now left).
Qed.

Lemma run_pool_second workers sched st0 w :
  0 < workers ->
  files w = F1 ->
  exists P' w',
    run_pool E output_dir dpi workers (5 * length docs) sched
      (Pool docs [] [] st0) w = (Ok P', w')
    /\ files w' = F1
    /\ exists delta,
         trace w' = trace w ++ delta
         /\ (forall p, p ∈ docs ->
               is_Some (F1 !! output_path p output_dir) ->
               EvLog (LogSkipping (output_path p output_dir)) ∈ delta)
         /\ (forall q d, EvRasterize q d ∈ delta ->
               F1 !! output_path q output_dir = None).
Proof.
  intros Hw HF.
  destruct (run_pool_phases E output_dir dpi workers docs
              (fun _ _ => True)
              (second_phase E output_dir dpi docs F1 (trace w))
              (second_global output_dir F1 (trace w)))
    with (sched := sched) (st0 := st0) (w := w)
    as (P' & w' & coll & Hrun & Hperm & Hall & HF' & delta & Htr & Hras);
    try easy.
  - intros p s w1 r w1' q ph Hs _.
    destruct (task_step_events _ _ _ _ _ _ _ _ Hs) as (ev & Hev & _).
    now apply second_phase_extend with (ev := ev).
  - intros q ph w1 ev. now apply second_phase_extend with (ev := [ev]).
  - intros st coll p s w1 s' w1' [HF1 (delta & Htr & _)] Hp Hs.
    apply (second_task_step (trace w) delta p s w1 (inl s') w1' HF1 Htr Hp Hs).
  - intros st coll p s w1 oc w1' [HF1 (delta & Htr & _)] Hp Hs.
    apply (second_task_step (trace w) delta p s w1 (inr oc) w1' HF1 Htr Hp Hs).
  - intros p oc w1 [Hdoc Hph].
    apply second_phase_extend with (w := w1) (ev := [outcome_event oc]);
      [easy|]. split; easy.
  - intros st coll p s w1 r w1' [HF1 (delta & Htr & Hras)] Hp Hs.
    split; [now apply (second_files p s w1 r w1' (trace w))|].
    destruct (task_step_events _ _ _ _ _ _ _ _ Hs) as (ev & Hev & Hkind).
    exists (delta ++ ev). split; [now rewrite Hev, Htr, app_assoc|].
    intros q d Hq. apply elem_of_app in Hq as [Hq|Hq]; [now apply (Hras q d)|].
    apply Hkind in Hq. destruct Hq as (-> & _ & Hpres).
    rewrite HF1 in Hpres. now apply present_in_false.
  - intros st coll p oc w1 [HF1 (delta & Htr & Hras)] _.
    split; [easy|]. exists (delta ++ [outcome_event oc]). simpl.
    split; [now rewrite Htr, app_assoc|].
    intros q d Hq. apply elem_of_app in Hq as [Hq|Hq]; [now apply (Hras q d)|].
    apply list_elem_of_singleton in Hq. now destruct oc as [[[] p'] r'].
  - apply Forall_forall. intros p Hp. split; easy.
  - split; [easy|]. exists []. now rewrite app_nil_r.
  - exists P', w'. split; [exact Hrun|]. split; [exact HF'|].
    exists delta. split; [exact Htr|]. split; [|exact Hras].
    intros p Hp Hsome. rewrite Hperm in Hp. rewrite Forall_forall in Hall.
    destruct (Hall p Hp) as [_ Hlog].
    destruct (Hlog Hsome) as (delta' & Htr' & Hin).
    rewrite Htr in Htr'. apply app_inv_head in Htr'. now subst delta'.
Qed.

Lemma seq_run_second pdf_files : forall st,
  (forall p, p ∈ pdf_files -> p ∈ docs) ->
  let '(_, F', ev) := seq_run E output_dir dpi pdf_files st F1 in
  F' = F1
  /\ (forall p, p ∈ pdf_files ->
        is_Some (F1 !! output_path p output_dir) ->
        EvLog (LogSkipping (output_path p output_dir)) ∈ ev)
  /\ (forall q d, EvRasterize q d ∈ ev ->
        F1 !! output_path q output_dir = None).
Proof.
  induction pdf_files as [|p rest IH]; intros st Hsub.
  - simpl. split; [easy|]. split.
    + intros p Hp. now apply elem_of_nil in Hp.
    + intros q d Hq. now apply elem_of_nil in Hq.
  - cbn [seq_run]. cbv zeta.
    pose proof (conversion_outcome E output_dir dpi p
                  (present_in F1 (output_path p output_dir))) as Hout.
    pose proof (conversion_events E output_dir dpi p
                  (present_in F1 (output_path p output_dir))) as Hev.
    assert (Hu : snd (fst (conversion E output_dir dpi p
                             (present_in F1 (output_path p output_dir))))
                 = None).
    { destruct (present_in F1 (output_path p output_dir)) eqn:Hpres;
        [easy|].
      destruct (Hsettled p (Hsub p (list_elem_of_here _ _))) as [Hs|Hc];
        [|exact Hc].
      apply present_in_false in Hpres. rewrite Hpres in Hs.
      now destruct Hs. }
    assert (Hskip : present_in F1 (output_path p output_dir) = true ->
              EvLog (LogSkipping (output_path p output_dir))
              ∈ snd (conversion E output_dir dpi p
                       (present_in F1 (output_path p output_dir)))).
    { intros ->. apply list_elem_of_here. }
    destruct (conversion E output_dir dpi p
                (present_in F1 (output_path p output_dir)))
      as [[oc u] ev]. cbn [fst snd] in *. subst u. cbn [set_file].
    specialize (IH (add_outcome st oc)).
    destruct (seq_run E output_dir dpi rest _ F1) as [[st' F'] ev'].
    destruct IH as (HF & Hlog & Hras).
    { intros q Hq. apply Hsub. now right. }
    split; [exact HF|]. split.
    + intros q Hq Hsome. apply elem_of_app.
      apply elem_of_cons in Hq as [->|Hq].
      * left. apply Hskip. now apply present_in_Some.
      * right. apply list_elem_of_further. now apply Hlog.
    + intros q d Hq. apply elem_of_app in Hq as [Hq|Hq].
      * apply Hev in Hq. destruct Hq as (-> & _ & Hpres).
        now apply present_in_false.
      * apply elem_of_cons in Hq as [Hq|Hq]; [|now apply (Hras q d)].
        now destruct oc as [[[] p'] r'].
Qed.

End SecondRun.

(** ** Resuming, for the dispatch in either mode *)

Lemma batch_body_first sched E output_dir dpi max_workers docs st0 w :
  exists st w',
    batch_body sched E output_dir dpi max_workers docs st0 w = (Ok st, w')
    /\ (forall p, p ∈ docs -> settled E output_dir dpi (files w') p)
    /\ exists delta,
         trace w' = trace w ++ delta
         /\ forall p, EvLog (LogSuccess p) ∈ delta ->
              p ∈ docs /\ is_Some (files w' !! output_path p output_dir).
Proof.
  unfold batch_body. destruct (parallel_mode max_workers) eqn:Hmode.
  - destruct (run_pool_first E output_dir dpi docs
                (Z.to_nat (default 0%Z max_workers)) sched st0 w
                (parallel_mode_workers _ Hmode))
      as (P' & w' & Hrun & Hs & Hd).
    unfold bind. rewrite Hrun. now exists (pstats P'), w'.
  - rewrite seq_loop_run.
    pose proof (seq_run_first E output_dir dpi docs docs st0 (files w)
                  (fun p H => H)) as H.
    destruct (seq_run E output_dir dpi docs st0 (files w)) as [[st F'] ev].
    destruct H as (_ & Hs & Hl).
    exists st, (World F' (trace w ++ ev)). split; [easy|].
    split; [exact Hs|]. now exists ev.
Qed.

Lemma batch_body_second sched E output_dir dpi max_workers docs st0 w :
  (forall p, p ∈ docs -> settled E output_dir dpi (files w) p) ->
  exists st w',
    batch_body sched E output_dir dpi max_workers docs st0 w = (Ok st, w')
    /\ files w' = files w
    /\ exists delta,
         trace w' = trace w ++ delta
         /\ (forall p, p ∈ docs ->
               is_Some (files w !! output_path p output_dir) ->
               EvLog (LogSkipping (output_path p output_dir)) ∈ delta)
         /\ (forall q d, EvRasterize q d ∈ delta ->
               files w !! output_path q output_dir = None).
Proof.
  intros Hsettled. unfold batch_body.
  destruct (parallel_mode max_workers) eqn:Hmode.
  - destruct (run_pool_second E output_dir dpi docs (files w) Hsettled
                (Z.to_nat (default 0%Z max_workers)) sched st0 w
                (parallel_mode_workers _ Hmode) eq_refl)
      as (P' & w' & Hrun & HF & Hd).
    unfold bind. rewrite Hrun. now exists (pstats P'), w'.
  - rewrite seq_loop_run.
    pose proof (seq_run_second E output_dir dpi docs (files w) Hsettled
                  docs st0 (fun p H => H)) as H.
    destruct (seq_run E output_dir dpi docs st0 (files w)) as [[st F'] ev].
    destruct H as (HF & Hl & Hr).
    exists st, (World F' (trace w ++ ev)). split; [easy|].
    split; [exact HF|]. now exists ev.
Qed.

Lemma ocr_pdfs_to_text_ok_makedirs sched E input_folder output_folder dpi
    max_workers w st w' :
  ocr_pdfs_to_text sched E input_folder output_folder dpi max_workers w
  = (Ok st, w') ->
  makedirs_fault E output_folder = None.
Proof.
  unfold ocr_pdfs_to_text, setup_ocr_logging, makedirs.
  destruct (makedirs_fault E output_folder); [|easy].
  destruct (open_fault E log_file);
    unfold bind, ret, emit, raise; simpl; discriminate.
Qed.

Lemma ocr_pdfs_to_text_ok_log sched E input_folder output_folder dpi
    max_workers w st w' :
  ocr_pdfs_to_text sched E input_folder output_folder dpi max_workers w
  = (Ok st, w') ->
  open_fault E log_file = None.
Proof.
  unfold ocr_pdfs_to_text, setup_ocr_logging.
  destruct (open_fault E log_file); [|easy].
  unfold bind, raise. discriminate.
Qed.

(** The events of the batch operation around those of the dispatch. *)
Lemma batch_frame_events found mode delta st output_folder e :
  e ∈ [EvMakedirs output_folder; EvLog (LogFound found)]
      ++ [mode_event mode found] ++ delta
      ++ summary_events st output_folder ->
  match e with
  | EvLog (LogSuccess _) | EvLog (LogSkipping _) | EvRasterize _ _ =>
      e ∈ delta
  | _ => True
  end.
Proof.
  rewrite !elem_of_app. intros [H|[H|[H|H]]].
  - repeat (apply elem_of_cons in H as [->|H]; [easy|]).
    now apply elem_of_nil in H.
  - apply list_elem_of_singleton in H. subst e. unfold mode_event.
    now destruct (parallel_mode mode).
  - now destruct e as [| | | | |[]].
  - unfold summary_events in H. apply elem_of_cons in H as [->|H]; [easy|].
    apply list_elem_of_fmap in H as (x & -> & _). easy.
Qed.

Lemma ocr_pdfs_to_text_first sched E input_folder output_folder dpi
    max_workers w st w1 :
  ocr_pdfs_to_text sched E input_folder output_folder dpi max_workers w
  = (Ok st, w1) ->
  (forall p, p ∈ find_pdfs (os_walk E input_folder) ->
             settled E output_folder dpi (files w1) p)
  /\ forall p, EvLog (LogSuccess p) ∈ drop (length (trace w)) (trace w1) ->
       p ∈ find_pdfs (os_walk E input_folder)
       /\ is_Some (files w1 !! output_path p output_folder).
Proof.
  intros Hrun.
  pose proof (ocr_pdfs_to_text_ok_makedirs _ _ _ _ _ _ _ _ _ Hrun) as Hmk.
  pose proof (ocr_pdfs_to_text_ok_log _ _ _ _ _ _ _ _ _ Hrun) as Hlogf.
  rewrite ocr_pdfs_to_text_run in Hrun by assumption. cbv zeta in Hrun.
  destruct (find_pdfs (os_walk E input_folder)) as [|p0 rest] eqn:Hdocs.
  - injection Hrun as <- <-. simpl. split.
    + intros p Hp. now apply elem_of_nil in Hp.
    + intros p Hp. rewrite drop_app_length in Hp.
      repeat (apply elem_of_cons in Hp as [Hp|Hp]; [discriminate|]).
      now apply elem_of_nil in Hp.
  - rewrite <- Hdocs in *. clear Hdocs.
    match type of Hrun with
    | context [batch_body sched E output_folder dpi max_workers ?d ?s0 ?w0] =>
        destruct (batch_body_first sched E output_folder dpi max_workers
                    d s0 w0) as (s & w' & Hb & Hsettled & delta & Htr & Hlog)
    end.
    rewrite Hb in Hrun. injection Hrun as <- <-. cbn [files trace] in *.
    split; [exact Hsettled|].
    intros p Hp. rewrite Htr, <- !app_assoc, drop_app_length in Hp.
    apply batch_frame_events in Hp. now apply Hlog.
Qed.

Lemma ocr_pdfs_to_text_second sched E input_folder output_folder dpi
    max_workers w st w2 :
  (forall p, p ∈ find_pdfs (os_walk E input_folder) ->
             settled E output_folder dpi (files w) p) ->
  ocr_pdfs_to_text sched E input_folder output_folder dpi max_workers w
  = (Ok st, w2) ->
  files w2 = files w
  /\ (forall p, p ∈ find_pdfs (os_walk E input_folder) ->
        is_Some (files w !! output_path p output_folder) ->
        EvLog (LogSkipping (output_path p output_folder))
        ∈ drop (length (trace w)) (trace w2))
  /\ (forall q d, EvRasterize q d ∈ drop (length (trace w)) (trace w2) ->
        files w !! output_path q output_folder = None).
Proof.
  intros Hsettled Hrun.
  pose proof (ocr_pdfs_to_text_ok_makedirs _ _ _ _ _ _ _ _ _ Hrun) as Hmk.
  pose proof (ocr_pdfs_to_text_ok_log _ _ _ _ _ _ _ _ _ Hrun) as Hlogf.
  rewrite ocr_pdfs_to_text_run in Hrun by assumption. cbv zeta in Hrun.
  destruct (find_pdfs (os_walk E input_folder)) as [|p0 rest] eqn:Hdocs.
  - injection Hrun as <- <-. simpl. split; [easy|]. split.
    + intros p Hp. now apply elem_of_nil in Hp.
    + intros q d Hq. rewrite drop_app_length in Hq.
      repeat (apply elem_of_cons in Hq as [Hq|Hq]; [discriminate|]).
      now apply elem_of_nil in Hq.
  - rewrite <- Hdocs in *. clear Hdocs.
    match type of Hrun with
    | context [batch_body sched E output_folder dpi max_workers ?d ?s0 ?w0] =>
        destruct (batch_body_second sched E output_folder dpi max_workers
                    d s0 w0 Hsettled)
          as (s & w' & Hb & HF & delta & Htr & Hlog & Hras)
    end.
    rewrite Hb in Hrun. injection Hrun as <- <-. cbn [files trace] in *.
    split; [exact HF|]. rewrite Htr, <- !app_assoc, drop_app_length.
    split.
    + intros p Hp Hsome. rewrite !elem_of_app. right. right. left.
      now apply Hlog.
    + intros q d Hq. apply batch_frame_events in Hq. now apply (Hras q d).
Qed.

(** * The claim about resuming *)

(** C5. A document whose output file exists is skipped: the call returns
    the success triple with the existing path, logs the skip, and does
    nothing else, so no rasterization, recognition or write takes place and
    no file changes; the batch counts such an outcome as successful. Hence
    a second run of the batch on the result of a first run, in any mode and
    under any schedule, leaves every file as it is, and every document that
    the first run reported as a success is logged as skipped and is not
    rasterized again. *)
Theorem resume_skips_converted_documents :
  (forall E output_dir dpi pdf_path w,
     is_Some (files w !! output_path pdf_path output_dir) ->
     process_single_pdf E pdf_path output_dir dpi w
     = (Ok (true, pdf_path, output_path pdf_path output_dir),
        World (files w)
              (trace w
               ++ [EvLog (LogSkipping (output_path pdf_path output_dir))])))
  /\ (forall st pdf_path output_file w,
        fst (record_outcome st (true, pdf_path, output_file) w)
        = Ok (Stats (total st) (successful st + 1) (failed st) (errors st)))
  /\ (forall sched1 sched2 E input_folder output_folder dpi mw1 mw2
             w st1 w1 st2 w2,
        ocr_pdfs_to_text sched1 E input_folder output_folder dpi mw1 w
        = (Ok st1, w1) ->
        ocr_pdfs_to_text sched2 E input_folder output_folder dpi mw2 w1
        = (Ok st2, w2) ->
        files w2 = files w1
        /\ forall p,
             EvLog (LogSuccess p) ∈ drop (length (trace w)) (trace w1) ->
             EvLog (LogSkipping (output_path p output_folder))
             ∈ drop (length (trace w1)) (trace w2)
             /\ forall d,
                  EvRasterize p d ∉ drop (length (trace w1)) (trace w2)).
Proof.
  split; [|split].
  - intros E output_dir dpi pdf_path w Hsome.
    rewrite process_single_pdf_run, (present_in_Some _ _ Hsome).
    now rewrite conversion_present.
  - reflexivity.
  - intros sched1 sched2 E input_folder output_folder dpi mw1 mw2
           w st1 w1 st2 w2 Hrun1 Hrun2.
    destruct (ocr_pdfs_to_text_first _ _ _ _ _ _ _ _ _ Hrun1)
      as [Hsettled Hsucc].
    destruct (ocr_pdfs_to_text_second _ _ _ _ _ _ _ _ _ Hsettled Hrun2)
      as (HF & Hskip & Hras).
    split; [exact HF|]. intros p Hp.
    destruct (Hsucc p Hp) as [Hdoc Hsome]. split.
    + now apply Hskip.
    + intros d Hd. apply Hras in Hd. rewrite Hd in Hsome.
      now destruct Hsome.
Qed.

Lemma resume_skips_converted_documents_witness :
  let w1 := snd (ocr_pdfs_to_text [] E_demo "in" "out" 300 None w_empty) in
  let w2 := snd (ocr_pdfs_to_text [3; 0; 2; 1] E_demo "in" "out" 300
                   (Some 4%Z) w1) in
  files w2 = files w1
  /\ EvLog (LogSkipping "out/a.txt") ∈ drop (length (trace w1)) (trace w2).
Proof.
  intros w1 w2.
  destruct resume_skips_converted_documents as (_ & _ & H).
  destruct (H [] [3; 0; 2; 1] E_demo "in" "out" 300%Z None (Some 4%Z)
              w_empty
              (Stats 4 3 1 ["in/bad.pdf: Unable to get page count."]) w1
              (Stats 4 3 1 ["in/bad.pdf: Unable to get page count."]) w2)
    as [HF Hskip].
  - vm_compute. reflexivity.
  - vm_compute. reflexivity.
  - split; [exact HF|].
    apply (Hskip "in/a.pdf"). apply list_elem_of_In. vm_compute.
    repeat (first [left; reflexivity | right]).
Defined.

(** * Further properties of one document *)

(** X1. [process_single_pdf] returns a triple for every document and
    every behaviour of the engines and of the file system: no exception
    leaves it. The triple names the document it was given. When it reports
    success, its third component is the output path and that file exists
    afterwards; it reports a failure only for a document whose output file
    was absent. *)
Theorem process_single_pdf_postcondition E pdf_path output_dir dpi w :
  exists success res w',
    process_single_pdf E pdf_path output_dir dpi w
    = (Ok (success, pdf_path, res), w')
    /\ (success = true ->
        res = output_path pdf_path output_dir
        /\ is_Some (files w' !! output_path pdf_path output_dir))
    /\ (success = false ->
        files w !! output_path pdf_path output_dir = None).
Proof.
  rewrite process_single_pdf_run. unfold conversion.
  destruct (present_in (files w) (output_path pdf_path output_dir)) eqn:Hp.
  { apply present_in_true in Hp. eexists _, _, _. split; [reflexivity|].
    split; [easy | discriminate]. }
  apply present_in_false in Hp.
  pose proof (prepare_cases E dpi pdf_path) as Hc.
  destruct (prepare E dpi pdf_path) as [[txt|oc] ev]; cbn [fst] in Hc.
  - unfold persist. destruct (open_fault E _) as [e|].
    { eexists _, _, _. split; [reflexivity|]. split; [discriminate | easy]. }
    destruct (write_fault E _ _) as [[k e]|];
      eexists _, _, _; (split; [reflexivity|]); split; try easy.
    intros _. split; [easy|]. simpl. rewrite lookup_insert_eq. eauto.
  - destruct (convert_from_path E pdf_path dpi) as [[|img rest]|e];
      try discriminate; injection Hc as ->;
      eexists _, _, _; (split; [reflexivity|]); split; easy.
Qed.

(** X2. [process_single_pdf] never changes or removes a file that exists:
    every path that had contents before the call has the same contents
    after it, and the only path that can appear is the output path of the
    document. *)
Theorem process_single_pdf_keeps_existing_files E pdf_path output_dir dpi w :
  let w' := snd (process_single_pdf E pdf_path output_dir dpi w) in
  (forall x c, files w !! x = Some c -> files w' !! x = Some c)
  /\ (forall x, x <> output_path pdf_path output_dir ->
                files w' !! x = files w !! x).
Proof.
  cbv zeta. rewrite process_single_pdf_run.
  pose proof (conversion_outcome E output_dir dpi pdf_path
                (present_in (files w) (output_path pdf_path output_dir)))
    as Hout.
  destruct (conversion _ _ _ _ _) as [[oc u] ev].
  destruct Hout as (_ & _ & Hskip). cbn [snd files].
  destruct u as [t|]; [|easy]. cbn [set_file]. split.
  - intros x c Hx. rewrite lookup_insert_ne; [exact Hx|].
    intros <-.
    destruct (present_in (files w) (output_path pdf_path output_dir))
      eqn:Hp; [now specialize (Hskip eq_refl)|].
    apply present_in_false in Hp. congruence.
  - intros x Hx. now apply lookup_insert_ne.
Qed.

Lemma prepare_never_warns_no_text E dpi p q :
  EvLog (LogNoTextPdf q) ∉ snd (prepare E dpi p).
Proof.
  unfold prepare, failure_events.
  destruct (convert_from_path E p dpi) as [[|img rest]|e].
  - simpl. rewrite !elem_of_cons. intros [H|[H|[H|H]]]; try discriminate.
    now apply elem_of_nil in H.
  - rewrite full_text_truthy. cbv zeta. cbn [negb snd app].
    rewrite !elem_of_cons. intros [H|[H|[H|H]]]; try discriminate.
    now apply pages_events_kind in H.
  - simpl. rewrite !elem_of_cons. intros [H|[H|[H|H]]]; try discriminate.
    now apply elem_of_nil in H.
Qed.

(** X3. Every failure of [process_single_pdf] is one of four: the
    rasterization raised, it returned no page, [open] raised, or [write]
    raised; the reason is the message of the exception, or
    ["No images extracted"]. The return of lines 113-115 is never taken:
    the warning that no text was extracted from the document is never
    logged. *)
Theorem process_single_pdf_failures E pdf_path output_dir dpi w :
  let o := output_path pdf_path output_dir in
  exists oc w' ev,
    process_single_pdf E pdf_path output_dir dpi w = (Ok oc, w')
    /\ trace w' = trace w ++ ev
    /\ (forall q, EvLog (LogNoTextPdf q) ∉ ev)
    /\ (fst (fst oc) = false ->
        (exists e, convert_from_path E pdf_path dpi = Raise e
                   /\ snd oc = exn_msg e)
        \/ (convert_from_path E pdf_path dpi = Ok []
            /\ snd oc = "No images extracted")
        \/ (exists e, open_fault E o = Some e /\ snd oc = exn_msg e)
        \/ (exists text k e, write_fault E o text = Some (k, e)
                             /\ snd oc = exn_msg e)).
Proof.
  intros o. rewrite process_single_pdf_run. fold o. unfold conversion.
  fold o.
  destruct (present_in (files w) o).
  { eexists _, _, _. split; [reflexivity|]. split; [reflexivity|].
    split; [|discriminate].
    intros q H. apply list_elem_of_singleton in H. discriminate. }
  pose proof (prepare_cases E dpi pdf_path) as Hc.
  pose proof (prepare_never_warns_no_text E dpi pdf_path) as Hw.
  destruct (prepare E dpi pdf_path) as [[txt|oc] ev]; cbn [fst snd] in *.
  - unfold persist, failure_events. fold o.
    destruct (open_fault E o) as [e|] eqn:Hopen.
    { eexists _, _, _. split; [reflexivity|]. split; [reflexivity|].
      split.
      - intros q H. apply elem_of_app in H as [H|H]; [now apply (Hw q)|].
        repeat (apply elem_of_cons in H as [H|H]; [discriminate|]).
        now apply elem_of_nil in H.
      - intros _. right. right. left. now exists e. }
    destruct (write_fault E o txt) as [[k e]|] eqn:Hwrite;
      eexists _, _, _; (split; [reflexivity|]); (split; [reflexivity|]);
      (split;
       [intros q H; apply elem_of_app in H as [H|H]; [now apply (Hw q)|];
        repeat (apply elem_of_cons in H as [H|H]; [discriminate|]);
        now apply elem_of_nil in H|]).
    + intros _. right. right. right. now exists txt, k, e.
    + discriminate.
  - eexists _, _, _. split; [reflexivity|]. split; [reflexivity|].
    split; [exact Hw|]. intros _.
    destruct (convert_from_path E pdf_path dpi) as [[|img rest]|e];
      try discriminate; injection Hc as ->; simpl.
    + right. now left.
    + left. now exists e.
Qed.

(** X4. Calling [process_single_pdf] a second time on the same document
    changes no file. If the first call left the output file in place, also
    when it reported a failure because the write broke off, the second
    call reports success with the output path and keeps the file as it is;
    if the first call left no output file, the second call returns what
    the first returned. *)
Theorem process_single_pdf_twice E pdf_path output_dir dpi w :
  let o := output_path pdf_path output_dir in
  let r1 := process_single_pdf E pdf_path output_dir dpi w in
  let r2 := process_single_pdf E pdf_path output_dir dpi (snd r1) in
  files (snd r2) = files (snd r1)
  /\ (is_Some (files (snd r1) !! o) -> fst r2 = Ok (true, pdf_path, o))
  /\ (files (snd r1) !! o = None -> fst r2 = fst r1).
Proof.
  cbv zeta. rewrite !process_single_pdf_run.
  pose proof (conversion_outcome E output_dir dpi pdf_path
                (present_in (files w) (output_path pdf_path output_dir)))
    as Hout.
  destruct (conversion E output_dir dpi pdf_path
              (present_in (files w) (output_path pdf_path output_dir)))
    as [[oc u] ev] eqn:Hconv.
  destruct Hout as (_ & _ & Hskip). cbn [snd fst files].
  destruct (present_in
              (set_file (output_path pdf_path output_dir) u (files w))
              (output_path pdf_path output_dir)) eqn:Hp2.
  - rewrite conversion_present. cbn [fst snd files set_file].
    split; [easy|]. split; [easy|].
    apply present_in_true in Hp2. intros Hnone. rewrite Hnone in Hp2.
    now destruct Hp2.
  - apply present_in_false in Hp2.
    assert (Hu : u = None).
    { destruct u as [c|]; [|easy]. simpl in Hp2.
      rewrite lookup_insert_eq in Hp2. discriminate. }
    subst u. cbn [set_file] in *.
    rewrite (present_in_None _ _ Hp2) in Hconv. rewrite Hconv.
    cbn [fst snd files set_file]. split; [easy|]. split; [|easy].
    rewrite Hp2. now intros [x Hx].
Qed.

Lemma process_single_pdf_twice_witness :
  fst (process_single_pdf E_disk_full "in/a.pdf" "out" 300 w_empty)
  = Ok (false, "in/a.pdf", "[Errno 28] No space left on device")
  /\ fst (process_single_pdf E_disk_full "in/a.pdf" "out" 300
            (snd (process_single_pdf E_disk_full "in/a.pdf" "out" 300
                    w_empty)))
     = Ok (true, "in/a.pdf", "out/a.txt").
Proof.
  split; [vm_compute; reflexivity|].
  destruct (process_single_pdf_twice E_disk_full "in/a.pdf" "out" 300%Z
              w_empty) as (_ & Hkept & _).
  apply Hkept. vm_compute. eauto.
Defined.

Lemma recognized_images_app l1 l2 :
  recognized_images (l1 ++ l2) = recognized_images l1 ++ recognized_images l2.
Proof.
  induction l1 as [|[] l1 IH]; simpl; rewrite ?IH; reflexivity.
Qed.

Lemma recognized_images_pages E total images : forall k,
  recognized_images (pages_events E total k images) = images.
Proof.
  induction images as [|img rest IH]; intros k; [easy|].
  cbn [pages_events recognized_images]. unfold recognize_events.
  cbn [app recognized_images]. rewrite !recognized_images_app, IH.
  destruct (engine_text E img); destruct (PyStr.truthy _); reflexivity.
Qed.

(** X5. For a document whose output file is absent and that rasterizes
    to the pages [images], the recognizer is called once on each page, in
    the order of the pages, and on nothing else; this holds also when the
    file cannot be opened or written afterwards. For a document whose
    output file exists the recognizer is not called. *)
Theorem pages_are_recognized_once_in_order
    E pdf_path output_dir dpi w images :
  convert_from_path E pdf_path dpi = Ok images ->
  recognized_images
    (drop (length (trace w))
       (trace (snd (process_single_pdf E pdf_path output_dir dpi w))))
  = if present_in (files w) (output_path pdf_path output_dir)
    then [] else images.
Proof.
  intros Hconv. rewrite process_single_pdf_run. unfold conversion.
  destruct (present_in (files w) (output_path pdf_path output_dir)).
  { cbn [snd trace]. now rewrite drop_app_length. }
  assert (Hprep : recognized_images (snd (prepare E dpi pdf_path)) = images).
  { unfold prepare. rewrite Hconv. destruct images as [|img rest]; [easy|].
    rewrite full_text_truthy. cbv zeta. cbn [negb snd app recognized_images].
    apply recognized_images_pages. }
  destruct (prepare E dpi pdf_path) as [[txt|oc] ev]; cbn [snd] in Hprep.
  - unfold persist, failure_events.
    destruct (open_fault E _) as [e|];
      [|destruct (write_fault E _ _) as [[k e]|]];
      cbn [snd trace]; rewrite drop_app_length, recognized_images_app, Hprep;
      simpl; now rewrite app_nil_r.
  - cbn [snd trace]. now rewrite drop_app_length.
Qed.

Lemma pages_are_recognized_once_in_order_witness :
  recognized_images
    (trace (snd (process_single_pdf E_disk_full "in/a.pdf" "out" 300 w_empty)))
  = [page 1; page 0; page 2].
Proof.
  apply (pages_are_recognized_once_in_order E_disk_full "in/a.pdf" "out"
           300%Z w_empty [page 1; page 0; page 2]).
  reflexivity.
Defined.

(** * Further properties of one page *)

Lemma all_space_app a b :
  all_space (a +:+ b) = all_space a && all_space b.
Proof.
  induction a as [|c a IH]; [easy|].
  rewrite append_cons. simpl. now rewrite IH, andb_assoc.
Qed.

Lemma lstrip_all_space s : all_space s = true -> PyStr.lstrip s = "".
Proof.
  induction s as [|c s IH]; [easy|]. simpl.
  intros H. apply andb_true_iff in H as [-> H]. now apply IH.
Qed.

(** [strip] returns the empty string exactly on the strings that consist
    of white space. *)
Lemma strip_empty_iff s : PyStr.strip s = "" <-> all_space s = true.
Proof.
  split.
  - intros H. destruct (strip_trimmed s) as [(l & r & Hs & Hl & Hr) _].
    rewrite H, append_nil in Hs. rewrite Hs, all_space_app, Hl, Hr.
    reflexivity.
  - intros H. unfold PyStr.strip. now rewrite lstrip_all_space.
Qed.

(** X6. A page whose recognized text consists of white space only is
    treated like a page without text: the loop appends the marker of the
    page with [[No text extracted]] and logs the warning for that page.
    Any other text is appended stripped, without a warning. *)
Theorem blank_text_page_gets_the_placeholder
    E total page_num img all_text w p q text :
  preprocess_image E img = Ok p ->
  fromarray E p = Ok q ->
  image_to_string E q = Ok text ->
  pages_loop E total page_num [img] all_text w
  = if all_space text then
      (Ok (all_text ++ [page_block page_num "[No text extracted]"]),
       World (files w)
             (trace w ++ [EvLog (LogProcessingPage page_num total);
                          EvRecognize img; EvLog (LogNoTextPage page_num)]))
    else
      (Ok (all_text ++ [page_block page_num (PyStr.strip text)]),
       World (files w)
             (trace w ++ [EvLog (LogProcessingPage page_num total);
                          EvRecognize img])).
Proof.
  intros Hp Hq Ht. rewrite pages_loop_run.
  cbn [pages_blocks pages_events]. unfold recognize_events, recognized.
  unfold engine_text, rbind. rewrite Hp, Hq, Ht.
  unfold page_body.
  destruct (all_space text) eqn:Hs.
  - apply strip_empty_iff in Hs. rewrite Hs. reflexivity.
  - destruct (PyStr.strip text) as [|c r] eqn:Hstrip.
    + apply strip_empty_iff in Hstrip. congruence.
    + reflexivity.
Qed.

Lemma blank_text_page_gets_the_placeholder_witness :
  fst (pages_loop E_demo 2 1 [page 0] [] w_empty)
  = Ok [page_block 1 "[No text extracted]"]
  /\ fst (pages_loop E_demo 2 1 [page 1] [] w_empty)
     = Ok [page_block 1 "hello"].
Proof.
  split.
  - rewrite (blank_text_page_gets_the_placeholder E_demo 2 1 (page 0) []
               w_empty (page 0) (page 0) ""); reflexivity.
  - rewrite (blank_text_page_gets_the_placeholder E_demo 2 1 (page 1) []
               w_empty (page 1) (page 1) " hello "); reflexivity.
Defined.

(** X7. When a stage of the recognition of a page raises, in
    preprocessing, in the conversion to an image or in the engine, the
    recognizer logs exactly one error record, with the message of that
    exception, and returns the empty string; when no stage raises it logs
    nothing. In both cases no file changes. *)
Theorem recognizer_logs_the_failure_once E img w :
  (forall e,
     preprocess_image E img = Raise e
     \/ (exists p, preprocess_image E img = Ok p /\ fromarray E p = Raise e)
     \/ (exists p q, preprocess_image E img = Ok p /\ fromarray E p = Ok q
                     /\ image_to_string E q = Raise e) ->
     extract_text_from_image E img w
     = (Ok "", World (files w)
                     (trace w ++ [EvRecognize img;
                                  EvLog (LogOcrError (exn_msg e))])))
  /\ (forall p q text,
        preprocess_image E img = Ok p -> fromarray E p = Ok q ->
        image_to_string E q = Ok text ->
        extract_text_from_image E img w
        = (Ok (PyStr.strip text),
           World (files w) (trace w ++ [EvRecognize img]))).
Proof.
  rewrite extract_text_from_image_run.
  unfold recognized, recognize_events, engine_text, rbind. split.
  - intros e [->|[(p & -> & ->)|(p & q & -> & -> & ->)]]; reflexivity.
  - intros p q text -> -> ->. reflexivity.
Qed.

Lemma recognizer_logs_the_failure_once_witness :
  extract_text_from_image E_demo (page 2) w_empty
  = (Ok "", World ∅ [EvRecognize (page 2);
                      EvLog (LogOcrError "engine failed")]).
Proof.
  destruct (recognizer_logs_the_failure_once E_demo (page 2) w_empty)
    as [Hfail _].
  apply (Hfail (Exn "TesseractError" "engine failed")).
  right. right. exists (page 2), (page 2). easy.
Defined.

(** X8. Only an array of three dimensions whose third dimension is 3 has
    its channels swapped; any other array, a grey-scale page for one, goes
    to the grey-scale conversion as it is. When that conversion rejects
    it, the page yields the empty string and the error is logged: nothing
    is raised and no later stage runs. *)
Theorem grey_scale_page_skips_the_channel_swap E img w a e :
  np_array E img = Ok a ->
  (length (shape a) =? 3) && (nth 2 (shape a) 0 =? 3) = false ->
  cvtColor E a COLOR_BGR2GRAY = Raise e ->
  preprocess_image E img = Raise e
  /\ extract_text_from_image E img w
     = (Ok "", World (files w)
                     (trace w ++ [EvRecognize img;
                                  EvLog (LogOcrError (exn_msg e))])).
Proof.
  intros Ha Hshape Hgray.
  assert (Hpre : preprocess_image E img = Raise e).
  { unfold preprocess_image, rbind. now rewrite Ha, Hshape, Hgray. }
  split; [exact Hpre|].
  rewrite extract_text_from_image_run.
  unfold recognized, recognize_events, engine_text, rbind.
  now rewrite Hpre.
Qed.

Lemma grey_scale_page_skips_the_channel_swap_witness :
  extract_text_from_image E_opencv (Image [4; 4] [7%Z]) w_empty
  = (Ok "", World ∅ [EvRecognize (Image [4; 4] [7%Z]);
                      EvLog (LogOcrError
                               "Invalid number of channels in input image")]).
Proof.
  apply (grey_scale_page_skips_the_channel_swap E_opencv
           (Image [4; 4] [7%Z]) w_empty (Image [4; 4] [7%Z])
           (Exn "cv2.error" "Invalid number of channels in input image"));
    reflexivity.
Defined.

(** * Further properties of discovery and of the output path *)

(** X9. Discovery is top-down and keeps the order of the listings: the
    documents of a directory are its own [.pdf] files, in the order of the
    listing, followed by the documents of each sub-directory, in the order
    of the sub-directories. *)
Theorem discovery_is_top_down top fs ds :
  find_pdfs (walk top (Dir fs ds))
  = map (OsPath.join top) (List.filter is_pdf fs)
    ++ concat (map (fun x => find_pdfs (walk (OsPath.join top (fst x)) (snd x)))
                   ds).
Proof.
  rewrite find_pdfs_entries. cbn [walk map concat entry_pdfs]. f_equal.
  induction ds as [|[d sub] ds IH]; [easy|].
  cbn [map concat fst snd]. rewrite map_app, concat_app, IH.
  now rewrite find_pdfs_entries.
Qed.

(** *** [rfind] and the slices *)

Lemma rfind_lower_bound c s : (-1 <= PyStr.rfind c s)%Z.
Proof.
  induction s as [|a s IH]; simpl; [lia|].
  destruct (0 <=? PyStr.rfind c s)%Z eqn:H; [apply Z.leb_le in H; lia|].
  destruct (Ascii.eqb a c); lia.
Qed.

Lemma rfind_absent c s :
  contains c s = false -> PyStr.rfind c s = (-1)%Z.
Proof.
  induction s as [|a s IH]; simpl; [easy|].
  intros H. apply orb_false_iff in H as [Ha Hs].
  rewrite (IH Hs), Ha. reflexivity.
Qed.

Lemma rfind_app c a b :
  PyStr.rfind c (a +:+ b)
  = if (0 <=? PyStr.rfind c b)%Z
    then (Z.of_nat (String.length a) + PyStr.rfind c b)%Z
    else PyStr.rfind c a.
Proof.
  induction a as [|x a IH].
  - rewrite append_nil. simpl.
    destruct (0 <=? PyStr.rfind c b)%Z eqn:H; [reflexivity|].
    apply Z.leb_gt in H. pose proof (rfind_lower_bound c b). lia.
  - rewrite append_cons. cbn [PyStr.rfind String.length]. rewrite IH.
    destruct (0 <=? PyStr.rfind c b)%Z eqn:H; [|reflexivity].
    apply Z.leb_le in H.
    destruct (0 <=? Z.of_nat (String.length a) + PyStr.rfind c b)%Z eqn:H2;
      [lia|]. apply Z.leb_gt in H2. lia.
Qed.

Lemma contains_app c a b :
  contains c (a +:+ b) = contains c a || contains c b.
Proof.
  induction a as [|x a IH]; [easy|].
  rewrite append_cons. simpl. now rewrite IH, orb_assoc.
Qed.

Lemma slice_to_app a b : PyStr.slice_to (String.length a) (a +:+ b) = a.
Proof. induction a as [|x a IH]; [now destruct b | simpl; now rewrite IH]. Qed.

Lemma slice_from_app a b : PyStr.slice_from (String.length a) (a +:+ b) = b.
Proof. induction a as [|x a IH]; [easy | exact IH]. Qed.

Lemma append_assoc (a b c : string) : (a +:+ b) +:+ c = a +:+ b +:+ c.
Proof.
  induction a as [|x a IH]; [easy|]. now rewrite !append_cons, IH.
Qed.

Lemma startswith_sep_contains b :
  contains "/" b = false -> PyStr.startswith b "/" = false.
Proof.
  destruct b as [|x b]; [easy|]. cbn [contains PyStr.startswith]. intros H.
  apply orb_false_iff in H as [Hx _]. rewrite Ascii.eqb_sym in Hx.
  now rewrite Hx.
Qed.

Lemma endswith_sep a :
  PyStr.endswith a "/" = true -> exists a', a = a' +:+ "/".
Proof.
  induction a as [|x a IH]; [discriminate|].
  cbn [PyStr.endswith]. intros H. apply orb_true_iff in H as [H|H].
  - apply String.eqb_eq in H. exists "". now rewrite H.
  - destruct (IH H) as [a' ->]. now exists (String x a').
Qed.

(** [os.path.join(a, b)] for a name [b] without a separator: [b] after a
    prefix that is empty or ends with the separator. *)
Lemma join_name a b :
  contains "/" b = false ->
  OsPath.join a b = b
  \/ exists pre, OsPath.join a b = (pre +:+ "/") +:+ b.
Proof.
  intros Hb. unfold OsPath.join, OsPath.sep.
  rewrite (startswith_sep_contains b Hb).
  destruct a as [|x a]; [now left|]. cbn [PyStr.truthy negb orb].
  destruct (PyStr.endswith (String x a) "/") eqn:He.
  - destruct (endswith_sep _ He) as [a' ->]. right. now exists a'.
  - right. exists (String x a). now rewrite append_assoc.
Qed.

Lemma basename_join a b :
  contains "/" b = false -> OsPath.basename (OsPath.join a b) = b.
Proof.
  intros Hb. unfold OsPath.basename, OsPath.sep.
  destruct (join_name a b Hb) as [->|[pre ->]].
  - now rewrite (rfind_absent _ _ Hb).
  - rewrite rfind_app, (rfind_absent _ _ Hb). cbn [Z.leb Z.compare].
    rewrite rfind_app. cbn [PyStr.rfind Z.leb Z.compare Ascii.eqb].
    simpl.
    replace (Z.to_nat (Z.of_nat (String.length pre) + 0 + 1))
      with (String.length (pre +:+ "/"))
      by (rewrite length_append; simpl; lia).
    apply slice_from_app.
Qed.

Lemma splitext_name stem ext :
  contains "/" stem = false -> contains "/" ext = false ->
  contains "." ext = false -> OsPath.has_non_dot stem = true ->
  OsPath.splitext (stem +:+ String "." ext) = (stem, String "." ext).
Proof.
  intros Hs He Hd Hn. unfold OsPath.splitext, OsPath.sep, OsPath.extsep.
  assert (Hsep : PyStr.rfind "/" (stem +:+ String "." ext) = (-1)%Z).
  { apply rfind_absent. rewrite contains_app, Hs. simpl. exact He. }
  assert (Hdot : PyStr.rfind "." (stem +:+ String "." ext)
                 = Z.of_nat (String.length stem)).
  { rewrite rfind_app. cbn [PyStr.rfind]. rewrite (rfind_absent _ _ Hd).
    simpl. lia. }
  rewrite Hsep, Hdot.
  destruct (-1 <? Z.of_nat (String.length stem))%Z eqn:Hlt;
    [|apply Z.ltb_ge in Hlt; lia].
  rewrite Nat2Z.id, slice_to_app, slice_from_app. simpl. now rewrite Hn.
Qed.

(** X10. The output path depends on the name of the document only, not
    on its directory or its extension: for a name [stem.ext] whose stem has
    a character other than a dot, the output path is
    [output_dir/stem.txt]. So two documents with the same stem, in any two
    directories and with any two extensions, share one output file. *)
Theorem output_path_forgets_directory_and_extension
    dir stem ext output_dir :
  contains "/" stem = false -> contains "/" ext = false ->
  contains "." ext = false -> OsPath.has_non_dot stem = true ->
  output_path (OsPath.join dir (stem +:+ String "." ext)) output_dir
  = OsPath.join output_dir (stem +:+ ".txt").
Proof.
  intros Hs He Hd Hn. unfold output_path.
  rewrite basename_join.
  - now rewrite splitext_name.
  - rewrite contains_app, Hs. simpl. exact He.
Qed.

Lemma output_path_forgets_directory_and_extension_witness :
  output_path (OsPath.join "in/sub" "Report.v2.PDF") "out" = "out/Report.v2.txt"
  /\ output_path (OsPath.join "elsewhere/" "Report.v2.pdf") "out"
     = "out/Report.v2.txt".
Proof.
  split.
  - apply (output_path_forgets_directory_and_extension "in/sub" "Report.v2"
             "PDF" "out"); reflexivity.
  - apply (output_path_forgets_directory_and_extension "elsewhere/"
             "Report.v2" "pdf" "out"); reflexivity.
Defined.

Lemma lower_app a b : PyStr.lower (a +:+ b) = PyStr.lower a +:+ PyStr.lower b.
Proof.
  induction a as [|x a IH]; [easy|].
  rewrite append_cons. cbn [PyStr.lower]. now rewrite IH, append_cons.
Qed.

Lemma endswith_txt_pdf a : PyStr.endswith (a +:+ ".txt") ".pdf" = false.
Proof.
  induction a as [|x a IH]; [reflexivity|].
  rewrite append_cons. cbn [PyStr.endswith]. rewrite IH, orb_false_r.
  apply String.eqb_neq. intros H. apply (f_equal String.length) in H.
  cbn [String.length] in H. rewrite length_append in H. simpl in H. lia.
Qed.

Lemma join_suffix a b : exists pre, OsPath.join a b = pre +:+ b.
Proof.
  unfold OsPath.join.
  destruct (PyStr.startswith b _); [now exists ""|].
  destruct (negb (PyStr.truthy a) || PyStr.endswith a _); [now exists a|].
  exists (a +:+ String OsPath.sep ""). now rewrite append_assoc.
Qed.

(** X11. What the conversion writes is never taken for a document: the
    name test of discovery rejects every output path, so a later run over
    a tree that holds the output folder does not pick up the text files. *)
Theorem output_files_are_not_documents pdf_path output_dir :
  is_pdf (output_path pdf_path output_dir) = false.
Proof.
  unfold output_path, is_pdf. cbv zeta.
  destruct (join_suffix output_dir
              (fst (OsPath.splitext (OsPath.basename pdf_path)) +:+ ".txt"))
    as [pre ->].
  rewrite <- append_assoc, lower_app.
  change (PyStr.lower ".txt") with ".txt". apply endswith_txt_pdf.
Qed.

(** * Further properties of the batch *)

Lemma reported_app l1 l2 : reported (l1 ++ l2) = reported l1 ++ reported l2.
Proof.
  induction l1 as [|[| | | | |[]] l1 IH]; simpl; now rewrite ?IH.
Qed.

Lemma log_stats_app l1 : forall l2 st,
  log_stats (l1 ++ l2) st = log_stats l2 (log_stats l1 st).
Proof.
  induction l1 as [|[| | | | |[]] l1 IH]; intros l2 st; simpl;
    now rewrite ?IH.
Qed.

Lemma quiet_events ev :
  (forall e, e ∈ ev -> is_report e = false) ->
  reported ev = [] /\ forall st, log_stats ev st = st.
Proof.
  induction ev as [|e ev IH]; intros H; [easy|].
  destruct IH as [IH1 IH2].
  { intros e' He'. apply H. now right. }
  assert (He : is_report e = false) by (apply H; now left).
  destruct e as [| | | | |[]]; try discriminate; simpl;
    (split; [exact IH1 | intros st; apply IH2]).
Qed.

Lemma task_step_outcome_doc E output_dir dpi p s w oc w' :
  task_step E p output_dir dpi s w = (Ok (inr oc), w') ->
  snd (fst oc) = p.
Proof.
  intros H.
  destruct (task_step_cases E output_dir dpi p s w)
    as (r1 & w1 & ev & Hr & _ & Hs).
  rewrite H in Hr. injection Hr as <- <-.
  destruct s as [|t|t].
  - destruct Hs as [_ Hs]. destruct (present_in _ _).
    + destruct Hs as [Hs _]. now injection Hs as ->.
    + destruct Hs as [_ Hs]. pose proof (prepare_cases E dpi p) as Hc.
      destruct (fst (prepare E dpi p)) as [t|oc']; [discriminate|].
      injection Hs as ->.
      destruct (convert_from_path E p dpi) as [[|img rest]|e];
        try discriminate; now injection Hc as ->.
  - destruct (open_fault E _); destruct Hs as (Hs & _); [|discriminate].
    now injection Hs as ->.
  - destruct (write_fault E _ _) as [[k e]|]; destruct Hs as (Hs & _);
      now injection Hs as ->.
Qed.

Lemma task_step_rasterize E output_dir dpi p s w r w' :
  task_step E p output_dir dpi s w = (Ok r, w') ->
  exists ev,
    trace w' = trace w ++ ev
    /\ (forall e, e ∈ ev -> is_report e = false)
    /\ forall q d, EvRasterize q d ∈ ev ->
         q = p /\ d = dpi /\ files w !! output_path p output_dir = None.
Proof.
  intros H.
  destruct (task_step_events _ _ _ _ _ _ _ _ H) as (ev & Htr & Hkind).
  exists ev. split; [exact Htr|]. split.
  - intros e He. apply Hkind in He. now destruct e as [| | | | |[]].
  - intros q d He.
    destruct (task_step_cases E output_dir dpi p s w)
      as (r1 & w1 & ev1 & Hr & Htr1 & Hs).
    rewrite H in Hr. injection Hr as <- <-.
    rewrite Htr in Htr1. apply app_inv_head in Htr1. subst ev1.
    pose proof (Hkind _ He) as (-> & -> & Hpres). simpl in Hs.
    destruct Hs as [_ Hs]. rewrite Hpres in Hs. destruct Hs as [-> _].
    apply (prepare_events E output_dir) in He. simpl in He.
    destruct He as (_ & -> & _). split; [easy|]. split; [easy|].
    now apply present_in_false.
Qed.

Section Dispatch.
Variable E : env.
Variable output_dir : string.
Variable dpi : Z.
Variable docs : list string.
Variable st0 : stats.
Variable F0 : gmap string string.

Lemma dispatch_post_start :
  dispatch_post output_dir dpi docs st0 F0 [] st0 F0 [].
Proof.
  unfold dispatch_post. split; [easy|]. split; [easy|]. split; [easy|].
  split; [easy|]. split.
  - intros q d H. now apply elem_of_nil in H.
  - intros p m H. now apply elem_of_nil in H.
Qed.

(** The events and the write of one document keep the facts. *)
Lemma dispatch_post_extend coll st F delta p F' ev :
  dispatch_post output_dir dpi docs st0 F0 coll st F delta ->
  p ∈ docs ->
  (F' = F
   \/ exists c, F' = <[output_path p output_dir := c]> F
                /\ F0 !! output_path p output_dir = None) ->
  (forall e, e ∈ ev -> is_report e = false) ->
  (forall q d, EvRasterize q d ∈ ev ->
     q = p /\ d = dpi /\ F !! output_path p output_dir = None) ->
  dispatch_post output_dir dpi docs st0 F0 coll st F' (delta ++ ev).
Proof.
  intros (HA & HB & HC & HD & HE & HX) Hp HF' Hq Hr.
  destruct (quiet_events ev Hq) as [Hrep Hst].
  unfold dispatch_post. split; [|split; [|split; [|split; [|split]]]].
  - intros x c Hx. destruct HF' as [->|(c' & -> & Hnone)]; [auto|].
    rewrite lookup_insert_ne; [auto|]. intros <-. congruence.
  - intros x Hx. destruct HF' as [->|(c' & -> & Hnone)]; [auto|].
    rewrite lookup_insert_ne; [auto|]. intros <-. apply Hx.
    apply list_elem_of_fmap. now exists p.
  - rewrite reported_app, Hrep, app_nil_r. exact HC.
  - rewrite log_stats_app, Hst. exact HD.
  - intros q d H. apply elem_of_app in H as [H|H]; [auto|].
    destruct (Hr q d H) as (-> & -> & Hnone).
    split; [easy|]. split; [easy|].
    destruct (F0 !! output_path p output_dir) eqn:H0; [|easy].
    apply HA in H0. congruence.
  - intros q m H. apply elem_of_app in H as [H|H]; [now apply (HX q m)|].
    apply Hq in H. discriminate.
Qed.

(** The result record of one document. *)
Lemma dispatch_post_report coll st F delta oc :
  dispatch_post output_dir dpi docs st0 F0 coll st F delta ->
  dispatch_post output_dir dpi docs st0 F0 (coll ++ [snd (fst oc)])
    (add_outcome st oc) F (delta ++ [outcome_event oc]).
Proof.
  intros (HA & HB & HC & HD & HE & HX).
  unfold dispatch_post. split; [|split; [|split; [|split; [|split]]]].
  - exact HA.
  - exact HB.
  - rewrite reported_app, HC. now destruct oc as [[[] p] r].
  - rewrite log_stats_app, <- HD. now destruct oc as [[[] p] r].
  - intros q d H. apply elem_of_app in H as [H|H]; [auto|].
    apply list_elem_of_singleton in H. now destruct oc as [[[] p] r].
  - intros q m H. apply elem_of_app in H as [H|H]; [now apply (HX q m)|].
    apply list_elem_of_singleton in H. now destruct oc as [[[] p] r].
Qed.

(** Events around the dispatch that are neither result records nor
    rasterizations. *)
Lemma dispatch_post_frame coll st F delta pre post :
  (forall e, e ∈ pre ++ post ->
     is_report e = false /\ forall q d, e <> EvRasterize q d) ->
  dispatch_post output_dir dpi docs st0 F0 coll st F delta ->
  dispatch_post output_dir dpi docs st0 F0 coll st F (pre ++ delta ++ post).
Proof.
  intros Hf (HA & HB & HC & HD & HE & HX).
  destruct (quiet_events pre) as [Hrep1 Hst1].
  { intros e He. apply Hf. apply elem_of_app. now left. }
  destruct (quiet_events post) as [Hrep2 Hst2].
  { intros e He. apply Hf. apply elem_of_app. now right. }
  unfold dispatch_post. split; [|split; [|split; [|split; [|split]]]].
  - exact HA.
  - exact HB.
  - now rewrite !reported_app, Hrep1, Hrep2, app_nil_r.
  - now rewrite !log_stats_app, Hst1, Hst2.
  - intros q d H. rewrite !elem_of_app in H. destruct H as [H|[H|H]].
    + destruct (Hf (EvRasterize q d)) as [_ Hn];
        [apply elem_of_app; now left|]. now destruct (Hn q d).
    + auto.
    + destruct (Hf (EvRasterize q d)) as [_ Hn];
        [apply elem_of_app; now right|]. now destruct (Hn q d).
  - intros q m H. rewrite !elem_of_app in H. destruct H as [H|[H|H]].
    + destruct (Hf (EvLog (LogException q m))) as [Hn _];
        [apply elem_of_app; now left|]. discriminate.
    + now apply (HX q m).
    + destruct (Hf (EvLog (LogException q m))) as [Hn _];
        [apply elem_of_app; now right|]. discriminate.
Qed.

Lemma seq_run_post rest : forall st F delta coll,
  (forall p, p ∈ rest -> p ∈ docs) ->
  dispatch_post output_dir dpi docs st0 F0 coll st F delta ->
  let '(st', F', ev) := seq_run E output_dir dpi rest st F in
  dispatch_post output_dir dpi docs st0 F0 (coll ++ rest) st' F'
    (delta ++ ev).
Proof.
  induction rest as [|p rest IH]; intros st F delta coll Hsub Hpost.
  - simpl. now rewrite !app_nil_r.
  - cbn [seq_run]. cbv zeta.
    pose proof (conversion_outcome E output_dir dpi p
                  (present_in F (output_path p output_dir))) as Hout.
    pose proof (conversion_events E output_dir dpi p
                  (present_in F (output_path p output_dir))) as Hev.
    destruct (conversion E output_dir dpi p
                (present_in F (output_path p output_dir)))
      as [[oc u] ev]. cbn [fst snd] in *.
    destruct Hout as (Hpath & _ & Hskip).
    assert (H1 : dispatch_post output_dir dpi docs st0 F0 coll st
                   (set_file (output_path p output_dir) u F) (delta ++ ev)).
    { apply (dispatch_post_extend coll st F delta p); try easy.
      - apply Hsub. now left.
      - destruct u as [c|]; [|now left]. right. exists c. split; [easy|].
        destruct (present_in F (output_path p output_dir)) eqn:Hpres;
          [now specialize (Hskip eq_refl)|].
        apply present_in_false in Hpres. destruct Hpost as (HA & _).
        destruct (F0 !! output_path p output_dir) eqn:H0; [|easy].
        apply HA in H0. congruence.
      - intros e He. apply Hev in He.
        now destruct e as [| | | | |[]].
      - intros q d He. apply Hev in He. simpl in He.
        destruct He as (-> & -> & Hpres). split; [easy|]. split; [easy|].
        now apply present_in_false. }
    apply (dispatch_post_report _ _ _ _ oc) in H1. rewrite Hpath in H1.
    specialize (IH (add_outcome st oc)
                   (set_file (output_path p output_dir) u F)
                   ((delta ++ ev) ++ [outcome_event oc]) (coll ++ [p])).
    destruct (seq_run E output_dir dpi rest _ _) as [[st' F'] ev'].
    assert (Hrest : forall q, q ∈ rest -> q ∈ docs)
      by (intros q Hq; apply Hsub; now right).
    specialize (IH Hrest H1). rewrite <- !app_assoc in IH. exact IH.
Qed.

Lemma run_pool_post workers sched w :
  0 < workers -> files w = F0 ->
  exists P' w' delta coll,
    run_pool E output_dir dpi workers (5 * length docs) sched
      (Pool docs [] [] st0) w = (Ok P', w')
    /\ trace w' = trace w ++ delta
    /\ docs ≡ₚ coll
    /\ dispatch_post output_dir dpi docs st0 F0 coll (pstats P')
         (files w') delta.
Proof.
  intros Hw HF0.
  destruct (run_pool_phases E output_dir dpi workers docs
              (fun _ _ => True)
              (guard_phase output_dir docs F0)
              (guard_global output_dir dpi docs st0 F0 (trace w)))
    with (sched := sched) (st0 := st0) (w := w)
    as (P' & w' & coll & Hrun & Hperm & _ & delta & Htr & Hpost); try easy.
  - intros st coll p s w1 s' w1' (delta & _ & HA & _) [Hp Hph] Hs.
    split; [exact Hp|].
    destruct (task_step_cases E output_dir dpi p s w1)
      as (r1 & w2 & ev & Hr & _ & Hcase).
    rewrite Hs in Hr. injection Hr as <- <-.
    destruct s as [|t|t].
    + destruct Hcase as [_ Hcase].
      destruct (present_in (files w1) (output_path p output_dir)) eqn:Hpres;
        [now destruct Hcase|].
      destruct Hcase as [_ Hcase].
      destruct (fst (prepare E dpi p)); [|discriminate].
      injection Hcase as ->. apply present_in_false in Hpres.
      destruct (F0 !! output_path p output_dir) eqn:H0; [|easy].
      apply HA in H0. congruence.
    + destruct (open_fault E _); destruct Hcase as (Hr & _);
        [discriminate|]. now injection Hr as ->.
    + destruct (write_fault E _ _) as [[k e]|]; now destruct Hcase.
  - intros st coll p s w1 oc w1' _ [Hp _] Hs. split; [exact Hp|].
    now apply task_step_outcome_doc in Hs.
  - intros p oc w1 [Hp _]. now split.
  - intros st coll p s w1 r w1' (delta & Htr & Hpost) [Hp Hph] Hs.
    destruct (task_step_rasterize _ _ _ _ _ _ _ _ Hs) as (ev & Hev & Hq & Hr).
    exists (delta ++ ev). split; [now rewrite Hev, Htr, app_assoc|].
    apply (dispatch_post_extend coll st (files w1) delta p); try easy.
    destruct (task_step_cases E output_dir dpi p s w1)
      as (r1 & w2 & ev1 & Hr1 & _ & Hcase).
    rewrite Hs in Hr1. injection Hr1 as <- <-.
    destruct s as [|t|t].
    + destruct Hcase as [-> _]. now left.
    + destruct (open_fault E _); destruct Hcase as (_ & -> & _);
        [now left | right; eauto].
    + destruct (write_fault E _ _) as [[k e]|];
        destruct Hcase as (_ & -> & _); right; eauto.
  - intros st coll p oc w1 (delta & Htr & Hpost) [Hp Hoc].
    exists (delta ++ [outcome_event oc]). simpl.
    split; [now rewrite Htr, app_assoc|].
    rewrite <- Hoc. now apply dispatch_post_report.
  - apply Forall_forall. intros p Hp. now split.
  - exists []. rewrite app_nil_r. split; [easy|]. rewrite HF0.
    apply dispatch_post_start.
  - exists P', w', delta, coll. easy.
Qed.

End Dispatch.

(** The dispatch in either mode. *)
Lemma batch_body_post sched E output_dir dpi max_workers docs st0 w :
  exists st w' delta coll,
    batch_body sched E output_dir dpi max_workers docs st0 w = (Ok st, w')
    /\ trace w' = trace w ++ delta
    /\ docs ≡ₚ coll
    /\ (parallel_mode max_workers = false -> coll = docs)
    /\ dispatch_post output_dir dpi docs st0 (files w) coll st (files w')
         delta.
Proof.
  unfold batch_body. destruct (parallel_mode max_workers) eqn:Hmode.
  - destruct (run_pool_post E output_dir dpi docs st0 (files w)
                (Z.to_nat (default 0%Z max_workers)) sched w
                (parallel_mode_workers _ Hmode) eq_refl)
      as (P' & w' & delta & coll & Hrun & Htr & Hperm & Hpost).
    unfold bind. rewrite Hrun. exists (pstats P'), w', delta, coll. easy.
  - rewrite seq_loop_run.
    pose proof (seq_run_post E output_dir dpi docs st0 (files w) docs
                  st0 (files w) [] [] (fun p Hp => Hp)
                  (dispatch_post_start output_dir dpi docs st0 (files w)))
      as H.
    destruct (seq_run E output_dir dpi docs st0 (files w))
      as [[st F'] ev].
    exists st, (World F' (trace w ++ ev)), ev, docs. easy.
Qed.

(** The two ways the batch operation raises: both come before
    discovery, and neither touches a file. *)
Lemma ocr_pdfs_to_text_aborts sched E input_folder output_folder dpi
    max_workers w :
  open_fault E log_file <> None \/ makedirs_fault E output_folder <> None ->
  exists e,
    ocr_pdfs_to_text sched E input_folder output_folder dpi max_workers w
    = (Raise e, World (files w) (trace w))
    \/ ocr_pdfs_to_text sched E input_folder output_folder dpi max_workers w
       = (Raise e, World (files w) (trace w ++ [EvMakedirs output_folder])).
Proof.
  intros H. unfold ocr_pdfs_to_text, setup_ocr_logging, makedirs.
  destruct (open_fault E log_file) as [e|].
  - exists e. left. now destruct w.
  - destruct (makedirs_fault E output_folder) as [e|].
    + exists e. now right.
    + now destruct H.
Qed.

(** The batch operation, when the log file can be opened and the output
    directory can be created. *)
Lemma ocr_pdfs_to_text_post sched E input_folder output_folder dpi
    max_workers w :
  open_fault E log_file = None ->
  makedirs_fault E output_folder = None ->
  let docs := find_pdfs (os_walk E input_folder) in
  exists st w' delta coll,
    ocr_pdfs_to_text sched E input_folder output_folder dpi max_workers w
    = (Ok st, w')
    /\ trace w' = trace w ++ delta
    /\ docs ≡ₚ coll
    /\ (parallel_mode max_workers = false -> coll = docs)
    /\ dispatch_post output_folder dpi docs (Stats (length docs) 0 0 [])
         (files w) coll st (files w') delta.
Proof.
  intros Hlog Hmk docs. rewrite ocr_pdfs_to_text_run by assumption.
  cbv zeta. fold docs. destruct docs as [|p rest] eqn:Hdocs.
  - eexists _, _, _, []. split; [reflexivity|]. split; [reflexivity|].
    split; [easy|]. split; [easy|]. simpl.
    apply (dispatch_post_frame output_folder dpi [] (Stats 0 0 0 [])
             (files w) [] _ _ []
             [EvMakedirs output_folder; EvLog (LogFound 0)]
             [EvLog LogNoneFound]).
    + intros e He. simpl in He.
      repeat (apply elem_of_cons in He as [->|He]; [easy|]).
      now apply elem_of_nil in He.
    + apply dispatch_post_start.
  - rewrite <- Hdocs.
    destruct (batch_body_post sched E output_folder dpi max_workers docs
                (Stats (length docs) 0 0 [])
                (World (files w)
                   (trace w
                    ++ [EvMakedirs output_folder;
                        EvLog (LogFound (length docs))]
                    ++ [mode_event max_workers (length docs)])))
      as (st & w1 & delta & coll & Hrun & Htr & Hperm & Hseq & Hpost).
    rewrite Hrun. simpl in Htr, Hpost.
    exists st, (World (files w1) (trace w1 ++ summary_events st output_folder)),
      ([EvMakedirs output_folder; EvLog (LogFound (length docs));
        mode_event max_workers (length docs)]
       ++ delta ++ summary_events st output_folder), coll.
    split; [reflexivity|]. split.
    { simpl. rewrite Htr, <- !app_assoc. reflexivity. }
    split; [exact Hperm|]. split; [exact Hseq|]. simpl files.
    apply dispatch_post_frame; [|exact Hpost].
    intros e He. apply elem_of_app in He as [He|He].
    + repeat (apply elem_of_cons in He as [->|He];
              [try easy; unfold mode_event;
               now destruct (parallel_mode max_workers)|]).
      now apply elem_of_nil in He.
    + unfold summary_events in He.
      apply elem_of_cons in He as [->|He]; [easy|].
      apply list_elem_of_fmap in He as (x & -> & _). easy.
Qed.

Lemma ocr_pdfs_to_text_cases sched E input_folder output_folder dpi
    max_workers w :
  (open_fault E log_file = None /\ makedirs_fault E output_folder = None)
  \/ exists e tr,
       ocr_pdfs_to_text sched E input_folder output_folder dpi max_workers w
       = (Raise e, World (files w) (trace w ++ tr))
       /\ (tr = [] \/ tr = [EvMakedirs output_folder]).
Proof.
  destruct (open_fault E log_file) as [e1|] eqn:Hlog;
    [|destruct (makedirs_fault E output_folder) as [e2|] eqn:Hmk];
    [| |now left]; right;
    (destruct (ocr_pdfs_to_text_aborts sched E input_folder output_folder
                 dpi max_workers w) as (e & [H|H]);
     [rewrite ?Hlog, ?Hmk; intuition discriminate | |]).
  - exists e, []. rewrite app_nil_r. auto.
  - exists e, [EvMakedirs output_folder]. auto.
  - exists e, []. rewrite app_nil_r. auto.
  - exists e, [EvMakedirs output_folder]. auto.
Qed.

(** X12. Apart from the log file, to which the log records go, the
    batch operation never changes or removes a file that existed when it
    was called, and it creates nothing but output files of the documents
    it discovered. This holds in both modes, under every schedule of the
    worker pool, for every behaviour of the engines and of the file
    system, and also when the call raises. *)
Theorem batch_keeps_existing_files
    sched E input_folder output_folder dpi max_workers w :
  let w' := snd (ocr_pdfs_to_text sched E input_folder output_folder dpi
                   max_workers w) in
  (forall x c, x <> log_file ->
     files w !! x = Some c -> files w' !! x = Some c)
  /\ (forall x, x <> log_file ->
        x ∉ (fun p => output_path p output_folder)
            <$> find_pdfs (os_walk E input_folder) ->
        files w' !! x = files w !! x).
Proof.
  destruct (ocr_pdfs_to_text_cases sched E input_folder output_folder dpi
              max_workers w) as [[Hlog Hmk]|(e & tr & Hrun & _)].
  - destruct (ocr_pdfs_to_text_post sched E input_folder output_folder dpi
                max_workers w Hlog Hmk)
      as (st & w' & delta & coll & Hrun & _ & _ & _ & HA & HB & _).
    rewrite Hrun. split; intros x; intros; auto.
  - rewrite Hrun. easy.
Qed.

Lemma batch_keeps_existing_files_witness :
  files (snd (ocr_pdfs_to_text [1; 0; 3; 2] E_demo "in" "out" 300
                (Some 2%Z) w_kept)) !! "out/a.txt"
  = Some "kept".
Proof.
  apply (proj1 (batch_keeps_existing_files [1; 0; 3; 2] E_demo "in" "out"
                  300 (Some 2%Z) w_kept)).
  - discriminate.
  - reflexivity.
Defined.

(** X13. Unless the log file cannot be opened or the output directory
    cannot be created, in which cases the call raises before discovery,
    every discovered document gets exactly one result record in the log: the
    documents of the result records are the discovered documents up to
    the order, and in sequential mode in the order of discovery. No record
    is an exception record: the handler around [future.result()]
    (lines 193-196) is never entered. *)
Theorem every_document_is_reported_once
    sched E input_folder output_folder dpi max_workers w :
  open_fault E log_file = None ->
  makedirs_fault E output_folder = None ->
  exists st w' delta,
    ocr_pdfs_to_text sched E input_folder output_folder dpi max_workers w
    = (Ok st, w')
    /\ trace w' = trace w ++ delta
    /\ reported delta ≡ₚ find_pdfs (os_walk E input_folder)
    /\ (parallel_mode max_workers = false ->
        reported delta = find_pdfs (os_walk E input_folder))
    /\ forall p m, EvLog (LogException p m) ∉ delta.
Proof.
  intros Hlog Hmk.
  destruct (ocr_pdfs_to_text_post sched E input_folder output_folder dpi
              max_workers w Hlog Hmk)
    as (st & w' & delta & coll & Hrun & Htr & Hperm & Hseq
        & _ & _ & Hrep & _ & _ & Hexn).
  exists st, w', delta. split; [exact Hrun|]. split; [exact Htr|].
  rewrite Hrep. split; [now symmetry|]. split; [exact Hseq | exact Hexn].
Qed.

Lemma every_document_is_reported_once_witness :
  exists st w' delta,
    ocr_pdfs_to_text [2; 7; 1; 8; 2; 8] E_demo "in" "out" 300 (Some 3%Z)
      w_empty = (Ok st, w')
    /\ trace w' = trace w_empty ++ delta
    /\ reported delta ≡ₚ find_pdfs (os_walk E_demo "in")
    /\ (parallel_mode (Some 3%Z) = false ->
        reported delta = find_pdfs (os_walk E_demo "in"))
    /\ forall p m, EvLog (LogException p m) ∉ delta.
Proof.
  apply (every_document_is_reported_once [2; 7; 1; 8; 2; 8] E_demo
           "in" "out" 300 (Some 3%Z) w_empty); reflexivity.
Defined.

(** X14. The statistics returned, which they are once the log file was
    opened and the output directory created, are those of the log: starting from
    the number of documents discovered and no result, one success is
    counted per success record and one failure per failure record, and the
    error list holds the failure records as [path: reason], in the order
    in which they were logged. *)
Theorem statistics_match_the_log
    sched E input_folder output_folder dpi max_workers w :
  open_fault E log_file = None ->
  makedirs_fault E output_folder = None ->
  exists st w' delta,
    ocr_pdfs_to_text sched E input_folder output_folder dpi max_workers w
    = (Ok st, w')
    /\ trace w' = trace w ++ delta
    /\ st = log_stats delta
              (Stats (length (find_pdfs (os_walk E input_folder))) 0 0 []).
Proof.
  intros Hlog Hmk.
  destruct (ocr_pdfs_to_text_post sched E input_folder output_folder dpi
              max_workers w Hlog Hmk)
    as (st & w' & delta & coll & Hrun & Htr & _ & _
        & _ & _ & _ & Hst & _).
  now exists st, w', delta.
Qed.

Lemma statistics_match_the_log_witness :
  exists st w' delta,
    ocr_pdfs_to_text [] E_demo "in" "out" 300 None w_empty = (Ok st, w')
    /\ trace w' = trace w_empty ++ delta
    /\ st = log_stats delta
              (Stats (length (find_pdfs (os_walk E_demo "in"))) 0 0 []).
Proof.
  apply (statistics_match_the_log [] E_demo "in" "out" 300 None w_empty);
    reflexivity.
Defined.

(** X15. The batch operation rasterizes only documents it discovered,
    only at the resolution it was given, and only documents whose output
    file did not exist when it was called; in both modes and under every
    schedule. *)
Theorem only_new_documents_are_rasterized
    sched E input_folder output_folder dpi max_workers w :
  exists delta,
    trace (snd (ocr_pdfs_to_text sched E input_folder output_folder dpi
                  max_workers w)) = trace w ++ delta
    /\ forall q d, EvRasterize q d ∈ delta ->
         q ∈ find_pdfs (os_walk E input_folder) /\ d = dpi
         /\ files w !! output_path q output_folder = None.
Proof.
  destruct (ocr_pdfs_to_text_cases sched E input_folder output_folder dpi
              max_workers w) as [[Hlog Hmk]|(e & tr & Hrun & Htr)].
  - destruct (ocr_pdfs_to_text_post sched E input_folder output_folder dpi
                max_workers w Hlog Hmk)
      as (st & w' & delta & coll & Hrun & Htr & _ & _
          & _ & _ & _ & _ & Hras & _).
    rewrite Hrun. now exists delta.
  - rewrite Hrun. exists tr. split; [easy|].
    intros q d H. destruct Htr as [-> | ->].
    + now apply elem_of_nil in H.
    + apply list_elem_of_singleton in H. discriminate.
Qed.

Lemma log_stats_counts delta : forall st,
  (forall p m, EvLog (LogException p m) ∉ delta) ->
  total (log_stats delta st) = total st
  /\ successful (log_stats delta st) + failed (log_stats delta st)
     = successful st + failed st + length (reported delta).
Proof.
  induction delta as [|e delta IH]; intros st Hexn; [simpl; lia|].
  assert (Hrest : forall p m, EvLog (LogException p m) ∉ delta).
  { intros p m H. apply (Hexn p m). now right. }
  destruct e as [| | | | |[]]; simpl;
    try (now apply IH);
    try (destruct (IH (Stats (total st) (successful st + 1) (failed st)
                         (errors st)) Hrest) as [Ht Hs];
         simpl in Ht, Hs; split; [exact Ht | lia]).
  - destruct (IH (Stats (total st) (successful st) (failed st + 1)
                    (errors st ++ [pdf_path +:+ ": " +:+ reason])) Hrest)
      as [Ht Hs].
    simpl in Ht, Hs. split; [exact Ht | lia].
  - destruct (Hexn pdf_path msg). now left.
Qed.

Lemma seq_run_no_parallel_record E output_dir dpi pdf_files : forall st F n k,
  EvLog (LogParallel n k) ∉ snd (seq_run E output_dir dpi pdf_files st F).
Proof.
  induction pdf_files as [|p rest IH]; intros st F n k.
  - simpl. apply not_elem_of_nil.
  - cbn [seq_run]. cbv zeta.
    pose proof (conversion_events E output_dir dpi p
                  (present_in F (output_path p output_dir))) as Hev.
    destruct (conversion E output_dir dpi p
                (present_in F (output_path p output_dir)))
      as [[oc u] ev]. cbn [snd] in Hev.
    specialize (IH (add_outcome st oc)
                   (set_file (output_path p output_dir) u F) n k).
    destruct (seq_run E output_dir dpi rest _ _) as [[st' F'] ev'].
    cbn [snd] in *. intros H. apply elem_of_app in H as [H|H].
    + now apply Hev in H.
    + apply elem_of_cons in H as [H|H]; [|easy].
      now destruct oc as [[[] q] r].
Qed.

(** X16. The script of [ocr.py] converts the documents one after the
    other, in the order of discovery, whatever the thread pool would do:
    it asks for one worker, which selects the sequential loop, and no
    parallel run is announced in the log. Unless the log file cannot be
    opened or the output directory cannot be created, in which cases it
    raises, it prints the number of successes out of the number of
    documents discovered, and the former is at most the latter. *)
Theorem script_runs_sequentially sched E w :
  open_fault E log_file = None ->
  makedirs_fault E "ocr_data_output" = None ->
  let docs := find_pdfs (os_walk E "data/ADULT AND CONTINUING EDUCATION") in
  exists s w' delta,
    main sched E w
    = (Ok ("Processing complete! Success: " +:+ PyStr.of_nat s
           +:+ "/" +:+ PyStr.of_nat (length docs)), w')
    /\ s <= length docs
    /\ trace w' = trace w ++ delta
    /\ reported delta = docs
    /\ (forall q d, EvRasterize q d ∈ delta -> d = 300%Z)
    /\ forall n k, EvLog (LogParallel n k) ∉ delta.
Proof.
  intros Hlog Hmk docs.
  destruct (ocr_pdfs_to_text_post sched E
              "data/ADULT AND CONTINUING EDUCATION" "ocr_data_output"
              300 (Some 1%Z) w Hlog Hmk)
    as (st & w' & delta & coll & Hrun & Htr & _ & Hseq
        & _ & _ & Hrep & Hst & Hras & Hexn).
  fold docs in Hrun, Hseq, Hst, Hras.
  specialize (Hseq eq_refl). subst coll.
  destruct (log_stats_counts delta (Stats (length docs) 0 0 []) Hexn)
    as [Ht Hs].
  rewrite <- Hst in Ht, Hs. rewrite Hrep in Hs. simpl in Ht, Hs.
  exists (successful st), w', delta.
  unfold main. cbv zeta. unfold bind. rewrite Hrun. unfold ret.
  rewrite Ht. split; [reflexivity|]. split; [lia|].
  split; [exact Htr|]. split; [exact Hrep|]. split.
  - intros q d H. now apply Hras in H.
  - intros n k H.
    pose proof (ocr_pdfs_to_text_run sched E
                  "data/ADULT AND CONTINUING EDUCATION" "ocr_data_output"
                  300 (Some 1%Z) w Hlog Hmk) as Hshape.
    cbv zeta in Hshape. fold docs in Hshape. rewrite Hrun in Hshape.
    destruct docs as [|p rest] eqn:Hdocs.
    + injection Hshape as _ ->. simpl in Htr.
      apply app_inv_head in Htr. subst delta.
      repeat (apply elem_of_cons in H as [H|H]; [discriminate|]).
      now apply elem_of_nil in H.
    + rewrite <- Hdocs in Hshape. unfold batch_body, mode_event in Hshape.
      change (parallel_mode (Some 1%Z)) with false in Hshape.
      cbv iota in Hshape.
      rewrite seq_loop_run in Hshape.
      pose proof (seq_run_no_parallel_record E "ocr_data_output" 300 docs
                    (Stats (length docs) 0 0 []) (files w) n k) as Hno.
      destruct (seq_run E "ocr_data_output" 300 docs _ _)
        as [[st1 F1] ev1].
      injection Hshape as -> ->. simpl in Htr, Hno.
      rewrite <- !app_assoc in Htr. apply app_inv_head in Htr.
      subst delta. simpl in H.
      repeat (apply elem_of_cons in H as [H|H]; [discriminate|]).
      apply elem_of_app in H as [H|H]; [easy|].
      unfold summary_events in H.
      apply elem_of_cons in H as [H|H]; [discriminate|].
      apply list_elem_of_fmap in H as (x & Hx & _). discriminate.
Qed.

Lemma script_runs_sequentially_witness :
  let docs := find_pdfs (os_walk E_script
                           "data/ADULT AND CONTINUING EDUCATION") in
  exists s w' delta,
    main [1; 0; 2] E_script w_empty
    = (Ok ("Processing complete! Success: " +:+ PyStr.of_nat s
           +:+ "/" +:+ PyStr.of_nat (length docs)), w')
    /\ s <= length docs
    /\ trace w' = trace w_empty ++ delta
    /\ reported delta = docs
    /\ (forall q d, EvRasterize q d ∈ delta -> d = 300%Z)
    /\ forall n k, EvLog (LogParallel n k) ∉ delta.
Proof.
  apply (script_runs_sequentially [1; 0; 2] E_script w_empty); reflexivity.
Defined.

(** What a document converted on its own leaves in its output file: what
    was there, or its text, or the part of it that a broken write
    persisted. *)
Lemma solo_file_cases E output_dir dpi F0 p c :
  solo_file E output_dir dpi F0 p = Some c ->
  F0 !! output_path p output_dir = Some c
  \/ exists images,
       convert_from_path E p dpi = Ok images
       /\ (c = PyStr.join PyStr.nl (pages_blocks E 1 images)
           \/ exists k e,
                write_fault E (output_path p output_dir)
                  (PyStr.join PyStr.nl (pages_blocks E 1 images))
                = Some (k, e)
                /\ c = PyStr.slice_to k
                         (PyStr.join PyStr.nl (pages_blocks E 1 images))).
Proof.
  unfold solo_file, conversion. cbv zeta.
  destruct (present_in F0 (output_path p output_dir)); [now left|].
  pose proof (prepare_cases E dpi p) as Hc.
  destruct (prepare E dpi p) as [[t|oc] ev]; cbn [fst] in Hc;
    [|now left].
  destruct (convert_from_path E p dpi) as [[|img rest]|e0];
    try discriminate.
  injection Hc as ->. unfold persist.
  destruct (open_fault E _); [now left|].
  destruct (write_fault E _ _) as [[k e]|] eqn:Hwrite;
    cbn [fst snd set_file]; rewrite lookup_insert_eq; intros [= <-];
    right; exists (img :: rest); split; try easy.
  - right. now exists k, e.
  - now left.
Qed.

(** The dispatch, in either mode, for documents with distinct output
    files: each output file is as the conversion of its document alone
    leaves it. *)
Lemma batch_body_solo sched E output_dir dpi max_workers docs st0 w :
  NoDup ((fun p => output_path p output_dir) <$> docs) ->
  let w' := snd (batch_body sched E output_dir dpi max_workers docs st0 w) in
  (forall p, p ∈ docs ->
     files w' !! output_path p output_dir
     = solo_file E output_dir dpi (files w) p)
  /\ (forall x, x ∉ (fun p => output_path p output_dir) <$> docs ->
        files w' !! x = files w !! x).
Proof.
  intros Hnd. unfold batch_body.
  destruct (parallel_mode max_workers) eqn:Hmode.
  - destruct (run_pool_solo E output_dir dpi (files w) docs st0 Hnd
                (Z.to_nat (default 0%Z max_workers)) sched w
                (parallel_mode_workers _ Hmode) eq_refl)
      as (P' & w' & Hrun & _ & Hdocs & Hrest).
    unfold bind. now rewrite Hrun.
  - rewrite seq_loop_run.
    pose proof (seq_run_solo E output_dir dpi (files w) docs st0 (files w)
                  Hnd (fun p _ => eq_refl)) as Hseq.
    destruct (seq_run E output_dir dpi docs st0 (files w))
      as [[s1 F1] ev1].
    now destruct Hseq as (_ & Hdocs & Hrest).
Qed.

(** X17. When no two discovered documents share an output file, every
    file after the batch operation, the log file apart, is a file that
    was there before, with its contents, or the output file of a
    discovered document, holding exactly the text of the pages of that
    document or, when its write broke off, the part of that text which
    was written. This holds in both modes and under every schedule. *)
Theorem new_files_hold_document_text
    sched E input_folder output_folder dpi max_workers w x c :
  NoDup ((fun p => output_path p output_folder)
         <$> find_pdfs (os_walk E input_folder)) ->
  x <> log_file ->
  files (snd (ocr_pdfs_to_text sched E input_folder output_folder dpi
                max_workers w)) !! x = Some c ->
  files w !! x = Some c
  \/ exists p images,
       p ∈ find_pdfs (os_walk E input_folder)
       /\ x = output_path p output_folder
       /\ convert_from_path E p dpi = Ok images
       /\ (c = PyStr.join PyStr.nl (pages_blocks E 1 images)
           \/ exists k e,
                write_fault E x (PyStr.join PyStr.nl (pages_blocks E 1 images))
                = Some (k, e)
                /\ c = PyStr.slice_to k
                         (PyStr.join PyStr.nl (pages_blocks E 1 images))).
Proof.
  intros Hnd _.
  destruct (ocr_pdfs_to_text_cases sched E input_folder output_folder dpi
              max_workers w) as [[Hlog Hmk]|(e & tr & Hrun & _)];
    [|rewrite Hrun; now left].
  rewrite ocr_pdfs_to_text_run by assumption. cbv zeta.
  destruct (find_pdfs (os_walk E input_folder)) as [|p0 rest] eqn:Hdocs;
    [now left|].
  rewrite <- Hdocs in *.
  pose proof (batch_body_solo sched E output_folder dpi max_workers
                (find_pdfs (os_walk E input_folder))
                (Stats (length (find_pdfs (os_walk E input_folder))) 0 0 [])
                (World (files w)
                   (trace w
                    ++ [EvMakedirs output_folder;
                        EvLog (LogFound
                                 (length (find_pdfs
                                            (os_walk E input_folder))))]
                    ++ [mode_event max_workers
                          (length (find_pdfs (os_walk E input_folder)))]))
                Hnd) as [Hown Hrest].
  cbv zeta in Hown, Hrest. cbn [files] in Hown, Hrest.
  destruct (batch_body _ _ _ _ _ _ _ _) as [[st|e] w1];
    cbn [snd files] in *; intros Hx.
  all: destruct (decide (x ∈ (fun p => output_path p output_folder)
                           <$> find_pdfs (os_walk E input_folder)))
         as [Hin|Hout];
       [|left; now rewrite <- (Hrest x Hout)].
  all: apply list_elem_of_fmap in Hin as (p & -> & Hp);
       rewrite (Hown p Hp) in Hx;
       apply solo_file_cases in Hx as [Hx|(images & Hconv & Hc)];
       [now left|right; now exists p, images].
Qed.

Lemma new_files_hold_document_text_witness :
  let w' := snd (ocr_pdfs_to_text [0; 1; 0; 2] E_disk_full "in" "out" 300
                   (Some 2%Z) w_empty) in
  let c := default "" (files w' !! "out/a.txt") in
  files w_empty !! "out/a.txt" = Some c
  \/ exists p images,
       p ∈ find_pdfs (os_walk E_disk_full "in")
       /\ "out/a.txt" = output_path p "out"
       /\ convert_from_path E_disk_full p 300 = Ok images
       /\ (c = PyStr.join PyStr.nl (pages_blocks E_disk_full 1 images)
           \/ exists k e,
                write_fault E_disk_full "out/a.txt"
                  (PyStr.join PyStr.nl (pages_blocks E_disk_full 1 images))
                = Some (k, e)
                /\ c = PyStr.slice_to k
                         (PyStr.join PyStr.nl
                            (pages_blocks E_disk_full 1 images))).
Proof.
  intros w' c.
  apply (new_files_hold_document_text [0; 1; 0; 2] E_disk_full "in" "out"
           300 (Some 2%Z) w_empty "out/a.txt" c).
  - apply NoDup_ListNoDup. vm_compute.
    repeat (constructor; [simpl; intuition discriminate|]). constructor.
  - discriminate.
  - vm_compute. reflexivity.
Defined.

(** Without that condition the texts can be mixed. Two workers take
    [in/blank.pdf] and [in/sub/blank.pdf], which share [out/blank.txt];
    both find it absent and both open it; the first writes its two pages
    and then the second writes its one page over them from the start of
    the file. What is left is the second text followed by the tail of the
    first, and both documents are counted as successes. *)
Example shared_output_file_mixes_the_texts :
  let first := PyStr.join PyStr.nl (pages_blocks E_twin 1 [page 0; page 2]) in
  let second := PyStr.join PyStr.nl (pages_blocks E_twin 1 [page 1]) in
  let r := ocr_pdfs_to_text [0; 1; 0; 1; 0; 1; 0; 1; 0; 0] E_twin "in" "out"
             300 (Some 2%Z) w_empty in
  fst r = Ok (Stats 2 2 0 [])
  /\ files (snd r) !! "out/blank.txt" = Some (overlay second first)
  /\ overlay second first <> first
  /\ overlay second first <> second.
Proof. vm_compute. repeat split; discriminate. Qed.
